(** * EduHireNexus: moderation and application workflow

    A shallow embedding of the two back ends of the repository and of the
    browser-side search:

    - [Mem]: the in-memory store [MemStorage] of [server/storage.ts]
      together with the Express handlers that drive it (routes file);
    - [Fn]: the callable Cloud Functions over Firestore
      ([approveEmployerUpgrade], [createJob], [approveJob], [applyToJob],
      [expireJobs], [updateApplicationStatus]) and the admin service
      [deleteUser];
    - [Client]: the browser-side [searchJobs] built on a Firestore query.

    Conventions.  A Firestore [Timestamp], and a JavaScript [Date] that
    the code itself creates with [new Date()], is its number of
    milliseconds since the epoch, a [Z].  The deadline of a job in
    [MemStorage] comes from [new Date(str)] on a string of the request and
    can be [Invalid Date]: it is a [JsDate].
    JavaScript numbers holding counters and salaries are integers in [Z].
    [new Date()] and [serverTimestamp()] read a clock that is passed to
    every operation as [now].  Identifiers produced by [randomUUID()] and
    by Firestore's [add] are passed in by the caller of the model.
    Sending e-mail never throws in the source ([sendEmail] catches and
    returns a boolean) and does not touch the store: it is left out.
    An Express handler awaits nothing but the methods of [MemStorage],
    which resolve at once, and is served as one step.  A Cloud Function
    awaits Firestore at every read and write; [applyToJob] and
    [requestEmployerUpgrade], which look for a document and then add one
    without a transaction, are split between the two, and other calls
    can run in between ([Fn.running]). *)

From Stdlib Require Import ZArith String Ascii List Lia Bool Sorted Permutation.
From stdpp Require Import base gmap strings list fin_maps.

Local Open Scope string_scope.
Local Open Scope list_scope.
Local Open Scope Z_scope.

(** ** JavaScript helpers *)

(** [x || d] on an optional number: [undefined] and [0] both give [d]. *)
Definition num_or (x : option Z) (d : Z) : Z :=
  match x with
  | Some n => if n =? 0 then d else n
  | None => d
  end.

(** Truthiness of an optional string: [undefined] and [""] are falsy. *)
Definition truthy (x : option string) : bool :=
  match x with
  | Some s => negb (String.eqb s "")
  | None => false
  end.

(** [x || d] on an optional string. *)
Definition str_or (x : option string) (d : string) : string :=
  match x with
  | Some s => if String.eqb s "" then d else s
  | None => d
  end.

(** [String.prototype.toLowerCase], on the ASCII range. *)
Definition lower_ascii (c : ascii) : ascii :=
  let n := nat_of_ascii c in
  if ((65 <=? n)%nat && (n <=? 90)%nat)%bool then ascii_of_nat (n + 32) else c.

Fixpoint toLowerCase (s : string) : string :=
  match s with
  | EmptyString => EmptyString
  | String c s' => String (lower_ascii c) (toLowerCase s')
  end.

(** [s.includes(t)]: [t] occurs in [s] as a substring. *)
Fixpoint includes (s t : string) : bool :=
  if String.prefix t s then true
  else match s with
       | EmptyString => false
       | String _ s' => includes s' t
       end.

(** [Array.prototype.slice(start, end)], negative indices included. *)
Definition rel_index (len i : Z) : Z :=
  if i <? 0 then Z.max (len + i) 0 else Z.min i len.

Definition slice {A} (l : list A) (start stop : Z) : list A :=
  let len := Z.of_nat (length l) in
  let k := rel_index len start in
  let fin := rel_index len stop in
  firstn (Z.to_nat (fin - k)) (skipn (Z.to_nat k) l).

(** A JavaScript [Date]: its time value in milliseconds, or
    [Invalid Date], whose time value is [NaN]. *)
Inductive JsDate :=
  | ValidDate (t : Z)
  | InvalidDate.

(** [a.getTime() - b.getTime()] as the comparator of a sort returns it.
    The difference is [NaN] when a date is invalid, and [SortCompare]
    reads a [NaN] as [+0]. *)
Definition getTime_diff (a b : JsDate) : Z :=
  match a, b with
  | ValidDate x, ValidDate y => x - y
  | _, _ => 0
  end.

(** [d < new Date()]: a comparison with [NaN] is false. *)
Definition date_before (d : JsDate) (now : Z) : bool :=
  match d with
  | ValidDate t => t <? now
  | InvalidDate => false
  end.

(** [Array.prototype.sort(cmp)] is stable: an insertion sort that puts an
    element in front of the first later element it does not exceed.  The
    order [sort] produces is fixed by the language only when [cmp] is a
    consistent comparison, which a comparator that returns [NaN] for some
    pairs is not: what is proved about the order of a result assumes that
    the keys compared are numbers. *)
Section Sort.
Context {A : Type} (cmp : A → A → Z).

Fixpoint insert_sorted (x : A) (l : list A) : list A :=
  match l with
  | [] => [x]
  | y :: l' => if cmp x y <=? 0 then x :: l else y :: insert_sorted x l'
  end.

Fixpoint js_sort (l : list A) : list A :=
  match l with
  | [] => []
  | x :: l' => insert_sorted x (js_sort l')
  end.
End Sort.

(** A JavaScript [Map] with string keys: entries in insertion order;
    [set] on a present key keeps its position. *)
Module JsMap.
Section Ops.
Context {V : Type}.

Fixpoint get (k : string) (m : list (string * V)) : option V :=
  match m with
  | [] => None
  | (k', v) :: m' => if String.eqb k k' then Some v else get k m'
  end.

Fixpoint set (k : string) (v : V) (m : list (string * V)) : list (string * V) :=
  match m with
  | [] => [(k, v)]
  | (k', v') :: m' =>
      if String.eqb k k' then (k, v) :: m' else (k', v') :: set k v m'
  end.

Definition delete (k : string) (m : list (string * V)) : list (string * V) :=
  List.filter (fun kv => negb (String.eqb k (fst kv))) m.

Definition values (m : list (string * V)) : list V := map snd m.
End Ops.
End JsMap.

(** ** Outcomes *)

(** The error codes of [functions.https.HttpsError]. *)
Inductive ErrorCode :=
  | cancelled | unknown | invalid_argument | deadline_exceeded | not_found
  | already_exists | permission_denied | resource_exhausted
  | failed_precondition | aborted | out_of_range | unimplemented | internal
  | unavailable | data_loss | unauthenticated.

Inductive Result (A : Type) :=
  | Ok (a : A)
  | Err (e : ErrorCode).
Arguments Ok {A} a.
Arguments Err {A} e.

Definition is_ok {A} (r : Result A) : bool :=
  match r with Ok _ => true | Err _ => false end.

(** ** Enumerations of [shared/schema.ts] *)

Inductive UserRole := seeker | employer | admin.
Inductive CompanyStatus := company_pending | company_approved | company_rejected.
Inductive JobStatus := job_pending | job_approved | job_rejected | job_expired.
Inductive ApplicationStatus :=
  | submitted | reviewed | shortlisted | app_rejected | offered | withdrawn.
Inductive ApplyMode := apply_external | apply_internal.

Definition JobStatus_eqb (a b : JobStatus) : bool :=
  match a, b with
  | job_pending, job_pending | job_approved, job_approved
  | job_rejected, job_rejected | job_expired, job_expired => true
  | _, _ => false
  end.

Definition CompanyStatus_eqb (a b : CompanyStatus) : bool :=
  match a, b with
  | company_pending, company_pending | company_approved, company_approved
  | company_rejected, company_rejected => true
  | _, _ => false
  end.

Definition UserRole_eqb (a b : UserRole) : bool :=
  match a, b with
  | seeker, seeker | employer, employer | admin, admin => true
  | _, _ => false
  end.

Record Location := { city : string; state : string; country : string }.

(** ** The in-memory store and its Express handlers *)

Module Mem.

(** *** Records of [shared/schema.ts] *)

Record User := {
  user_id : string;
  user_displayName : string;
  user_email : string;
  user_role : UserRole;
  user_emailVerified : bool;
  user_createdAt : Z;
  user_updatedAt : Z }.

Record InsertUser := {
  iu_displayName : string;
  iu_email : string;
  iu_role : UserRole;
  iu_emailVerified : bool }.

Record InsertCompany := {
  ic_name : string;
  ic_website : option string;
  ic_instituteType : string;
  ic_hrEmail : string;
  ic_logoPath : option string;
  ic_address : string;
  ic_phone : option string;
  ic_proofDocs : list string;
  ic_ownerUid : string }.

Record Company := {
  company_id : string;
  company_ins : InsertCompany;
  company_status : CompanyStatus;
  company_createdAt : Z;
  company_updatedAt : Z }.

(** [InsertJob]: the user-supplied fields of a job.  [lastDate] is the
    [Date] the route made from a string; [applyMode] and [applyUrl] are
    absent from a record that comes from [POST /api/jobs]. *)
Record InsertJob := {
  title : string;
  department : string;
  level : string;
  instituteType : string;
  employmentType : string;
  location : Location;
  minSalary : option Z;
  maxSalary : option Z;
  currency : string;
  qualifications : list string;
  skills : list string;
  responsibilities : list string;
  description : string;
  requirements : option string;
  lastDate : JsDate;
  applyMode : option ApplyMode;
  applyUrl : option string;
  companyId : string;
  posterUid : string }.

(** [Job]: [InsertJob] plus the fields the store owns. *)
Record Job := {
  job_id : string;
  job_ins : InsertJob;
  job_status : JobStatus;
  job_approvedBy : option string;
  job_approvedAt : option Z;
  job_viewCount : Z;
  job_applicationCount : Z;
  job_createdAt : Z;
  job_updatedAt : Z }.

Record InsertApplication := {
  ia_jobId : string;
  ia_applicantUid : string;
  ia_resumePath : string;
  ia_coverLetter : option string;
  ia_dedupeKey : string }.

Record Application := {
  app_id : string;
  app_ins : InsertApplication;
  app_status : ApplicationStatus;
  app_notes : option string;
  app_createdAt : Z;
  app_updatedAt : Z }.

Record InsertAuditLog := {
  ial_actorUid : string;
  ial_action : string;
  ial_targetType : string;
  ial_targetId : string;
  ial_metadata : list (string * string) }.

Record AuditLog := {
  log_id : string;
  log_ins : InsertAuditLog;
  log_timestamp : Z }.

(** A [Partial<T>] is used in one way only, the spread
    [{ ...record, ...updates }]; it is represented by the override it
    performs on the record. *)
Definition Partial (T : Type) : Type := T → T.

Definition touch_user (u : User) (t : Z) : User :=
  {| user_id := user_id u; user_displayName := user_displayName u;
     user_email := user_email u; user_role := user_role u;
     user_emailVerified := user_emailVerified u;
     user_createdAt := user_createdAt u; user_updatedAt := t |}.

Definition touch_company (c : Company) (t : Z) : Company :=
  {| company_id := company_id c; company_ins := company_ins c;
     company_status := company_status c;
     company_createdAt := company_createdAt c; company_updatedAt := t |}.

Definition touch_job (j : Job) (t : Z) : Job :=
  {| job_id := job_id j; job_ins := job_ins j; job_status := job_status j;
     job_approvedBy := job_approvedBy j; job_approvedAt := job_approvedAt j;
     job_viewCount := job_viewCount j;
     job_applicationCount := job_applicationCount j;
     job_createdAt := job_createdAt j; job_updatedAt := t |}.

Definition touch_application (a : Application) (t : Z) : Application :=
  {| app_id := app_id a; app_ins := app_ins a; app_status := app_status a;
     app_notes := app_notes a; app_createdAt := app_createdAt a;
     app_updatedAt := t |}.

(** The overrides the handlers pass to [updateJob] and [updateCompany]. *)
Definition with_viewCount (n : Z) : Partial Job := fun j =>
  {| job_id := job_id j; job_ins := job_ins j; job_status := job_status j;
     job_approvedBy := job_approvedBy j; job_approvedAt := job_approvedAt j;
     job_viewCount := n; job_applicationCount := job_applicationCount j;
     job_createdAt := job_createdAt j; job_updatedAt := job_updatedAt j |}.

Definition with_applicationCount (n : Z) : Partial Job := fun j =>
  {| job_id := job_id j; job_ins := job_ins j; job_status := job_status j;
     job_approvedBy := job_approvedBy j; job_approvedAt := job_approvedAt j;
     job_viewCount := job_viewCount j; job_applicationCount := n;
     job_createdAt := job_createdAt j; job_updatedAt := job_updatedAt j |}.

Definition with_job_status (st : JobStatus) : Partial Job := fun j =>
  {| job_id := job_id j; job_ins := job_ins j; job_status := st;
     job_approvedBy := job_approvedBy j; job_approvedAt := job_approvedAt j;
     job_viewCount := job_viewCount j;
     job_applicationCount := job_applicationCount j;
     job_createdAt := job_createdAt j; job_updatedAt := job_updatedAt j |}.

Definition with_approval (by_ : string) (at_ : Z) : Partial Job := fun j =>
  {| job_id := job_id j; job_ins := job_ins j; job_status := job_approved;
     job_approvedBy := Some by_; job_approvedAt := Some at_;
     job_viewCount := job_viewCount j;
     job_applicationCount := job_applicationCount j;
     job_createdAt := job_createdAt j; job_updatedAt := job_updatedAt j |}.

Definition with_company_status (st : CompanyStatus) : Partial Company := fun c =>
  {| company_id := company_id c; company_ins := company_ins c;
     company_status := st;
     company_createdAt := company_createdAt c;
     company_updatedAt := company_updatedAt c |}.

(** *** [class MemStorage]
    The [reports] map, which no claim and no handler below touches, is
    left out. *)

Record MemStorage := {
  users : list (string * User);
  companies : list (string * Company);
  jobs : list (string * Job);
  applications : list (string * Application);
  auditLogs : list (string * AuditLog) }.

Definition empty : MemStorage :=
  {| users := []; companies := []; jobs := []; applications := [];
     auditLogs := [] |}.

Definition set_users (s : MemStorage) (m : list (string * User)) : MemStorage :=
  {| users := m; companies := companies s; jobs := jobs s;
     applications := applications s; auditLogs := auditLogs s |}.

Definition set_companies (s : MemStorage) (m : list (string * Company)) : MemStorage :=
  {| users := users s; companies := m; jobs := jobs s;
     applications := applications s; auditLogs := auditLogs s |}.

Definition set_jobs (s : MemStorage) (m : list (string * Job)) : MemStorage :=
  {| users := users s; companies := companies s; jobs := m;
     applications := applications s; auditLogs := auditLogs s |}.

Definition set_applications (s : MemStorage) (m : list (string * Application)) : MemStorage :=
  {| users := users s; companies := companies s; jobs := jobs s;
     applications := m; auditLogs := auditLogs s |}.

Definition set_auditLogs (s : MemStorage) (m : list (string * AuditLog)) : MemStorage :=
  {| users := users s; companies := companies s; jobs := jobs s;
     applications := applications s; auditLogs := m |}.

(** How a store method ends: every method of [MemStorage] resolves; the
    type leaves room for the [NotFound] rejection of the store interface. *)
Inductive Outcome (A : Type) :=
  | Resolved (a : A)
  | Rejected (e : ErrorCode).
Arguments Resolved {A} a.
Arguments Rejected {A} e.

(** User operations *)

Definition getUser (id : string) (s : MemStorage) : option User :=
  JsMap.get id (users s).

Definition createUser (ins : InsertUser) (id : string) (now : Z)
    (s : MemStorage) : User * MemStorage :=
  let user :=
    {| user_id := id; user_displayName := iu_displayName ins;
       user_email := iu_email ins; user_role := iu_role ins;
       user_emailVerified := iu_emailVerified ins;
       user_createdAt := now; user_updatedAt := now |} in
  (user, set_users s (JsMap.set id user (users s))).

Definition updateUser (id : string) (updates : Partial User) (now : Z)
    (s : MemStorage) : Outcome unit * MemStorage :=
  match JsMap.get id (users s) with
  | Some user =>
      (Resolved tt, set_users s (JsMap.set id (touch_user (updates user) now) (users s)))
  | None => (Resolved tt, s)
  end.

(** [forEach(x => map.delete(x.id))] over a list of records. *)
Definition delete_all {V} (ids : list string) (m : list (string * V)) : list (string * V) :=
  fold_left (fun acc id => JsMap.delete id acc) ids m.

Definition deleteUser (id : string) (s : MemStorage) : Outcome unit * MemStorage :=
  let users1 := JsMap.delete id (users s) in
  let userCompanies :=
    List.filter (fun c => String.eqb (ic_ownerUid (company_ins c)) id)
      (JsMap.values (companies s)) in
  let companies1 := delete_all (map company_id userCompanies) (companies s) in
  let userJobs :=
    List.filter (fun j => String.eqb (posterUid (job_ins j)) id)
      (JsMap.values (jobs s)) in
  let jobs1 := delete_all (map job_id userJobs) (jobs s) in
  let userApplications :=
    List.filter (fun a => String.eqb (ia_applicantUid (app_ins a)) id)
      (JsMap.values (applications s)) in
  let applications1 := delete_all (map app_id userApplications) (applications s) in
  (Resolved tt,
   {| users := users1; companies := companies1; jobs := jobs1;
      applications := applications1; auditLogs := auditLogs s |}).

(** Company operations *)

Definition getCompany (id : string) (s : MemStorage) : option Company :=
  JsMap.get id (companies s).

Definition getCompanyByOwner (ownerUid : string) (s : MemStorage) : option Company :=
  List.find (fun c => String.eqb (ic_ownerUid (company_ins c)) ownerUid)
    (JsMap.values (companies s)).

Definition createCompany (ins : InsertCompany) (id : string) (now : Z)
    (s : MemStorage) : Company * MemStorage :=
  let company :=
    {| company_id := id; company_ins := ins; company_status := company_pending;
       company_createdAt := now; company_updatedAt := now |} in
  (company, set_companies s (JsMap.set id company (companies s))).

Definition updateCompany (id : string) (updates : Partial Company) (now : Z)
    (s : MemStorage) : Outcome unit * MemStorage :=
  match JsMap.get id (companies s) with
  | Some company =>
      (Resolved tt,
       set_companies s (JsMap.set id (touch_company (updates company) now) (companies s)))
  | None => (Resolved tt, s)
  end.

(** Job operations *)

Definition getJob (id : string) (s : MemStorage) : option Job :=
  JsMap.get id (jobs s).

Definition createJob (ins : InsertJob) (id : string) (now : Z)
    (s : MemStorage) : Job * MemStorage :=
  let job :=
    {| job_id := id; job_ins := ins; job_status := job_pending;
       job_approvedBy := None; job_approvedAt := None;
       job_viewCount := 0; job_applicationCount := 0;
       job_createdAt := now; job_updatedAt := now |} in
  (job, set_jobs s (JsMap.set id job (jobs s))).

Definition updateJob (id : string) (updates : Partial Job) (now : Z)
    (s : MemStorage) : Outcome unit * MemStorage :=
  match JsMap.get id (jobs s) with
  | Some job =>
      (Resolved tt, set_jobs s (JsMap.set id (touch_job (updates job) now) (jobs s)))
  | None => (Resolved tt, s)
  end.

Definition deleteJob (id : string) (s : MemStorage) : Outcome unit * MemStorage :=
  let jobs1 := JsMap.delete id (jobs s) in
  let jobApplications :=
    List.filter (fun a => String.eqb (ia_jobId (app_ins a)) id)
      (JsMap.values (applications s)) in
  let applications1 := delete_all (map app_id jobApplications) (applications s) in
  (Resolved tt,
   {| users := users s; companies := companies s; jobs := jobs1;
      applications := applications1; auditLogs := auditLogs s |}).

(** [Partial<JobSearchFilters>] as [searchJobs] reads it. *)
Record JobSearchFilters := {
  f_query : option string;
  f_department : option string;
  f_instituteType : option string;
  f_level : option string;
  f_location : option string;
  f_employmentType : option string;
  f_postedWithin : option string;
  f_sortBy : option string }.

Record PaginatedResponse := {
  items : list Job;
  total : Z;
  page : Z;
  limit : Z;
  hasMore : bool }.

(** [if (filters.x) allJobs = allJobs.filter(p)] *)
Definition filter_if (x : option string) (p : string → Job → bool)
    (l : list Job) : list Job :=
  match x with
  | Some v => if String.eqb v "" then l else List.filter (p v) l
  | None => l
  end.

Definition matches_location (loc : string) (job : Job) : bool :=
  includes (toLowerCase (city (location (job_ins job)))) (toLowerCase loc)
  || includes (toLowerCase (state (location (job_ins job)))) (toLowerCase loc).

Definition matches_query (q : string) (job : Job) : bool :=
  let query := toLowerCase q in
  includes (toLowerCase (title (job_ins job))) query
  || includes (toLowerCase (description (job_ins job))) query
  || existsb (fun x => includes (toLowerCase x) query) (qualifications (job_ins job))
  || existsb (fun x => includes (toLowerCase x) query) (skills (job_ins job)).

Definition daysAgo (postedWithin : string) : Z :=
  if String.eqb postedWithin "24h" then 1
  else if String.eqb postedWithin "7d" then 7
  else if String.eqb postedWithin "30d" then 30
  else 0.

Definition filter_posted (x : option string) (now : Z) (l : list Job) : list Job :=
  match x with
  | Some v =>
      if String.eqb v "" || String.eqb v "all" then l
      else
        let dateThreshold := now - daysAgo v * 24 * 60 * 60 * 1000 in
        List.filter (fun job => dateThreshold <=? job_createdAt job) l
  | None => l
  end.

Definition cmp_deadline (a b : Job) : Z :=
  getTime_diff (lastDate (job_ins a)) (lastDate (job_ins b)).
Definition cmp_salary_high (a b : Job) : Z :=
  num_or (maxSalary (job_ins b)) 0 - num_or (maxSalary (job_ins a)) 0.
Definition cmp_salary_low (a b : Job) : Z :=
  num_or (minSalary (job_ins a)) 0 - num_or (minSalary (job_ins b)) 0.
Definition cmp_newest (a b : Job) : Z :=
  job_createdAt b - job_createdAt a.

Definition sort_jobs (sortBy : option string) (l : list Job) : list Job :=
  match sortBy with
  | Some k =>
      if String.eqb k "deadline" then js_sort cmp_deadline l
      else if String.eqb k "salary_high" then js_sort cmp_salary_high l
      else if String.eqb k "salary_low" then js_sort cmp_salary_low l
      else js_sort cmp_newest l
  | None => js_sort cmp_newest l
  end.

(** The jobs that pass every filter, before sorting. *)
Definition matching (filters : JobSearchFilters) (now : Z) (s : MemStorage) : list Job :=
  let allJobs :=
    List.filter (fun job => JobStatus_eqb (job_status job) job_approved)
      (JsMap.values (jobs s)) in
  let allJobs :=
    filter_if (f_department filters)
      (fun v job => String.eqb (department (job_ins job)) v) allJobs in
  let allJobs :=
    filter_if (f_instituteType filters)
      (fun v job => String.eqb (instituteType (job_ins job)) v) allJobs in
  let allJobs :=
    filter_if (f_level filters)
      (fun v job => String.eqb (level (job_ins job)) v) allJobs in
  let allJobs := filter_if (f_location filters) matches_location allJobs in
  let allJobs :=
    filter_if (f_employmentType filters)
      (fun v job => String.eqb (employmentType (job_ins job)) v) allJobs in
  let allJobs := filter_if (f_query filters) matches_query allJobs in
  filter_posted (f_postedWithin filters) now allJobs.

(** The ordered result set. *)
Definition ordered (filters : JobSearchFilters) (now : Z) (s : MemStorage) : list Job :=
  sort_jobs (f_sortBy filters) (matching filters now s).

Definition searchJobs (filters : JobSearchFilters) (page limit : option Z)
    (now : Z) (s : MemStorage) : PaginatedResponse :=
  let page := default 1 page in
  let limit := default 20 limit in
  let allJobs := ordered filters now s in
  let total := Z.of_nat (length allJobs) in
  let startIndex := (page - 1) * limit in
  let endIndex := startIndex + limit in
  {| items := slice allJobs startIndex endIndex;
     total := total;
     page := page;
     limit := limit;
     hasMore := endIndex <? total |}.

(** Application operations *)

Definition getApplication (id : string) (s : MemStorage) : option Application :=
  JsMap.get id (applications s).

Definition getApplicationByDedupeKey (dedupeKey : string) (s : MemStorage)
    : option Application :=
  List.find (fun a => String.eqb (ia_dedupeKey (app_ins a)) dedupeKey)
    (JsMap.values (applications s)).

Definition createApplication (ins : InsertApplication) (id : string) (now : Z)
    (s : MemStorage) : Application * MemStorage :=
  let application :=
    {| app_id := id; app_ins := ins; app_status := submitted;
       app_notes := None; app_createdAt := now; app_updatedAt := now |} in
  (application, set_applications s (JsMap.set id application (applications s))).

Definition updateApplication (id : string) (updates : Partial Application)
    (now : Z) (s : MemStorage) : Outcome unit * MemStorage :=
  match JsMap.get id (applications s) with
  | Some application =>
      (Resolved tt,
       set_applications s
         (JsMap.set id (touch_application (updates application) now) (applications s)))
  | None => (Resolved tt, s)
  end.

(** Audit log operations *)

Definition createAuditLog (ins : InsertAuditLog) (id : string) (now : Z)
    (s : MemStorage) : AuditLog * MemStorage :=
  let log := {| log_id := id; log_ins := ins; log_timestamp := now |} in
  (log, set_auditLogs s (JsMap.set id log (auditLogs s))).

(** *** Express handlers *)

(** The decoded token attached to the request by [authenticateUser]. *)
Record UserPayload := {
  uid : string;
  email_verified : bool;
  role : option string }.

(** A handler answers with a JSON body or with an HTTP error status. *)
Inductive Response (A : Type) :=
  | Json (a : A)
  | Failure (status : Z) (error : string).
Arguments Json {A} a.
Arguments Failure {A} status error.

(** [authenticateUser], [requireEmailVerification], [requireRole(roles)]. *)
Definition guard {A} (user : option UserPayload) (verified : bool)
    (roles : option (list string)) (k : UserPayload → Response A * MemStorage)
    (s : MemStorage) : Response A * MemStorage :=
  match user with
  | None => (Failure 401 "No token provided", s)
  | Some u =>
      if verified && negb (email_verified u)
      then (Failure 403 "Email verification required", s)
      else
        match roles with
        | Some rs =>
            if existsb (String.eqb (str_or (role u) "seeker")) rs then k u
            else (Failure 403 "Insufficient permissions", s)
        | None => k u
        end
  end.

(** [GET /api/jobs].  [q_page] and [q_limit] are the results of
    [parseInt], [None] standing for [NaN]. *)
Record SearchQuery := {
  q_page : option Z;
  q_limit : option Z;
  q_department : option string;
  q_instituteType : option string;
  q_level : option string;
  q_location : option string;
  q_employmentType : option string;
  q_sortBy : option string;
  q_q : option string }.

Definition route_page (q : SearchQuery) : Z := num_or (q_page q) 1.
Definition route_limit (q : SearchQuery) : Z := Z.min (num_or (q_limit q) 20) 100.

Definition route_filters (q : SearchQuery) : JobSearchFilters :=
  {| f_query := q_q q;
     f_department := q_department q;
     f_instituteType := q_instituteType q;
     f_level := q_level q;
     f_location := q_location q;
     f_employmentType := q_employmentType q;
     f_postedWithin := None;
     f_sortBy := Some (str_or (q_sortBy q) "newest") |}.

Definition get_jobs (q : SearchQuery) (now : Z) (s : MemStorage) : Response PaginatedResponse :=
  Json (searchJobs (route_filters q) (Some (route_page q)) (Some (route_limit q)) now s).

(** [GET /api/jobs/:id] *)
Definition get_job (id : string) (now : Z) (s : MemStorage) : Response Job * MemStorage :=
  match getJob id s with
  | None => (Failure 404 "Job not found", s)
  | Some job =>
      let '(_, s1) :=
        updateJob (job_id job) (with_viewCount (num_or (Some (job_viewCount job)) 0 + 1)) now s in
      (Json job, s1)
  end.

(** [PATCH /api/admin/jobs/:id/status] *)
Definition patch_job_status (user : option UserPayload) (jobId status logId : string)
    (now : Z) (s : MemStorage) : Response unit * MemStorage :=
  guard user true (Some ["admin"]) (fun u =>
    if negb (String.eqb status "approved" || String.eqb status "rejected")
    then (Failure 400 "Invalid status", s)
    else
      let updateData : Partial Job :=
        if String.eqb status "approved" then with_approval (uid u) now
        else with_job_status job_rejected in
      let '(_, s1) := updateJob jobId updateData now s in
      let '(_, s2) :=
        createAuditLog
          {| ial_actorUid := uid u;
             ial_action := if String.eqb status "approved" then "job_approved" else "job_rejected";
             ial_targetType := "job"; ial_targetId := jobId;
             ial_metadata := [("status", status)] |} logId now s1 in
      (Json tt, s2)) s.

(** [PATCH /api/admin/companies/:id/status] *)
Definition patch_company_status (user : option UserPayload)
    (companyId_ status logId : string) (now : Z) (s : MemStorage)
    : Response unit * MemStorage :=
  guard user true (Some ["admin"]) (fun u =>
    if negb (String.eqb status "approved" || String.eqb status "rejected")
    then (Failure 400 "Invalid status", s)
    else
      let st := if String.eqb status "approved" then company_approved else company_rejected in
      let '(_, s1) := updateCompany companyId_ (with_company_status st) now s in
      let '(_, s2) :=
        createAuditLog
          {| ial_actorUid := uid u;
             ial_action := if String.eqb status "approved" then "company_approved" else "company_rejected";
             ial_targetType := "company"; ial_targetId := companyId_;
             ial_metadata := [("status", status)] |} logId now s1 in
      (Json tt, s2)) s.

(** [POST /api/applications] *)
Record ApplicationBody := {
  b_jobId : string;
  b_resumePath : string;
  b_coverLetter : option string }.

Definition post_applications (user : option UserPayload) (validatedData : ApplicationBody)
    (id : string) (now : Z) (s : MemStorage) : Response Application * MemStorage :=
  guard user true (Some ["seeker"]) (fun u =>
    match getJob (b_jobId validatedData) s with
    | None => (Failure 400 "Job not available for applications", s)
    | Some job =>
        if negb (JobStatus_eqb (job_status job) job_approved)
        then (Failure 400 "Job not available for applications", s)
        else if date_before (lastDate (job_ins job)) now
        then (Failure 400 "Application deadline has passed", s)
        else
          let dedupeKey := b_jobId validatedData +:+ "_" +:+ uid u in
          match getApplicationByDedupeKey dedupeKey s with
          | Some _ => (Failure 400 "You have already applied to this job", s)
          | None =>
              let '(application, s1) :=
                createApplication
                  {| ia_jobId := b_jobId validatedData; ia_applicantUid := uid u;
                     ia_resumePath := b_resumePath validatedData;
                     ia_coverLetter := b_coverLetter validatedData;
                     ia_dedupeKey := dedupeKey |} id now s in
              let '(_, s2) :=
                updateJob (job_id job)
                  (with_applicationCount (num_or (Some (job_applicationCount job)) 0 + 1))
                  now s1 in
              (Json application, s2)
          end
    end) s.

(** *** The remaining queries of [MemStorage] *)

Definition getUserByEmail (email : string) (s : MemStorage) : option User :=
  List.find (fun user => String.eqb (user_email user) email) (JsMap.values (users s)).

Definition cmp_company_newest (a b : Company) : Z :=
  company_createdAt b - company_createdAt a.
Definition cmp_application_newest (a b : Application) : Z :=
  app_createdAt b - app_createdAt a.
Definition cmp_log_newest (a b : AuditLog) : Z :=
  log_timestamp b - log_timestamp a.

Definition getPendingCompanies (s : MemStorage) : list Company :=
  js_sort cmp_company_newest
    (List.filter (fun company => CompanyStatus_eqb (company_status company) company_pending)
       (JsMap.values (companies s))).

Definition getApprovedCompanies (s : MemStorage) : list Company :=
  js_sort cmp_company_newest
    (List.filter (fun company => CompanyStatus_eqb (company_status company) company_approved)
       (JsMap.values (companies s))).

Definition getJobsByCompany (companyId_ : string) (s : MemStorage) : list Job :=
  js_sort cmp_newest
    (List.filter (fun job => String.eqb (companyId (job_ins job)) companyId_)
       (JsMap.values (jobs s))).

Definition getJobsByPoster (posterUid_ : string) (s : MemStorage) : list Job :=
  js_sort cmp_newest
    (List.filter (fun job => String.eqb (posterUid (job_ins job)) posterUid_)
       (JsMap.values (jobs s))).

Definition getPendingJobs (s : MemStorage) : list Job :=
  js_sort cmp_newest
    (List.filter (fun job => JobStatus_eqb (job_status job) job_pending)
       (JsMap.values (jobs s))).

Definition getApprovedJobs (s : MemStorage) : list Job :=
  js_sort cmp_newest
    (List.filter (fun job => JobStatus_eqb (job_status job) job_approved)
       (JsMap.values (jobs s))).

Definition getFeaturedJobs (limit : option Z) (s : MemStorage) : list Job :=
  slice
    (js_sort cmp_newest
       (List.filter (fun job => JobStatus_eqb (job_status job) job_approved)
          (JsMap.values (jobs s))))
    0 (default 6 limit).

Definition getApplicationsByUser (applicantUid : string) (s : MemStorage) : list Application :=
  js_sort cmp_application_newest
    (List.filter (fun a => String.eqb (ia_applicantUid (app_ins a)) applicantUid)
       (JsMap.values (applications s))).

Definition getApplicationsByJob (jobId : string) (s : MemStorage) : list Application :=
  js_sort cmp_application_newest
    (List.filter (fun a => String.eqb (ia_jobId (app_ins a)) jobId)
       (JsMap.values (applications s))).

Definition getAuditLogs (limit : option Z) (s : MemStorage) : list AuditLog :=
  slice (js_sort cmp_log_newest (JsMap.values (auditLogs s))) 0 (default 50 limit).

Record Stats := {
  totalJobs : Z;
  totalApplications : Z;
  totalEmployers : Z;
  totalSeekers : Z;
  pendingJobs : Z;
  pendingEmployers : Z;
  activeJobs : Z }.

Definition count {A} (p : A → bool) (l : list A) : Z :=
  Z.of_nat (length (List.filter p l)).

Definition getStats (s : MemStorage) : Stats :=
  {| totalJobs := Z.of_nat (length (jobs s));
     totalApplications := Z.of_nat (length (applications s));
     totalEmployers :=
       count (fun u => UserRole_eqb (user_role u) employer) (JsMap.values (users s));
     totalSeekers :=
       count (fun u => UserRole_eqb (user_role u) seeker) (JsMap.values (users s));
     pendingJobs :=
       count (fun j => JobStatus_eqb (job_status j) job_pending) (JsMap.values (jobs s));
     pendingEmployers :=
       count (fun c => CompanyStatus_eqb (company_status c) company_pending)
         (JsMap.values (companies s));
     activeJobs :=
       count (fun j => JobStatus_eqb (job_status j) job_approved) (JsMap.values (jobs s)) |}.

(** *** The remaining Express handlers
    A request body is taken after its zod schema has accepted it. *)

(** The body of [POST /api/companies], as [companySchema] returns it. *)
Record CompanyBody := {
  cb_name : string;
  cb_website : option string;
  cb_instituteType : string;
  cb_hrEmail : string;
  cb_phone : option string;
  cb_address : string }.

(** [POST /api/companies] *)
Definition post_companies (user : option UserPayload) (validatedData : CompanyBody)
    (id : string) (now : Z) (s : MemStorage) : Response Company * MemStorage :=
  guard user true None (fun u =>
    let '(company, s1) :=
      createCompany
        {| ic_name := cb_name validatedData; ic_website := cb_website validatedData;
           ic_instituteType := cb_instituteType validatedData;
           ic_hrEmail := cb_hrEmail validatedData; ic_logoPath := None;
           ic_address := cb_address validatedData; ic_phone := cb_phone validatedData;
           ic_proofDocs := []; ic_ownerUid := uid u |} id now s in
    (Json company, s1)) s.

(** [GET /api/companies/me] *)
Definition get_companies_me (user : option UserPayload) (s : MemStorage)
    : Response (option Company) * MemStorage :=
  guard user true None (fun u => (Json (getCompanyByOwner (uid u) s), s)) s.

(** The body of [PUT /api/companies/:id], as [companySchema.partial()]
    returns it: the keys that are present. *)
Record CompanyPatch := {
  cp_name : option string;
  cp_website : option string;
  cp_instituteType : option string;
  cp_hrEmail : option string;
  cp_phone : option string;
  cp_address : option string }.

(** The override [{ ...company, ...patch }]. *)
Definition patch_company (p : CompanyPatch) : Partial Company := fun c =>
  let ins := company_ins c in
  {| company_id := company_id c;
     company_ins :=
       {| ic_name := default (ic_name ins) (cp_name p);
          ic_website :=
            match cp_website p with Some w => Some w | None => ic_website ins end;
          ic_instituteType := default (ic_instituteType ins) (cp_instituteType p);
          ic_hrEmail := default (ic_hrEmail ins) (cp_hrEmail p);
          ic_logoPath := ic_logoPath ins;
          ic_address := default (ic_address ins) (cp_address p);
          ic_phone := match cp_phone p with Some w => Some w | None => ic_phone ins end;
          ic_proofDocs := ic_proofDocs ins;
          ic_ownerUid := ic_ownerUid ins |};
     company_status := company_status c;
     company_createdAt := company_createdAt c;
     company_updatedAt := company_updatedAt c |}.

(** The keys of the body kept for an approved company:
    [allowedFields = ['phone', 'address']]. *)
Definition allowed_fields (p : CompanyPatch) : CompanyPatch :=
  {| cp_name := None; cp_website := None; cp_instituteType := None;
     cp_hrEmail := None; cp_phone := cp_phone p; cp_address := cp_address p |}.

(** [PUT /api/companies/:id] *)
Definition put_company (user : option UserPayload) (companyId_ : string)
    (validatedData : CompanyPatch) (now : Z) (s : MemStorage)
    : Response unit * MemStorage :=
  guard user true None (fun u =>
    match getCompany companyId_ s with
    | None => (Failure 403 "Not authorized", s)
    | Some company =>
        if negb (String.eqb (ic_ownerUid (company_ins company)) (uid u))
        then (Failure 403 "Not authorized", s)
        else if CompanyStatus_eqb (company_status company) company_approved
        then
          let '(_, s1) :=
            updateCompany companyId_ (patch_company (allowed_fields validatedData)) now s in
          (Json tt, s1)
        else
          let '(_, s1) := updateCompany companyId_ (patch_company validatedData) now s in
          (Json tt, s1)
    end) s.

(** [GET /api/admin/companies/pending], [GET /api/admin/jobs/pending] *)
Definition get_pending_companies (user : option UserPayload) (s : MemStorage)
    : Response (list Company) * MemStorage :=
  guard user true (Some ["admin"]) (fun _ => (Json (getPendingCompanies s), s)) s.

Definition get_pending_jobs (user : option UserPayload) (s : MemStorage)
    : Response (list Job) * MemStorage :=
  guard user true (Some ["admin"]) (fun _ => (Json (getPendingJobs s), s)) s.

(** [GET /api/jobs/featured]; [limit] is the result of [parseInt]. *)
Definition get_featured (limit : option Z) (s : MemStorage) : Response (list Job) :=
  Json (getFeaturedJobs (Some (Z.min (num_or limit 6) 20)) s).

(** [GET /api/applications/me] *)
Definition get_applications_me (user : option UserPayload) (s : MemStorage)
    : Response (list Application) * MemStorage :=
  guard user true (Some ["seeker"]) (fun u => (Json (getApplicationsByUser (uid u) s), s)) s.

(** [GET /api/stats] *)
Definition get_stats (s : MemStorage) : Response Stats := Json (getStats s).

(** [POST /api/jobs].  The body as [jobSchema.parse] returns it;
    [jb_lastDate] is [new Date(str)], which the schema does not check. *)
Record JobBody := {
  jb_title : string;
  jb_department : string;
  jb_level : string;
  jb_instituteType : string;
  jb_employmentType : string;
  jb_location : Location;
  jb_minSalary : option Z;
  jb_maxSalary : option Z;
  jb_currency : string;
  jb_qualifications : list string;
  jb_skills : list string;
  jb_responsibilities : list string;
  jb_description : string;
  jb_requirements : option string;
  jb_lastDate : JsDate;
  jb_companyId : string }.

(** [{ ...validatedData, posterUid: req.user.uid, status: 'pending' }];
    [createJob] sets the status itself. *)
Definition job_of_body (b : JobBody) (posterUid_ : string) : InsertJob :=
  {| title := jb_title b; department := jb_department b; level := jb_level b;
     instituteType := jb_instituteType b; employmentType := jb_employmentType b;
     location := jb_location b;
     minSalary := jb_minSalary b; maxSalary := jb_maxSalary b;
     currency := jb_currency b;
     qualifications := jb_qualifications b; skills := jb_skills b;
     responsibilities := jb_responsibilities b;
     description := jb_description b; requirements := jb_requirements b;
     lastDate := jb_lastDate b;
     applyMode := None; applyUrl := None;
     companyId := jb_companyId b; posterUid := posterUid_ |}.

Definition post_jobs (user : option UserPayload) (validatedData : JobBody)
    (id : string) (now : Z) (s : MemStorage) : Response Job * MemStorage :=
  guard user true (Some ["employer"]) (fun u =>
    match getCompany (jb_companyId validatedData) s with
    | None => (Failure 403 "Company must be approved to post jobs", s)
    | Some company =>
        if negb (CompanyStatus_eqb (company_status company) company_approved)
           || negb (String.eqb (ic_ownerUid (company_ins company)) (uid u))
        then (Failure 403 "Company must be approved to post jobs", s)
        else
          let '(job, s1) := createJob (job_of_body validatedData (uid u)) id now s in
          (Json job, s1)
    end) s.

(** *** Sequences of requests
    The requests whose handlers write to the store, each with the ids
    that [randomUUID()] hands out while it is served.  A handler runs
    from its first statement to its answer without waiting for anything
    outside the process, so requests are served one after another. *)
Inductive Request :=
  | PostCompany (user : option UserPayload) (body : CompanyBody) (id : string)
  | PutCompany (user : option UserPayload) (companyId_ : string) (body : CompanyPatch)
  | PatchCompanyStatus (user : option UserPayload) (companyId_ status logId : string)
  | PostJob (user : option UserPayload) (body : JobBody) (id : string)
  | GetJob (id : string)
  | PatchJobStatus (user : option UserPayload) (jobId status logId : string)
  | PostApplication (user : option UserPayload) (body : ApplicationBody) (id : string).

Definition handle (r : Request) (now : Z) (s : MemStorage) : MemStorage :=
  match r with
  | PostCompany user body id => snd (post_companies user body id now s)
  | PutCompany user companyId_ body => snd (put_company user companyId_ body now s)
  | PatchCompanyStatus user companyId_ status logId =>
      snd (patch_company_status user companyId_ status logId now s)
  | PostJob user body id => snd (post_jobs user body id now s)
  | GetJob id => snd (get_job id now s)
  | PatchJobStatus user jobId status logId =>
      snd (patch_job_status user jobId status logId now s)
  | PostApplication user body id => snd (post_applications user body id now s)
  end.

(** [randomUUID()] does not repeat: the id of a new record is not the id
    of a stored record of its kind. *)
Definition fresh_id (r : Request) (s : MemStorage) : Prop :=
  match r with
  | PostCompany _ _ id => getCompany id s = None
  | PostJob _ _ id => getJob id s = None
  | PostApplication _ _ id => getApplication id s = None
  | _ => True
  end.

(** The requests [rs], each with the time at which it is served. *)
Fixpoint serve (rs : list (Request * Z)) (s : MemStorage) : MemStorage :=
  match rs with
  | [] => s
  | (r, now) :: rs' => serve rs' (handle r now s)
  end.

Fixpoint fresh_ids (rs : list (Request * Z)) (s : MemStorage) : Prop :=
  match rs with
  | [] => True
  | (r, now) :: rs' => fresh_id r s ∧ fresh_ids rs' (handle r now s)
  end.

End Mem.

(** ** The Cloud Functions over Firestore *)

Module Fn.

(** *** Documents *)

Record UserDoc := {
  u_displayName : string;
  u_email : string;
  u_role : UserRole;
  u_emailVerified : bool;
  u_createdAt : Z;
  u_updatedAt : Z }.

(** The output of [companySchema.parse]. *)
Record CompanyData := {
  cd_name : string;
  cd_website : option string;
  cd_instituteType : string;
  cd_hrEmail : string;
  cd_phone : option string;
  cd_address : string;
  cd_proofDocs : list string }.

Record CompanyDoc := {
  c_data : CompanyData;
  c_ownerUid : string;
  c_status : CompanyStatus;
  c_createdAt : Z;
  c_updatedAt : Z }.

(** The output of [jobSchema.parse]. *)
Record JobData := {
  title : string;
  department : string;
  level : string;
  instituteType : string;
  employmentType : string;
  location : Location;
  minSalary : option Z;
  maxSalary : option Z;
  currency : string;
  qualifications : list string;
  skills : list string;
  responsibilities : list string;
  description : string;
  requirements : option string;
  lastDate : Z;
  companyId : string }.

Record JobDoc := {
  j_data : JobData;
  j_posterUid : string;
  j_status : JobStatus;
  j_approvedBy : option string;
  j_approvedAt : option Z;
  j_viewCount : Z;
  j_applicationCount : Z;
  j_createdAt : Z;
  j_updatedAt : Z }.

(** An application document; its [status] is the string the caller of
    [updateApplicationStatus] sent, once validated. *)
Record AppDoc := {
  a_jobId : string;
  a_applicantUid : string;
  a_resumePath : string;
  a_coverLetter : string;
  a_status : string;
  a_notes : option string;
  a_dedupeKey : string;
  a_createdAt : Z;
  a_updatedAt : Z }.

Record AuditDoc := {
  l_actorUid : string;
  l_action : string;
  l_targetType : string;
  l_targetId : string;
  l_metadata : list (string * string);
  l_timestamp : Z }.

(** The database and the Auth service.  [auditLogs] is append-only and
    kept in insertion order (the generated ids of its documents are not
    represented).  [authClaims] maps each Auth account to its custom
    [role] claim. *)
Record Store := {
  users : gmap string UserDoc;
  companies : gmap string CompanyDoc;
  jobs : gmap string JobDoc;
  applications : gmap string AppDoc;
  auditLogs : list AuditDoc;
  authClaims : gmap string (option string) }.

Definition empty : Store :=
  {| users := ∅; companies := ∅; jobs := ∅; applications := ∅;
     auditLogs := []; authClaims := ∅ |}.

Definition set_users (s : Store) (m : gmap string UserDoc) : Store :=
  {| users := m; companies := companies s; jobs := jobs s;
     applications := applications s; auditLogs := auditLogs s;
     authClaims := authClaims s |}.
Definition set_companies (s : Store) (m : gmap string CompanyDoc) : Store :=
  {| users := users s; companies := m; jobs := jobs s;
     applications := applications s; auditLogs := auditLogs s;
     authClaims := authClaims s |}.
Definition set_jobs (s : Store) (m : gmap string JobDoc) : Store :=
  {| users := users s; companies := companies s; jobs := m;
     applications := applications s; auditLogs := auditLogs s;
     authClaims := authClaims s |}.
Definition set_applications (s : Store) (m : gmap string AppDoc) : Store :=
  {| users := users s; companies := companies s; jobs := jobs s;
     applications := m; auditLogs := auditLogs s;
     authClaims := authClaims s |}.
Definition set_auditLogs (s : Store) (l : list AuditDoc) : Store :=
  {| users := users s; companies := companies s; jobs := jobs s;
     applications := applications s; auditLogs := l;
     authClaims := authClaims s |}.
Definition set_authClaims (s : Store) (m : gmap string (option string)) : Store :=
  {| users := users s; companies := companies s; jobs := jobs s;
     applications := applications s; auditLogs := auditLogs s;
     authClaims := m |}.

(** *** Exceptions and the store monad *)

(** What a handler body can throw: an [HttpsError] of its own, a
    rejection of a Firestore or Auth call, or a [TypeError] raised by
    reading a property of [undefined]. *)
Inductive Exn :=
  | HttpsError (code : ErrorCode)
  | FirestoreError (code : ErrorCode)
  | AuthError
  | TypeError
  | ZodError
  | JsError (message : string).

Inductive Try (A : Type) :=
  | Return (a : A)
  | Throw (e : Exn).
Arguments Return {A} a.
Arguments Throw {A} e.

(** A computation reads and writes the store; writes made before a throw
    stay. *)
Definition M (A : Type) : Type := Store → Try A * Store.

Definition ret {A} (a : A) : M A := fun s => (Return a, s).
Definition throw {A} (e : Exn) : M A := fun s => (Throw e, s).
Definition bind {A B} (m : M A) (k : A → M B) : M B := fun s =>
  match m s with
  | (Return a, s1) => k a s1
  | (Throw e, s1) => (Throw e, s1)
  end.

Notation "'let*' x ':=' m 'in' k" := (bind m (fun x => k))
  (at level 10, x pattern, m at level 100, k at level 200).
Notation "m ';;' k" := (bind m (fun _ => k))
  (at level 100, k at level 200, right associativity).

Definition read {A} (f : Store → A) : M A := fun s => (Return (f s), s).
Definition when_ (b : bool) (e : Exn) : M unit :=
  if b then throw e else ret tt.

(** [try { body } catch (error) { throw new HttpsError('internal', ...) }]:
    whatever the body throws, the caller sees [internal]. *)
Definition try_catch_internal {A} (body : M A) (s : Store) : Result A * Store :=
  match body s with
  | (Return a, s1) => (Ok a, s1)
  | (Throw _, s1) => (Err internal, s1)
  end.

(** Firestore: [doc(id).update(...)] rejects with [NOT_FOUND] when the
    document is missing; [add(...)] creates a document under a generated
    id [nid] and rejects if that id is taken. *)
Definition update_company (id : string) (f : CompanyDoc → CompanyDoc) : M unit := fun s =>
  match companies s !! id with
  | Some d => (Return tt, set_companies s (<[id := f d]> (companies s)))
  | None => (Throw (FirestoreError not_found), s)
  end.

Definition update_user (id : string) (f : UserDoc → UserDoc) : M unit := fun s =>
  match users s !! id with
  | Some d => (Return tt, set_users s (<[id := f d]> (users s)))
  | None => (Throw (FirestoreError not_found), s)
  end.

Definition update_job (id : string) (f : JobDoc → JobDoc) : M unit := fun s =>
  match jobs s !! id with
  | Some d => (Return tt, set_jobs s (<[id := f d]> (jobs s)))
  | None => (Throw (FirestoreError not_found), s)
  end.

Definition update_application (id : string) (f : AppDoc → AppDoc) : M unit := fun s =>
  match applications s !! id with
  | Some d => (Return tt, set_applications s (<[id := f d]> (applications s)))
  | None => (Throw (FirestoreError not_found), s)
  end.

Definition add_company (nid : string) (d : CompanyDoc) : M string := fun s =>
  match companies s !! nid with
  | None => (Return nid, set_companies s (<[nid := d]> (companies s)))
  | Some _ => (Throw (FirestoreError already_exists), s)
  end.

Definition add_job (nid : string) (d : JobDoc) : M string := fun s =>
  match jobs s !! nid with
  | None => (Return nid, set_jobs s (<[nid := d]> (jobs s)))
  | Some _ => (Throw (FirestoreError already_exists), s)
  end.

Definition add_application (nid : string) (d : AppDoc) : M string := fun s =>
  match applications s !! nid with
  | None => (Return nid, set_applications s (<[nid := d]> (applications s)))
  | Some _ => (Throw (FirestoreError already_exists), s)
  end.

(** [auth.setCustomUserClaims(uid, { role })] rejects for an unknown
    account. *)
Definition setCustomUserClaims (uid role : string) : M unit := fun s =>
  match authClaims s !! uid with
  | Some _ => (Return tt, set_authClaims s (<[uid := Some role]> (authClaims s)))
  | None => (Throw AuthError, s)
  end.

Definition createAuditLog (actorUid action targetType targetId : string)
    (metadata : list (string * string)) (now : Z) : M unit := fun s =>
  (Return tt,
   set_auditLogs s
     (auditLogs s ++
        [{| l_actorUid := actorUid; l_action := action;
            l_targetType := targetType; l_targetId := targetId;
            l_metadata := metadata; l_timestamp := now |}])).

(** *** The caller *)

(** [context.auth]: the uid and the token claims the functions read. *)
Record Auth := {
  uid : string;
  email_verified : bool;
  role : option string }.

Definition has_role (a : Auth) (r : string) : bool :=
  match role a with
  | Some r' => String.eqb r' r
  | None => false
  end.

(** [collection(c).doc(id)] throws on an empty path; [get()] then reads
    the document, [None] when it does not exist. *)
Definition doc_get {D} (coll : Store → gmap string D) (id : string) : M (option D) :=
  if String.eqb id "" then throw (FirestoreError invalid_argument)
  else read (fun s => coll s !! id).

(** *** 1. [onAuthUserCreate] *)

Definition onAuthUserCreate (uid : string) (displayName : option string)
    (email : string) (emailVerified : bool) (now : Z) (s : Store) : Store :=
  if String.eqb uid "" then s
  else
    set_users s
      (<[uid := {| u_displayName := str_or displayName "Anonymous User";
                   u_email := email; u_role := seeker;
                   u_emailVerified := emailVerified;
                   u_createdAt := now; u_updatedAt := now |}]> (users s)).

(** *** 2. [requestEmployerUpgrade]
    [parsed] is the outcome of [companySchema.parse(data)], [None] when
    it throws. *)

Definition owns_company (uid : string) (s : Store) : bool :=
  existsb (fun kv => String.eqb (c_ownerUid (snd kv)) uid)
    (map_to_list (companies s)).

Definition requestEmployerUpgrade_body (a : Auth) (parsed : option CompanyData)
    (nid : string) (now : Z) : M string :=
  match parsed with
  | None => throw ZodError
  | Some validatedData =>
      let* existing := read (owns_company (uid a)) in
      when_ existing (HttpsError already_exists) ;;
      let* companyId :=
        add_company nid
          {| c_data := validatedData; c_ownerUid := uid a;
             c_status := company_pending;
             c_createdAt := now; c_updatedAt := now |} in
      createAuditLog (uid a) "company_created" "company" companyId [] now ;;
      ret companyId
  end.

Definition requestEmployerUpgrade (ctx : option Auth) (parsed : option CompanyData)
    (nid : string) (now : Z) (s : Store) : Result string * Store :=
  match ctx with
  | Some a =>
      if email_verified a
      then try_catch_internal (requestEmployerUpgrade_body a parsed nid now) s
      else (Err unauthenticated, s)
  | None => (Err unauthenticated, s)
  end.

(** *** 3. [approveEmployerUpgrade]
    A field of [data] that is missing reads as the empty string: both
    are falsy. *)

Definition approve_company (now : Z) (d : CompanyDoc) : CompanyDoc :=
  {| c_data := c_data d; c_ownerUid := c_ownerUid d;
     c_status := company_approved;
     c_createdAt := c_createdAt d; c_updatedAt := now |}.

Definition make_employer (now : Z) (d : UserDoc) : UserDoc :=
  {| u_displayName := u_displayName d; u_email := u_email d;
     u_role := employer; u_emailVerified := u_emailVerified d;
     u_createdAt := u_createdAt d; u_updatedAt := now |}.

Definition approveEmployerUpgrade_body (a : Auth) (uid_ companyId_ : string)
    (now : Z) : M unit :=
  update_company companyId_ (approve_company now) ;;
  setCustomUserClaims uid_ "employer" ;;
  update_user uid_ (make_employer now) ;;
  createAuditLog (uid a) "company_approved" "company" companyId_ [("uid", uid_)] now.

Definition approveEmployerUpgrade (ctx : option Auth) (uid_ companyId_ : string)
    (now : Z) (s : Store) : Result unit * Store :=
  match ctx with
  | Some a =>
      if has_role a "admin" then
        if String.eqb uid_ "" || String.eqb companyId_ ""
        then (Err invalid_argument, s)
        else try_catch_internal (approveEmployerUpgrade_body a uid_ companyId_ now) s
      else (Err permission_denied, s)
  | None => (Err permission_denied, s)
  end.

(** *** 4. [createJob]
    [parsed] is the outcome of [jobSchema.parse(data)]. *)

(** [jobData]: the validated fields and the fields the function sets. *)
Definition new_job (a : Auth) (validatedData : JobData) (now : Z) : JobDoc :=
  {| j_data := validatedData; j_posterUid := uid a;
     j_status := job_pending;
     j_approvedBy := None; j_approvedAt := None;
     j_viewCount := 0; j_applicationCount := 0;
     j_createdAt := now; j_updatedAt := now |}.

Definition createJob_body (a : Auth) (parsed : option JobData) (nid : string)
    (now : Z) : M string :=
  match parsed with
  | None => throw ZodError
  | Some validatedData =>
      let* companyDoc := doc_get companies (companyId validatedData) in
      match companyDoc with
      | None => throw (HttpsError not_found)
      | Some companyData =>
          when_ (negb (String.eqb (c_ownerUid companyData) (uid a)))
            (HttpsError permission_denied) ;;
          when_ (negb (CompanyStatus_eqb (c_status companyData) company_approved))
            (HttpsError permission_denied) ;;
          let* jobId := add_job nid (new_job a validatedData now) in
          createAuditLog (uid a) "job_created" "job" jobId [] now ;;
          ret jobId
      end
  end.

Definition createJob (ctx : option Auth) (parsed : option JobData) (nid : string)
    (now : Z) (s : Store) : Result string * Store :=
  match ctx with
  | Some a =>
      if email_verified a && has_role a "employer"
      then try_catch_internal (createJob_body a parsed nid now) s
      else (Err permission_denied, s)
  | None => (Err permission_denied, s)
  end.

(** *** 5. [approveJob] *)

Definition approve_job (by_ : string) (now : Z) (d : JobDoc) : JobDoc :=
  {| j_data := j_data d; j_posterUid := j_posterUid d;
     j_status := job_approved;
     j_approvedBy := Some by_; j_approvedAt := Some now;
     j_viewCount := j_viewCount d;
     j_applicationCount := j_applicationCount d;
     j_createdAt := j_createdAt d; j_updatedAt := now |}.

Definition approveJob_body (a : Auth) (jobId : string) (now : Z) : M unit :=
  update_job jobId (approve_job (uid a) now) ;;
  let* jobDoc := doc_get jobs jobId in
  match jobDoc with
  | None => throw TypeError
  | Some jobData =>
      doc_get companies (companyId (j_data jobData)) ;;
      doc_get users (j_posterUid jobData) ;;
      createAuditLog (uid a) "job_approved" "job" jobId [] now
  end.

Definition approveJob (ctx : option Auth) (jobId : string) (now : Z)
    (s : Store) : Result unit * Store :=
  match ctx with
  | Some a =>
      if has_role a "admin" then
        if String.eqb jobId "" then (Err invalid_argument, s)
        else try_catch_internal (approveJob_body a jobId now) s
      else (Err permission_denied, s)
  | None => (Err permission_denied, s)
  end.

(** *** 6. [applyToJob] *)

(** [`${jobId}_${uid}`] *)
Definition dedupeKey_of (jobId uid_ : string) : string :=
  jobId +:+ "_" +:+ uid_.

(** [where('dedupeKey', '==', dedupeKey).limit(1).get()] is not empty. *)
Definition has_dedupeKey (dedupeKey : string) (s : Store) : bool :=
  existsb (fun kv => String.eqb (a_dedupeKey (snd kv)) dedupeKey)
    (map_to_list (applications s)).

(** [applicationCount: FieldValue.increment(1)] *)
Definition increment_applicationCount (d : JobDoc) : JobDoc :=
  {| j_data := j_data d; j_posterUid := j_posterUid d;
     j_status := j_status d;
     j_approvedBy := j_approvedBy d; j_approvedAt := j_approvedAt d;
     j_viewCount := j_viewCount d;
     j_applicationCount := j_applicationCount d + 1;
     j_createdAt := j_createdAt d; j_updatedAt := j_updatedAt d |}.

(** [applicationData] *)
Definition new_application (a : Auth)
    (jobId resumePath coverLetter dedupeKey : string) (now : Z) : AppDoc :=
  {| a_jobId := jobId; a_applicantUid := uid a;
     a_resumePath := resumePath; a_coverLetter := coverLetter;
     a_status := "submitted"; a_notes := None;
     a_dedupeKey := dedupeKey;
     a_createdAt := now; a_updatedAt := now |}.

Definition applyToJob_body (a : Auth) (jobId resumePath coverLetter nid : string)
    (now : Z) : M string :=
  let* jobDoc := doc_get jobs jobId in
  match jobDoc with
  | None => throw (HttpsError not_found)
  | Some jobData =>
      when_ (negb (JobStatus_eqb (j_status jobData) job_approved))
        (HttpsError permission_denied) ;;
      when_ (lastDate (j_data jobData) <? now) (HttpsError permission_denied) ;;
      let dedupeKey := dedupeKey_of jobId (uid a) in
      let* existing := read (has_dedupeKey dedupeKey) in
      when_ existing (HttpsError already_exists) ;;
      let* applicationId :=
        add_application nid
          (new_application a jobId resumePath coverLetter dedupeKey now) in
      update_job jobId increment_applicationCount ;;
      let* applicantDoc := doc_get users (uid a) in
      let* companyDoc := doc_get companies (companyId (j_data jobData)) in
      match applicantDoc, companyDoc with
      | Some _, Some _ =>
          createAuditLog (uid a) "application_submitted" "application"
            applicationId [("jobId", jobId)] now ;;
          ret applicationId
      | _, _ => throw TypeError
      end
  end.

Definition applyToJob (ctx : option Auth) (jobId resumePath coverLetter nid : string)
    (now : Z) (s : Store) : Result string * Store :=
  match ctx with
  | Some a =>
      if email_verified a && has_role a "seeker" then
        if String.eqb jobId "" || String.eqb resumePath ""
        then (Err invalid_argument, s)
        else try_catch_internal (applyToJob_body a jobId resumePath coverLetter nid now) s
      else (Err permission_denied, s)
  | None => (Err permission_denied, s)
  end.

(** *** 8. [expireJobs]
    The batch touches the approved jobs whose deadline is before [now]. *)

Definition is_overdue (now : Z) (d : JobDoc) : bool :=
  JobStatus_eqb (j_status d) job_approved && (lastDate (j_data d) <? now).

Definition expire_job (now : Z) (d : JobDoc) : JobDoc :=
  {| j_data := j_data d; j_posterUid := j_posterUid d;
     j_status := job_expired;
     j_approvedBy := j_approvedBy d; j_approvedAt := j_approvedAt d;
     j_viewCount := j_viewCount d;
     j_applicationCount := j_applicationCount d;
     j_createdAt := j_createdAt d; j_updatedAt := now |}.

Definition expireJobs (now : Z) (s : Store) : Store :=
  set_jobs s
    ((fun d => if is_overdue now d then expire_job now d else d) <$> jobs s).

(** *** 9. [updateApplicationStatus] *)

Definition validStatuses : list string :=
  ["reviewed"; "shortlisted"; "rejected"; "offered"].

Definition set_app_status (status notes : string) (now : Z) (d : AppDoc) : AppDoc :=
  {| a_jobId := a_jobId d; a_applicantUid := a_applicantUid d;
     a_resumePath := a_resumePath d; a_coverLetter := a_coverLetter d;
     a_status := status; a_notes := Some notes;
     a_dedupeKey := a_dedupeKey d;
     a_createdAt := a_createdAt d; a_updatedAt := now |}.

Definition updateApplicationStatus_body (a : Auth)
    (applicationId status notes : string) (now : Z) : M unit :=
  let* applicationDoc := doc_get applications applicationId in
  match applicationDoc with
  | None => throw (HttpsError not_found)
  | Some applicationData =>
      (if has_role a "admin" then ret tt
       else if has_role a "employer" then
         let* jobDoc := doc_get jobs (a_jobId applicationData) in
         match jobDoc with
         | Some jobData =>
             when_ (negb (String.eqb (j_posterUid jobData) (uid a)))
               (HttpsError permission_denied)
         | None => throw (HttpsError permission_denied)
         end
       else throw (HttpsError permission_denied)) ;;
      update_application applicationId (set_app_status status notes now) ;;
      let* jobDoc := doc_get jobs (a_jobId applicationData) in
      let* applicantDoc := doc_get users (a_applicantUid applicationData) in
      (match applicantDoc, jobDoc with
       | Some applicantData, None =>
           when_ (negb (String.eqb (u_email applicantData) "")) TypeError
       | _, _ => ret tt
       end) ;;
      createAuditLog (uid a) "application_status_changed" "application"
        applicationId
        [("status", status); ("previousStatus", a_status applicationData)] now
  end.

Definition updateApplicationStatus (ctx : option Auth)
    (applicationId status notes : string) (now : Z) (s : Store)
    : Result unit * Store :=
  match ctx with
  | Some a =>
      if email_verified a then
        if String.eqb applicationId "" || String.eqb status ""
           || negb (existsb (String.eqb status) validStatuses)
        then (Err invalid_argument, s)
        else try_catch_internal
               (updateApplicationStatus_body a applicationId status notes now) s
      else (Err unauthenticated, s)
  | None => (Err unauthenticated, s)
  end.

(** *** The admin service [deleteUser]
    One batch deletes the profile, the user's applications, companies
    and jobs; then the account is removed from Auth. *)

Definition deleteUser (uid_ : string) (s : Store) : Try unit * Store :=
  if String.eqb uid_ "" then (Throw (JsError "Failed to delete user"), s)
  else
    let s1 :=
      {| users := delete uid_ (users s);
         companies :=
           filter (fun kv => c_ownerUid (snd kv) ≠ uid_) (companies s);
         jobs := filter (fun kv => j_posterUid (snd kv) ≠ uid_) (jobs s);
         applications :=
           filter (fun kv => a_applicantUid (snd kv) ≠ uid_) (applications s);
         auditLogs := auditLogs s;
         authClaims := authClaims s |} in
    match authClaims s !! uid_ with
    | Some _ => (Return tt, set_authClaims s1 (delete uid_ (authClaims s)))
    | None => (Throw (JsError "Failed to delete user"), s1)
    end.

(** *** 7. [signUrlForResume]
    The answer is the request handed to [file.getSignedUrl]: the path of
    the file and the time at which the URL expires. *)

Record SignedUrl := {
  su_path : string;
  su_expires : Z }.

Definition signUrlForResume_body (a : Auth) (applicationId : string) (now : Z)
    : M SignedUrl :=
  let* applicationDoc := doc_get applications applicationId in
  match applicationDoc with
  | None => throw (HttpsError not_found)
  | Some applicationData =>
      (if has_role a "admin" then ret tt
       else if has_role a "employer" then
         let* jobDoc := doc_get jobs (a_jobId applicationData) in
         match jobDoc with
         | Some jobData =>
             when_ (negb (String.eqb (j_posterUid jobData) (uid a)))
               (HttpsError permission_denied)
         | None => throw (HttpsError permission_denied)
         end
       else throw (HttpsError permission_denied)) ;;
      ret {| su_path := a_resumePath applicationData;
             su_expires := now + 3600 * 1000 |}
  end.

Definition signUrlForResume (ctx : option Auth) (applicationId : string) (now : Z)
    (s : Store) : Result SignedUrl * Store :=
  match ctx with
  | Some a =>
      if email_verified a then
        if String.eqb applicationId "" then (Err invalid_argument, s)
        else try_catch_internal (signUrlForResume_body a applicationId now) s
      else (Err unauthenticated, s)
  | None => (Err unauthenticated, s)
  end.

(** *** The admin service: profiles and roles *)

(** [setUserRole]: the custom claim of an Auth account. *)
Definition setUserRole (uid_ : string) (role_ : UserRole) (s : Store) : Try unit * Store :=
  match setCustomUserClaims uid_
          (match role_ with
           | seeker => "seeker" | employer => "employer" | admin => "admin"
           end) s with
  | (Return _, s1) => (Return tt, s1)
  | (Throw _, s1) => (Throw (JsError "Failed to set user role"), s1)
  end.

(** [createUserProfile]: [set] creates the profile or replaces it. *)
Definition createUserProfile (uid_ displayName email : string) (role_ : UserRole)
    (emailVerified : bool) (now : Z) (s : Store) : Try unit * Store :=
  if String.eqb uid_ "" then (Throw (JsError "Failed to create user profile"), s)
  else
    (Return tt,
     set_users s
       (<[uid_ := {| u_displayName := displayName; u_email := email;
                     u_role := role_; u_emailVerified := emailVerified;
                     u_createdAt := now; u_updatedAt := now |}]> (users s))).

(** [getUserProfile] *)
Definition getUserProfile (uid_ : string) (s : Store) : Try (option (string * UserDoc)) :=
  if String.eqb uid_ "" then Throw (JsError "Failed to get user profile")
  else
    match users s !! uid_ with
    | Some d => Return (Some (uid_, d))
    | None => Return None
    end.

(** *** Calls that overlap
    Every [await] hands control back to the runtime and no function uses
    a transaction, so between the query of a check and the write that
    follows it another call can run.  The two functions that look for an
    existing document before they add one are split at that point: the
    part up to the query, and the part from the [add] on.  The runs of
    the back end below let any operation, and the writes of other calls,
    come between the two parts. *)

Definition requestEmployerUpgrade_check (a : Auth) (parsed : option CompanyData)
    : M CompanyData :=
  match parsed with
  | None => throw ZodError
  | Some validatedData =>
      let* existing := read (owns_company (uid a)) in
      when_ existing (HttpsError already_exists) ;;
      ret validatedData
  end.

Definition requestEmployerUpgrade_write (a : Auth) (nid : string) (now : Z)
    (validatedData : CompanyData) : M string :=
  let* companyId :=
    add_company nid
      {| c_data := validatedData; c_ownerUid := uid a;
         c_status := company_pending;
         c_createdAt := now; c_updatedAt := now |} in
  createAuditLog (uid a) "company_created" "company" companyId [] now ;;
  ret companyId.

Definition applyToJob_check (a : Auth) (jobId : string) (now : Z) : M JobDoc :=
  let* jobDoc := doc_get jobs jobId in
  match jobDoc with
  | None => throw (HttpsError not_found)
  | Some jobData =>
      when_ (negb (JobStatus_eqb (j_status jobData) job_approved))
        (HttpsError permission_denied) ;;
      when_ (lastDate (j_data jobData) <? now) (HttpsError permission_denied) ;;
      let* existing := read (has_dedupeKey (dedupeKey_of jobId (uid a))) in
      when_ existing (HttpsError already_exists) ;;
      ret jobData
  end.

Definition applyToJob_write (a : Auth) (jobId resumePath coverLetter nid : string)
    (now : Z) (jobData : JobDoc) : M string :=
  let dedupeKey := dedupeKey_of jobId (uid a) in
  let* applicationId :=
    add_application nid
      (new_application a jobId resumePath coverLetter dedupeKey now) in
  update_job jobId increment_applicationCount ;;
  let* applicantDoc := doc_get users (uid a) in
  let* companyDoc := doc_get companies (companyId (j_data jobData)) in
  match applicantDoc, companyDoc with
  | Some _, Some _ =>
      createAuditLog (uid a) "application_submitted" "application"
        applicationId [("jobId", jobId)] now ;;
      ret applicationId
  | _, _ => throw TypeError
  end.

(** Two calls of which the second starts before the first has written:
    both checks run, then both writes.  A call whose check throws stops
    there. *)
Definition overlapped {A B C D} (check1 : M A) (write1 : A → M B)
    (check2 : M C) (write2 : C → M D) (s : Store) : Try B * Try D * Store :=
  match check1 s with
  | (Return x1, s1) =>
      match check2 s1 with
      | (Return x2, s2) =>
          let '(r1, s3) := write1 x1 s2 in
          let '(r2, s4) := write2 x2 s3 in
          (r1, r2, s4)
      | (Throw e, s2) =>
          let '(r1, s3) := write1 x1 s2 in
          (r1, Throw e, s3)
      end
  | (Throw e, s1) =>
      let '(r2, s2) := bind check2 write2 s1 in
      (Throw e, r2, s2)
  end.

(** *** Runs of the back end *)

(** The Auth service registers an account, which fires
    [onAuthUserCreate]. *)
Definition auth_createUser (uid_ : string) (s : Store) : Store :=
  match authClaims s !! uid_ with
  | Some _ => s
  | None => set_authClaims s (<[uid_ := None]> (authClaims s))
  end.

Inductive Op :=
  | SignUp (uid_ : string) (displayName : option string) (email : string)
      (emailVerified : bool)
  | RequestEmployerUpgrade (ctx : option Auth) (parsed : option CompanyData)
      (nid : string)
  | ApproveEmployerUpgrade (ctx : option Auth) (uid_ companyId_ : string)
  | CreateJob (ctx : option Auth) (parsed : option JobData) (nid : string)
  | ApproveJob (ctx : option Auth) (jobId : string)
  | ApplyToJob (ctx : option Auth) (jobId resumePath coverLetter nid : string)
  | ExpireJobs
  | UpdateApplicationStatus (ctx : option Auth)
      (applicationId status notes : string)
  | DeleteUser (uid_ : string).

Definition exec (o : Op) (now : Z) (s : Store) : Store :=
  match o with
  | SignUp u dn em ev => onAuthUserCreate u dn em ev now (auth_createUser u s)
  | RequestEmployerUpgrade ctx parsed nid =>
      snd (requestEmployerUpgrade ctx parsed nid now s)
  | ApproveEmployerUpgrade ctx u c => snd (approveEmployerUpgrade ctx u c now s)
  | CreateJob ctx parsed nid => snd (createJob ctx parsed nid now s)
  | ApproveJob ctx jobId => snd (approveJob ctx jobId now s)
  | ApplyToJob ctx jobId resumePath coverLetter nid =>
      snd (applyToJob ctx jobId resumePath coverLetter nid now s)
  | ExpireJobs => expireJobs now s
  | UpdateApplicationStatus ctx applicationId status notes =>
      snd (updateApplicationStatus ctx applicationId status notes now s)
  | DeleteUser u => snd (deleteUser u s)
  end.

(** The number of application documents that reference a job. *)
Definition app_count (jobId : string) (s : Store) : nat :=
  size (filter (fun kv => a_jobId (snd kv) = jobId) (applications s)).

(** Firestore's generated ids are unique over the life of the database:
    the id handed to [createJob] names no job and is referenced by no
    application.  ([add] itself rejects an id that is taken.) *)
Definition fresh (o : Op) (s : Store) : Prop :=
  match o with
  | CreateJob _ _ nid => app_count nid s = 0%nat
  | _ => True
  end.

(** A call of [applyToJob] or [requestEmployerUpgrade] that has passed
    its checks and has not written yet, with what it goes on with: its
    arguments, the id and time of its writes, and the value its check
    returned. *)
Inductive InFlight :=
  | ApplyingToJob (a : Auth) (jobId resumePath coverLetter nid : string) (now : Z)
      (jobData : JobDoc)
  | RequestingUpgrade (a : Auth) (nid : string) (now : Z) (validatedData : CompanyData).

(** The guards of the call ahead of its [try] block. *)
Definition admitted (c : InFlight) : Prop :=
  match c with
  | ApplyingToJob a jobId resumePath _ _ _ _ =>
      email_verified a = true ∧ has_role a "seeker" = true
      ∧ jobId ≠ "" ∧ resumePath ≠ ""
  | RequestingUpgrade a _ _ _ => email_verified a = true
  end.

(** The checks of the call pass in [s]. *)
Definition passes (c : InFlight) (s : Store) : Prop :=
  match c with
  | ApplyingToJob a jobId _ _ _ now jobData =>
      applyToJob_check a jobId now s = (Return jobData, s)
  | RequestingUpgrade a _ _ validatedData =>
      requestEmployerUpgrade_check a (Some validatedData) s = (Return validatedData, s)
  end.

(** The writes of the call. *)
Definition finish (c : InFlight) (s : Store) : Store :=
  match c with
  | ApplyingToJob a jobId resumePath coverLetter nid now jobData =>
      snd (applyToJob_write a jobId resumePath coverLetter nid now jobData s)
  | RequestingUpgrade a nid now validatedData =>
      snd (requestEmployerUpgrade_write a nid now validatedData s)
  end.

(** The runs of the back end from the empty database: the store, and the
    calls in flight.  An operation runs from start to end
    ([running_step]); or a call passes its checks and waits
    ([running_check]); or a call in flight, whatever has run since its
    checks, does its writes ([running_finish]). *)
Inductive running : Store → list InFlight → Prop :=
  | running_empty : running empty []
  | running_step s cs o now :
      running s cs → fresh o s → running (exec o now s) cs
  | running_check s cs c :
      running s cs → admitted c → passes c s → running s (c :: cs)
  | running_finish s cs1 c cs2 :
      running s (cs1 ++ c :: cs2) → running (finish c s) (cs1 ++ cs2).

(** The states the back end can reach. *)
Definition reachable (s : Store) : Prop := ∃ cs, running s cs.

End Fn.

(** ** The browser-side search *)

Module Client.

(** [JobSearchFilters] after [z.infer]: [postedWithin], [sortBy], [page]
    and [limit] carry their defaults. *)
Record JobSearchFilters := {
  query : option string;
  department : option string;
  instituteType : option string;
  level : option string;
  location : option string;
  employmentType : option string;
  postedWithin : string;
  sortBy : string;
  page : Z;
  limit : Z }.

(** The constraints [searchJobs] hands to Firestore. *)
Inductive Field :=
  | f_status | f_department | f_instituteType | f_level | f_employmentType
  | f_city | f_createdAt | f_lastDate | f_maxSalary | f_minSalary.

Inductive QueryConstraint :=
  | where_eq (f : Field) (v : string)
  | where_ge (f : Field) (v : Z)
  | orderBy_asc (f : Field)
  | orderBy_desc (f : Field)
  | limit_ (n : Z).

Record PaginatedResponse := {
  items : list (string * Fn.JobDoc);
  total : Z;
  r_page : Z;
  r_limit : Z;
  hasMore : bool }.

Definition push_if (x : option string) (f : Field) (cs : list QueryConstraint)
    : list QueryConstraint :=
  match x with
  | Some v => if String.eqb v "" then cs else cs ++ [where_eq f v]
  | None => cs
  end.

Definition constraints_of (filters : JobSearchFilters) (now : Z)
    : list QueryConstraint :=
  let cs := [where_eq f_status "approved"] in
  let cs := push_if (department filters) f_department cs in
  let cs := push_if (instituteType filters) f_instituteType cs in
  let cs := push_if (level filters) f_level cs in
  let cs := push_if (employmentType filters) f_employmentType cs in
  let cs := push_if (location filters) f_city cs in
  let cs :=
    if String.eqb (postedWithin filters) "all" then cs
    else
      let daysAgo :=
        if String.eqb (postedWithin filters) "24h" then 1
        else if String.eqb (postedWithin filters) "7d" then 7
        else if String.eqb (postedWithin filters) "30d" then 30
        else 0 in
      cs ++ [where_ge f_createdAt (now - daysAgo * 24 * 60 * 60 * 1000)] in
  let cs :=
    if String.eqb (sortBy filters) "newest" then cs ++ [orderBy_desc f_createdAt]
    else if String.eqb (sortBy filters) "deadline" then cs ++ [orderBy_asc f_lastDate]
    else if String.eqb (sortBy filters) "salary_high" then cs ++ [orderBy_desc f_maxSalary]
    else if String.eqb (sortBy filters) "salary_low" then cs ++ [orderBy_asc f_minSalary]
    else cs in
  cs ++ [limit_ (limit filters)].

Definition matches_query (q : string) (job : Fn.JobDoc) : bool :=
  let searchTerm := toLowerCase q in
  includes (toLowerCase (Fn.title (Fn.j_data job))) searchTerm
  || includes (toLowerCase (Fn.description (Fn.j_data job))) searchTerm
  || existsb (fun x => includes (toLowerCase x) searchTerm)
       (Fn.qualifications (Fn.j_data job))
  || existsb (fun x => includes (toLowerCase x) searchTerm)
       (Fn.skills (Fn.j_data job)).

Section Search.
(** [getDocs(query(collection(db, 'jobs'), ...constraints))]: the
    answer of the Firestore server. *)
Variable getDocs : list QueryConstraint → list (string * Fn.JobDoc).

Definition searchJobs (filters : JobSearchFilters) (now : Z) : PaginatedResponse :=
  let jobs := getDocs (constraints_of filters now) in
  let jobs :=
    match query filters with
    | Some q =>
        if String.eqb q "" then jobs
        else List.filter (fun kv => matches_query q (snd kv)) jobs
    | None => jobs
    end in
  {| items := jobs;
     total := Z.of_nat (length jobs);
     r_page := page filters;
     r_limit := limit filters;
     hasMore := Z.of_nat (length jobs) =? limit filters |}.
End Search.

(** [FirestoreService.getPaginated].  [matching] is the list of the
    documents the constraints select, in query order; Firestore answers
    the query with [limit(pageSize + 1)] and [startAfter(lastDoc)] by the
    first [pageSize + 1] of the documents that come after [lastDoc]. *)
Section Paginated.
Context {D : Type}.

Record Page := {
  p_items : list (string * D);
  p_lastDoc : option (string * D);
  p_hasMore : bool }.

(** The documents after the cursor: everything when there is no cursor. *)
Fixpoint after (cursor : string) (l : list (string * D)) : list (string * D) :=
  match l with
  | [] => []
  | kv :: l' => if String.eqb (fst kv) cursor then l' else after cursor l'
  end.

Definition startAfter (lastDoc : option (string * D)) (l : list (string * D))
    : list (string * D) :=
  match lastDoc with
  | Some kv => after (fst kv) l
  | None => l
  end.

(** [docs[i]]: [undefined] outside the array. *)
Definition at_index (docs : list (string * D)) (i : Z) : option (string * D) :=
  if i <? 0 then None else nth_error docs (Z.to_nat i).

(** [None] when [limit] rejects a bound that is not positive. *)
Definition getPaginated (matching : list (string * D)) (pageSize : option Z)
    (lastDoc : option (string * D)) : option Page :=
  let pageSize := default 20 pageSize in
  if pageSize + 1 <=? 0 then None
  else
    let docs := firstn (Z.to_nat (pageSize + 1)) (startAfter lastDoc matching) in
    let hasMore := pageSize <? Z.of_nat (length docs) in
    Some {| p_items := slice docs 0 pageSize;
            p_lastDoc := if hasMore then at_index docs (pageSize - 1) else None;
            p_hasMore := hasMore |}.
End Paginated.

(** [hasUserAppliedToJob], over the applications collection. *)
Definition hasUserAppliedToJob (jobId uid_ : string) (s : Fn.Store) : bool :=
  let dedupeKey := jobId +:+ "_" +:+ uid_ in
  let applications :=
    firstn 1
      (List.filter (fun kv => String.eqb (Fn.a_dedupeKey (snd kv)) dedupeKey)
         (map_to_list (Fn.applications s))) in
  0 <? Z.of_nat (length applications).


End Client.

(** ** File validation before upload ([client/src/lib/storage.ts]) *)

Module Upload.

Record File := {
  file_name : string;
  file_size : Z;
  file_type : string }.

Record ValidateOptions := {
  maxSize : option Z;
  allowedTypes : option (list string) }.

(** The two refusals of [validateFile]; the message of the first quotes
    the limit, that of the second the type of the file. *)
Inductive ValidationError :=
  | TooLarge (maxSize : Z)
  | TypeNotAllowed (type : string).

Definition PDF : list string := ["application/pdf"].
Definition IMAGES : list string :=
  ["image/jpeg"; "image/jpg"; "image/png"; "image/webp"].
Definition DOCUMENTS : list string :=
  ["application/pdf"; "application/msword";
   "application/vnd.openxmlformats-officedocument.wordprocessingml.document"].

Definition RESUME_LIMIT : Z := 5 * 1024 * 1024.
Definition LOGO_LIMIT : Z := 1 * 1024 * 1024.
Definition PROOF_LIMIT : Z := 5 * 1024 * 1024.

(** [validateFile]: [None] stands for [{ valid: true }]. *)
Definition validateFile (file : File) (options : ValidateOptions)
    : option ValidationError :=
  match maxSize options with
  | Some m =>
      if negb (m =? 0) && (m <? file_size file) then Some (TooLarge m)
      else
        match allowedTypes options with
        | Some ts =>
            if negb (existsb (String.eqb (file_type file)) ts)
            then Some (TypeNotAllowed (file_type file)) else None
        | None => None
        end
  | None =>
      match allowedTypes options with
      | Some ts =>
          if negb (existsb (String.eqb (file_type file)) ts)
          then Some (TypeNotAllowed (file_type file)) else None
      | None => None
      end
  end.

(** [STORAGE_PATHS] *)
Definition RESUMES (uid : string) : string := "resumes/" +:+ uid.
Definition LOGOS (companyId : string) : string := "logos/" +:+ companyId.
Definition PROOFS (companyId : string) : string := "proofs/" +:+ companyId.

(** [uploadFile], up to the call of the storage service: the refusal of
    the validation, or the full path the file is uploaded to.  [filename]
    is the result of [generateUniqueFilename]. *)
Definition uploadFile (file : File) (path : string) (options : ValidateOptions)
    (filename : string) : ValidationError + string :=
  match validateFile file options with
  | Some e => inl e
  | None => inr (path +:+ "/" +:+ filename)
  end.

Definition uploadResume (file : File) (uid : string) (filename : string)
    : ValidationError + string :=
  uploadFile file (RESUMES uid)
    {| maxSize := Some RESUME_LIMIT; allowedTypes := Some PDF |} filename.

Definition uploadLogo (file : File) (companyId : string) (filename : string)
    : ValidationError + string :=
  uploadFile file (LOGOS companyId)
    {| maxSize := Some LOGO_LIMIT; allowedTypes := Some IMAGES |} filename.

Definition uploadProofDocument (file : File) (companyId : string) (filename : string)
    : ValidationError + string :=
  uploadFile file (PROOFS companyId)
    {| maxSize := Some PROOF_LIMIT; allowedTypes := Some PDF |} filename.

End Upload.

(** * Sample data *)

Module Sample.

Definition place : Location :=
  {| city := "Pune"; state := "Maharashtra"; country := "India" |}.

(** A job input in [dept] with deadline [deadline], posted by [poster]
    for company [company]. *)
Definition job_input (dept : string) (deadline : Z) (company poster : string)
    : Mem.InsertJob :=
  {| Mem.title := "Assistant Professor"; Mem.department := dept;
     Mem.level := "Assistant Professor"; Mem.instituteType := "IIT";
     Mem.employmentType := "Full-time"; Mem.location := place;
     Mem.minSalary := None; Mem.maxSalary := None; Mem.currency := "INR";
     Mem.qualifications := ["PhD"]; Mem.skills := ["Teaching"];
     Mem.responsibilities := ["Lectures"];
     Mem.description := "Teach undergraduate and graduate courses.";
     Mem.requirements := None; Mem.lastDate := ValidDate deadline;
     Mem.applyMode := Some apply_internal; Mem.applyUrl := None;
     Mem.companyId := company; Mem.posterUid := poster |}.

Definition admin_user : Mem.UserPayload :=
  {| Mem.uid := "root"; Mem.email_verified := true; Mem.role := Some "admin" |}.
Definition seeker_user : Mem.UserPayload :=
  {| Mem.uid := "sam"; Mem.email_verified := true; Mem.role := Some "seeker" |}.

(** One job "j1" with deadline 1000, created by the store at time 5 ... *)
Definition mem_pending_job : Mem.MemStorage :=
  snd (Mem.createJob (job_input "Mathematics" 1000 "c1" "emma") "j1" 5 Mem.empty).

(** ... and approved by the admin handler at time 10. *)
Definition mem_one_job : Mem.MemStorage :=
  snd (Mem.patch_job_status (Some admin_user) "j1" "approved" "log1" 10 mem_pending_job).

(** A company "c1" owned by "emma", pending. *)
Definition mem_pending_company : Mem.MemStorage :=
  snd (Mem.createCompany
         {| Mem.ic_name := "City College"; Mem.ic_website := None;
            Mem.ic_instituteType := "State University";
            Mem.ic_hrEmail := "hr@college.example"; Mem.ic_logoPath := None;
            Mem.ic_address := "1 College Road, Pune"; Mem.ic_phone := None;
            Mem.ic_proofDocs := []; Mem.ic_ownerUid := "emma" |} "c1" 3 Mem.empty).

(** The seeker "sam" has applied to "j1" at time 20. *)
Definition mem_applied : Mem.MemStorage :=
  snd (Mem.post_applications (Some seeker_user)
         {| Mem.b_jobId := "j1"; Mem.b_resumePath := "resumes/sam/cv.pdf";
            Mem.b_coverLetter := None |} "a1" 20 mem_one_job).

End Sample.

(** ** Vocabulary of the search claims *)

(** The filter set [{ department: "Mathematics", sortBy: "deadline" }]. *)
Definition maths_by_deadline : Mem.JobSearchFilters :=
  {| Mem.f_query := None; Mem.f_department := Some "Mathematics";
     Mem.f_instituteType := None; Mem.f_level := None;
     Mem.f_location := None; Mem.f_employmentType := None;
     Mem.f_postedWithin := None; Mem.f_sortBy := Some "deadline" |}.

Definition approved_maths (job : Mem.Job) : bool :=
  JobStatus_eqb (Mem.job_status job) job_approved
  && String.eqb (Mem.department (Mem.job_ins job)) "Mathematics".

(** A job matches a filter set when it is approved and passes every filter
    that is set. *)
Definition passes (x : option string) (p : string → Mem.Job → bool)
    (job : Mem.Job) : bool :=
  match x with
  | Some v => if String.eqb v "" then true else p v job
  | None => true
  end.

Definition posted_within (x : option string) (now : Z) (job : Mem.Job) : bool :=
  match x with
  | Some v =>
      if String.eqb v "" || String.eqb v "all" then true
      else now - Mem.daysAgo v * 24 * 60 * 60 * 1000 <=? Mem.job_createdAt job
  | None => true
  end.

Definition satisfies (filters : Mem.JobSearchFilters) (now : Z) (job : Mem.Job) : bool :=
  JobStatus_eqb (Mem.job_status job) job_approved
  && passes (Mem.f_department filters)
       (fun v job => String.eqb (Mem.department (Mem.job_ins job)) v) job
  && passes (Mem.f_instituteType filters)
       (fun v job => String.eqb (Mem.instituteType (Mem.job_ins job)) v) job
  && passes (Mem.f_level filters)
       (fun v job => String.eqb (Mem.level (Mem.job_ins job)) v) job
  && passes (Mem.f_location filters) Mem.matches_location job
  && passes (Mem.f_employmentType filters)
       (fun v job => String.eqb (Mem.employmentType (Mem.job_ins job)) v) job
  && passes (Mem.f_query filters) Mem.matches_query job
  && posted_within (Mem.f_postedWithin filters) now job.

Module SearchSample.

(** [n] Mathematics jobs with distinct ids and deadlines, each created by
    the store and approved by the admin handler. *)
Fixpoint maths_jobs (n : nat) : Mem.MemStorage :=
  match n with
  | O => Mem.empty
  | S k =>
      let tag := String (ascii_of_nat (48 + k)) "" in
      let s := maths_jobs k in
      let s :=
        snd (Mem.createJob
               (Sample.job_input "Mathematics" (1000 - Z.of_nat k) "c1" "emma")
               ("j" +:+ tag) 5 s) in
      snd (Mem.patch_job_status (Some Sample.admin_user) ("j" +:+ tag)
             "approved" ("l" +:+ tag) 10 s)
  end.

Definition no_query : Mem.SearchQuery :=
  {| Mem.q_page := None; Mem.q_limit := None; Mem.q_department := None;
     Mem.q_instituteType := None; Mem.q_level := None;
     Mem.q_location := None; Mem.q_employmentType := None;
     Mem.q_sortBy := None; Mem.q_q := None |}.

End SearchSample.

Module ClientSample.

(** A reference evaluation of the queries [Client.searchJobs] builds,
    over a collection listed in document order: equality and range
    filters keep the matching documents, [orderBy] keeps the documents
    that have the field and sorts them, [limit] keeps a prefix. *)
Definition status_string (st : JobStatus) : string :=
  match st with
  | job_pending => "pending" | job_approved => "approved"
  | job_rejected => "rejected" | job_expired => "expired"
  end.

Definition text_field (f : Client.Field) (d : Fn.JobDoc) : option string :=
  match f with
  | Client.f_status => Some (status_string (Fn.j_status d))
  | Client.f_department => Some (Fn.department (Fn.j_data d))
  | Client.f_instituteType => Some (Fn.instituteType (Fn.j_data d))
  | Client.f_level => Some (Fn.level (Fn.j_data d))
  | Client.f_employmentType => Some (Fn.employmentType (Fn.j_data d))
  | Client.f_city => Some (city (Fn.location (Fn.j_data d)))
  | _ => None
  end.

Definition number_field (f : Client.Field) (d : Fn.JobDoc) : option Z :=
  match f with
  | Client.f_createdAt => Some (Fn.j_createdAt d)
  | Client.f_lastDate => Some (Fn.lastDate (Fn.j_data d))
  | Client.f_maxSalary => Fn.maxSalary (Fn.j_data d)
  | Client.f_minSalary => Fn.minSalary (Fn.j_data d)
  | _ => None
  end.

Definition has_number (f : Client.Field) (kv : string * Fn.JobDoc) : bool :=
  match number_field f (snd kv) with Some _ => true | None => false end.

Definition by_number (f : Client.Field) (a b : string * Fn.JobDoc) : Z :=
  default 0 (number_field f (snd a)) - default 0 (number_field f (snd b)).

Definition apply_constraint (docs : list (string * Fn.JobDoc))
    (c : Client.QueryConstraint) : list (string * Fn.JobDoc) :=
  match c with
  | Client.where_eq f v =>
      List.filter
        (fun kv => match text_field f (snd kv) with
                   | Some x => String.eqb x v
                   | None => false
                   end) docs
  | Client.where_ge f v =>
      List.filter
        (fun kv => match number_field f (snd kv) with
                   | Some x => v <=? x
                   | None => false
                   end) docs
  | Client.orderBy_asc f => js_sort (by_number f) (List.filter (has_number f) docs)
  | Client.orderBy_desc f =>
      js_sort (fun a b => by_number f b a) (List.filter (has_number f) docs)
  | Client.limit_ n => firstn (Z.to_nat n) docs
  end.

Definition run_query (docs : list (string * Fn.JobDoc))
    (cs : list Client.QueryConstraint) : list (string * Fn.JobDoc) :=
  fold_left apply_constraint cs docs.

Definition job_data (deadline : Z) : Fn.JobData :=
  {| Fn.title := "Assistant Professor"; Fn.department := "Mathematics";
     Fn.level := "Assistant Professor"; Fn.instituteType := "IIT";
     Fn.employmentType := "Full-time"; Fn.location := Sample.place;
     Fn.minSalary := None; Fn.maxSalary := None; Fn.currency := "INR";
     Fn.qualifications := ["PhD"]; Fn.skills := ["Teaching"];
     Fn.responsibilities := ["Lectures"];
     Fn.description := "Teach undergraduate and graduate courses.";
     Fn.requirements := None; Fn.lastDate := deadline;
     Fn.companyId := "c1" |}.

Definition approved_job (created deadline : Z) : Fn.JobDoc :=
  {| Fn.j_data := job_data deadline; Fn.j_posterUid := "emma";
     Fn.j_status := job_approved;
     Fn.j_approvedBy := Some "root"; Fn.j_approvedAt := Some created;
     Fn.j_viewCount := 0; Fn.j_applicationCount := 0;
     Fn.j_createdAt := created; Fn.j_updatedAt := created |}.

Definition one_job : list (string * Fn.JobDoc) := [("j1", approved_job 10 1000)].
Definition two_jobs : list (string * Fn.JobDoc) :=
  [("j1", approved_job 10 1000); ("j2", approved_job 11 2000)].

(** No filter set, newest first, first page, one job per page. *)
Definition first_of_one : Client.JobSearchFilters :=
  {| Client.query := None; Client.department := None;
     Client.instituteType := None; Client.level := None;
     Client.location := None; Client.employmentType := None;
     Client.postedWithin := "all"; Client.sortBy := "newest";
     Client.page := 1; Client.limit := 1 |}.

End ClientSample.

Module FnSample.

Definition root : Fn.Auth :=
  {| Fn.uid := "root"; Fn.email_verified := true; Fn.role := Some "admin" |}.
Definition emma_seeker : Fn.Auth :=
  {| Fn.uid := "emma"; Fn.email_verified := true; Fn.role := Some "seeker" |}.
Definition emma : Fn.Auth :=
  {| Fn.uid := "emma"; Fn.email_verified := true; Fn.role := Some "employer" |}.
Definition sam : Fn.Auth :=
  {| Fn.uid := "sam"; Fn.email_verified := true; Fn.role := Some "seeker" |}.

Definition college : Fn.CompanyData :=
  {| Fn.cd_name := "City College"; Fn.cd_website := None;
     Fn.cd_instituteType := "State University";
     Fn.cd_hrEmail := "hr@college.example"; Fn.cd_phone := None;
     Fn.cd_address := "1 College Road, Pune"; Fn.cd_proofDocs := [] |}.

(** Emma and Sam sign up; Emma registers a company "c1", which the
    admin approves; Emma posts job "j1" with deadline 1000, which the
    admin approves. *)
Definition setup : list (Fn.Op * Z) :=
  [ (Fn.SignUp "emma" (Some "Emma") "emma@college.example" true, 1);
    (Fn.SignUp "sam" (Some "Sam") "sam@mail.example" true, 2);
    (Fn.RequestEmployerUpgrade (Some emma_seeker) (Some college) "c1", 3);
    (Fn.ApproveEmployerUpgrade (Some root) "emma" "c1", 4);
    (Fn.CreateJob (Some emma) (Some (ClientSample.job_data 1000)) "j1", 5);
    (Fn.ApproveJob (Some root) "j1", 10) ].

Definition run (ops : list (Fn.Op * Z)) (s : Fn.Store) : Fn.Store :=
  fold_left (fun s '(o, now) => Fn.exec o now s) ops s.

(** Every generated id is fresh when it is handed out. *)
Fixpoint all_fresh (ops : list (Fn.Op * Z)) (s : Fn.Store) : Prop :=
  match ops with
  | [] => True
  | (o, now) :: ops' => Fn.fresh o s ∧ all_fresh ops' (Fn.exec o now s)
  end.

Definition job_open : Fn.Store := run setup Fn.empty.

(** Sam applies to "j1" at time 20. *)
Definition sam_applies : Fn.Op * Z :=
  (Fn.ApplyToJob (Some sam) "j1" "resumes/sam/cv.pdf" "" "a1", 20).
Definition applied : Fn.Store := run (setup ++ [sam_applies]) Fn.empty.

(** The sweep runs at time 2000, after the deadline. *)
Definition swept : Fn.Store :=
  run (setup ++ [sam_applies; (Fn.ExpireJobs, 2000)]) Fn.empty.


End FnSample.

(** ** Vocabulary of the application claims *)




(** The number of applications in a [MemStorage] that reference a job. *)
Definition mem_app_count (jobId : string) (s : Mem.MemStorage) : nat :=
  length (List.filter (fun a => String.eqb (Mem.ia_jobId (Mem.app_ins a)) jobId)
            (JsMap.values (Mem.applications s))).

(** ** Vocabulary of the further properties *)

(** A map of records is well keyed when no key occurs twice and every
    record is stored under its own [id]. *)
Definition wf_map {V} (id_of : V → string) (m : list (string * V)) : Prop :=
  NoDup (map fst m) ∧ Forall (fun kv => id_of (snd kv) = fst kv) m.

Definition well_keyed (s : Mem.MemStorage) : Prop :=
  wf_map Mem.user_id (Mem.users s)
  ∧ wf_map Mem.company_id (Mem.companies s)
  ∧ wf_map Mem.job_id (Mem.jobs s)
  ∧ wf_map Mem.app_id (Mem.applications s).

(** The counter of every job is the number of applications that
    reference the job. *)
Definition counters_exact (s : Mem.MemStorage) : Prop :=
  ∀ jobId job,
    Mem.getJob jobId s = Some job →
    Mem.job_applicationCount job = Z.of_nat (mem_app_count jobId s).

(** The deadline of a job is a date, not [Invalid Date]. *)
Definition valid_deadline (job : Mem.Job) : Prop :=
  Mem.lastDate (Mem.job_ins job) ≠ InvalidDate.

(** Both deadlines are dates and the first is not after the second. *)
Definition deadline_le (a b : Mem.Job) : Prop :=
  match Mem.lastDate (Mem.job_ins a), Mem.lastDate (Mem.job_ins b) with
  | ValidDate x, ValidDate y => x <= y
  | _, _ => False
  end.

(** The empty filter set. *)
Definition no_filters : Mem.JobSearchFilters :=
  {| Mem.f_query := None; Mem.f_department := None;
     Mem.f_instituteType := None; Mem.f_level := None;
     Mem.f_location := None; Mem.f_employmentType := None;
     Mem.f_postedWithin := None; Mem.f_sortBy := None |}.

(** ** Vocabulary of the invariants of the back end *)


(** No user owns two companies. *)
Definition one_company_per_owner (s : Fn.Store) : Prop :=
  ∀ k1 k2 c1 c2,
    Fn.companies s !! k1 = Some c1 → Fn.companies s !! k2 = Some c2 →
    Fn.c_ownerUid c1 = Fn.c_ownerUid c2 → k1 = k2.

(** Every application document is as [applyToJob] wrote it, up to the
    status, notes and [updatedAt] that [updateApplicationStatus] sets. *)
Definition applications_wf (s : Fn.Store) : Prop :=
  ∀ k d,
    Fn.applications s !! k = Some d →
    Fn.a_dedupeKey d = Fn.dedupeKey_of (Fn.a_jobId d) (Fn.a_applicantUid d)
    ∧ Fn.a_jobId d ≠ "" ∧ Fn.a_resumePath d ≠ ""
    ∧ In (Fn.a_status d) ("submitted" :: Fn.validStatuses).

(** No profile has the role admin and no account a claim other than
    employer; a profile with the role employer belongs to an account with
    the employer claim. *)
Definition roles_granted (s : Fn.Store) : Prop :=
  (∀ uid_ d, Fn.users s !! uid_ = Some d → Fn.u_role d ≠ admin)
  ∧ (∀ uid_ r, Fn.authClaims s !! uid_ = Some (Some r) → r = "employer")
  ∧ (∀ uid_ d, Fn.users s !! uid_ = Some d → Fn.u_role d = employer →
               Fn.authClaims s !! uid_ = Some (Some "employer")).

(** * Properties *)

(** ** JavaScript maps, sorting and slicing *)

Section JsMapFacts.
Context {V : Type}.
Implicit Types (m : list (string * V)) (k : string) (v : V).

Lemma get_set_eq k v m : JsMap.get k (JsMap.set k v m) = Some v.
Proof.
  induction m as [|[k' v'] m IH]; simpl.
  - by rewrite String.eqb_refl.
  - destruct (String.eqb k k') eqn:E; simpl.
    + by rewrite String.eqb_refl.
    + by rewrite E.
Qed.

Lemma get_set_ne k k' v m :
  k ≠ k' → JsMap.get k' (JsMap.set k v m) = JsMap.get k' m.
Proof.
  intros Hne. induction m as [|[k0 v0] m IH]; simpl.
  - destruct (String.eqb k' k) eqn:E; [|done].
    apply String.eqb_eq in E. congruence.
  - destruct (String.eqb k k0) eqn:E; simpl.
    + apply String.eqb_eq in E. subst k0.
      destruct (String.eqb k' k) eqn:E'; [|done].
      apply String.eqb_eq in E'. congruence.
    + by rewrite IH.
Qed.

Lemma get_delete_eq k m : JsMap.get k (JsMap.delete k m) = None.
Proof.
  induction m as [|[k' v'] m IH]; simpl; [done|].
  destruct (String.eqb k k') eqn:E; simpl; [done|]. by rewrite E.
Qed.

Lemma get_None_not_key k m :
  JsMap.get k m = None → Forall (fun kv => String.eqb k (fst kv) = false) m.
Proof.
  induction m as [|[k' v'] m IH]; simpl; intros H; [constructor|].
  destruct (String.eqb k k') eqn:E; [done|]. constructor; auto.
Qed.

Lemma delete_absent k m : JsMap.get k m = None → JsMap.delete k m = m.
Proof.
  intros H%get_None_not_key. unfold JsMap.delete.
  induction H as [|kv m Hk _ IH]; simpl; [done|].
  by rewrite Hk, IH.
Qed.
End JsMapFacts.

(** ** C9: a created job reads back *)

(** C9.  [createJob(input)] followed by [getJob] on the returned id yields
    the record that was created: its user-supplied fields are the input's,
    its status is pending and both counters are 0. *)
Theorem createJob_getJob_roundtrip (ins : Mem.InsertJob) (id : string) (now : Z)
    (s : Mem.MemStorage) :
  let created := fst (Mem.createJob ins id now s) in
  let s' := snd (Mem.createJob ins id now s) in
  ∃ job,
    Mem.getJob (Mem.job_id created) s' = Some job
    ∧ job = created
    ∧ Mem.job_ins job = ins
    ∧ Mem.title (Mem.job_ins job) = Mem.title ins
    ∧ Mem.department (Mem.job_ins job) = Mem.department ins
    ∧ Mem.level (Mem.job_ins job) = Mem.level ins
    ∧ Mem.location (Mem.job_ins job) = Mem.location ins
    ∧ Mem.minSalary (Mem.job_ins job) = Mem.minSalary ins
    ∧ Mem.maxSalary (Mem.job_ins job) = Mem.maxSalary ins
    ∧ Mem.qualifications (Mem.job_ins job) = Mem.qualifications ins
    ∧ Mem.skills (Mem.job_ins job) = Mem.skills ins
    ∧ Mem.responsibilities (Mem.job_ins job) = Mem.responsibilities ins
    ∧ Mem.description (Mem.job_ins job) = Mem.description ins
    ∧ Mem.lastDate (Mem.job_ins job) = Mem.lastDate ins
    ∧ Mem.companyId (Mem.job_ins job) = Mem.companyId ins
    ∧ Mem.posterUid (Mem.job_ins job) = Mem.posterUid ins
    ∧ Mem.job_status job = job_pending
    ∧ Mem.job_viewCount job = 0
    ∧ Mem.job_applicationCount job = 0.
Proof.
  simpl. eexists. split.
  - unfold Mem.getJob. simpl. apply get_set_eq.
  - repeat split.
Qed.

(** ** C8: mutations on a missing id *)

Lemma filter_none {A} (p : A → bool) (l : list A) :
  Forall (fun x => p x = false) l → List.filter p l = [].
Proof.
  induction 1 as [|x l Hx _ IH]; simpl; [done|]. by rewrite Hx.
Qed.

(** C8, as the claim states it, fails: [updateJob] on an id that is not in
    the store resolves normally instead of answering [NotFound]. *)
Lemma updateJob_missing_id_resolves :
  Mem.getJob "ghost" Sample.mem_one_job = None
  ∧ fst (Mem.updateJob "ghost" (Mem.with_viewCount 7) 30 Sample.mem_one_job)
    = Mem.Resolved tt
  ∧ fst (Mem.updateJob "ghost" (Mem.with_viewCount 7) 30 Sample.mem_one_job)
    ≠ Mem.Rejected not_found.
Proof. repeat split. discriminate. Qed.

(** C8, amended.  An update of [MemStorage] ([updateUser], [updateCompany],
    [updateJob], [updateApplication]) on an id that is not in its
    collection resolves normally, without [NotFound], and leaves the store
    unchanged.  [deleteJob] and [deleteUser] on a missing id resolve
    normally too, and leave the store unchanged when no record references
    the id. *)
Theorem missing_id_mutations (s : Mem.MemStorage) (id : string) (now : Z) :
  (∀ f, Mem.getUser id s = None →
        Mem.updateUser id f now s = (Mem.Resolved tt, s))
  ∧ (∀ f, Mem.getCompany id s = None →
          Mem.updateCompany id f now s = (Mem.Resolved tt, s))
  ∧ (∀ f, Mem.getJob id s = None →
          Mem.updateJob id f now s = (Mem.Resolved tt, s))
  ∧ (∀ f, Mem.getApplication id s = None →
          Mem.updateApplication id f now s = (Mem.Resolved tt, s))
  ∧ (Mem.getJob id s = None →
     Forall (fun a => String.eqb (Mem.ia_jobId (Mem.app_ins a)) id = false)
       (JsMap.values (Mem.applications s)) →
     Mem.deleteJob id s = (Mem.Resolved tt, s))
  ∧ (Mem.getUser id s = None →
     Forall (fun c => String.eqb (Mem.ic_ownerUid (Mem.company_ins c)) id = false)
       (JsMap.values (Mem.companies s)) →
     Forall (fun j => String.eqb (Mem.posterUid (Mem.job_ins j)) id = false)
       (JsMap.values (Mem.jobs s)) →
     Forall (fun a => String.eqb (Mem.ia_applicantUid (Mem.app_ins a)) id = false)
       (JsMap.values (Mem.applications s)) →
     Mem.deleteUser id s = (Mem.Resolved tt, s)).
Proof.
  repeat split.
  - intros f H. unfold Mem.updateUser. unfold Mem.getUser in H. by rewrite H.
  - intros f H. unfold Mem.updateCompany. unfold Mem.getCompany in H. by rewrite H.
  - intros f H. unfold Mem.updateJob. unfold Mem.getJob in H. by rewrite H.
  - intros f H. unfold Mem.updateApplication. unfold Mem.getApplication in H.
    by rewrite H.
  - intros H Ha. unfold Mem.deleteJob. unfold Mem.getJob in H.
    rewrite (delete_absent _ _ H), (filter_none _ _ Ha). simpl.
    by destruct s.
  - intros H Hc Hj Ha. unfold Mem.deleteUser. unfold Mem.getUser in H.
    rewrite (delete_absent _ _ H), (filter_none _ _ Hc), (filter_none _ _ Hj),
      (filter_none _ _ Ha). simpl.
    by destruct s.
Qed.

Lemma missing_id_mutations_witness :
  Mem.getJob "ghost" Sample.mem_applied = None
  ∧ Mem.updateJob "ghost" (Mem.with_viewCount 7) 30 Sample.mem_applied
    = (Mem.Resolved tt, Sample.mem_applied)
  ∧ Mem.deleteJob "ghost" Sample.mem_applied
    = (Mem.Resolved tt, Sample.mem_applied).
Proof.
  split; [reflexivity|].
  destruct (missing_id_mutations Sample.mem_applied "ghost" 30)
    as (_ & _ & Hjob & _ & Hdel & _).
  split.
  - apply Hjob. reflexivity.
  - apply Hdel; [reflexivity|]. vm_compute. repeat constructor.
Defined.

(** ** Sorting and slicing *)

Section SortFacts.
Context {A : Type} (cmp : A → A → Z).

Lemma insert_sorted_Permutation x l : Permutation (insert_sorted cmp x l) (x :: l).
Proof.
  induction l as [|y l IH]; simpl; [done|].
  destruct (cmp x y <=? 0); [done|].
  rewrite IH. apply perm_swap.
Qed.

Lemma js_sort_Permutation l : Permutation (js_sort cmp l) l.
Proof.
  induction l as [|x l IH]; simpl; [done|].
  rewrite insert_sorted_Permutation. by constructor.
Qed.

Lemma js_sort_length l : length (js_sort cmp l) = length l.
Proof. apply Permutation_length, js_sort_Permutation. Qed.

(** When [cmp] orders by an integer key, the result is sorted by it. *)
Context (key : A → Z) (Hcmp : ∀ a b, cmp a b <= 0 ↔ key a <= key b).

Lemma insert_sorted_sorted x l :
  StronglySorted (fun a b => key a <= key b) l →
  StronglySorted (fun a b => key a <= key b) (insert_sorted cmp x l).
Proof.
  induction 1 as [|y l Hs IH Hy]; simpl.
  - repeat constructor.
  - destruct (cmp x y <=? 0) eqn:E.
    + apply Z.leb_le, Hcmp in E.
      constructor; [by constructor|].
      constructor; [done|].
      eapply Forall_impl; [exact Hy|]. simpl. intros z Hz. lia.
    + apply Z.leb_gt in E.
      assert (key y <= key x) as Hyx.
      { destruct (Z.le_gt_cases (key y) (key x)) as [|Hlt]; [done|].
        assert (cmp x y <= 0) by (apply Hcmp; lia). lia. }
      constructor; [done|].
      eapply Permutation_Forall.
      { symmetry. apply insert_sorted_Permutation. }
      by constructor.
Qed.

Lemma js_sort_sorted l : StronglySorted (fun a b => key a <= key b) (js_sort cmp l).
Proof.
  induction l as [|x l IH]; simpl; [constructor|].
  by apply insert_sorted_sorted.
Qed.
End SortFacts.

(** The same for a comparison that orders only the elements with [P]: a
    list of such elements comes out sorted. *)
Section SortOn.
Context {A : Type} (cmp : A → A → Z) (P : A → Prop) (le : A → A → Prop).
Hypothesis Hle : ∀ a b, P a → P b → cmp a b <= 0 → le a b.
Hypothesis Hgt : ∀ a b, P a → P b → 0 < cmp a b → le b a.
Hypothesis Htrans : ∀ a b c, P a → P b → P c → le a b → le b c → le a c.

Lemma insert_sorted_sorted_on x l :
  P x → Forall P l → StronglySorted le l → StronglySorted le (insert_sorted cmp x l).
Proof.
  intros Hx HP Hs. induction Hs as [|y l Hs IH Hy]; simpl.
  - repeat constructor.
  - apply Forall_cons in HP as [Hpy HP].
    destruct (cmp x y <=? 0) eqn:E.
    + apply Z.leb_le in E. assert (le x y) as Hxy by by apply Hle.
      constructor; [by constructor|].
      constructor; [done|].
      apply Forall_forall. intros z Hz.
      apply (Htrans x y z); try done.
      * by eapply Forall_forall in HP.
      * by eapply Forall_forall in Hy.
    + apply Z.leb_gt in E. assert (le y x) as Hyx by (apply Hgt; [done|done|lia]).
      constructor; [by apply IH|].
      eapply Permutation_Forall.
      { symmetry. apply insert_sorted_Permutation. }
      by constructor.
Qed.

Lemma js_sort_Forall l : Forall P l → Forall P (js_sort cmp l).
Proof.
  intros H. eapply Permutation_Forall; [|exact H].
  symmetry. apply js_sort_Permutation.
Qed.

Lemma js_sort_sorted_on l : Forall P l → StronglySorted le (js_sort cmp l).
Proof.
  induction l as [|x l IH]; simpl; [constructor|].
  intros H. apply Forall_cons in H as [Hx H].
  apply insert_sorted_sorted_on; [done|by apply js_sort_Forall|by apply IH].
Qed.
End SortOn.

Lemma slice_nonneg {A} (l : list A) (a b : Z) :
  0 <= a → a <= b →
  slice l a b = firstn (Z.to_nat (b - a)) (skipn (Z.to_nat a) l).
Proof.
  intros Ha Hab. unfold slice, rel_index.
  destruct (Z.ltb_spec a 0) as [?|_]; [lia|].
  destruct (Z.ltb_spec b 0) as [?|_]; [lia|].
  set (len := Z.of_nat (length l)).
  destruct (Z.le_gt_cases a len) as [Hal|Hal].
  - rewrite (Z.min_l a len) by done.
    destruct (Z.le_gt_cases b len) as [Hbl|Hbl].
    + by rewrite (Z.min_l b len).
    + rewrite (Z.min_r b len) by lia.
      rewrite !firstn_all2; [done| |]; rewrite length_skipn; subst len; lia.
  - rewrite (Z.min_r a len), (Z.min_r b len) by lia.
    rewrite !skipn_all2; [|lia|subst len; lia].
    by rewrite !firstn_nil.
Qed.

(** ** C6: searching Mathematics jobs by deadline *)

Lemma filter_filter {A} (p q : A → bool) (l : list A) :
  List.filter p (List.filter q l) = List.filter (fun x => q x && p x) l.
Proof.
  induction l as [|x l IH]; simpl; [done|].
  destruct (q x); simpl; [|done]. destruct (p x); by rewrite IH.
Qed.

Lemma filter_if_passes x p l : Mem.filter_if x p l = List.filter (passes x p) l.
Proof.
  unfold Mem.filter_if, passes. destruct x as [v|].
  - destruct (String.eqb v ""); [|done].
    induction l as [|? l IH]; simpl; congruence.
  - induction l as [|? l IH]; simpl; congruence.
Qed.

Lemma filter_posted_within x now l :
  Mem.filter_posted x now l = List.filter (posted_within x now) l.
Proof.
  unfold Mem.filter_posted, posted_within. destruct x as [v|].
  - destruct (String.eqb v "" || String.eqb v "all"); [|done].
    induction l as [|? l IH]; simpl; congruence.
  - induction l as [|? l IH]; simpl; congruence.
Qed.

(** The filter pipeline of [searchJobs] keeps exactly the jobs that
    satisfy the filter set, in store order. *)
Lemma matching_satisfies filters now s :
  Mem.matching filters now s
  = List.filter (satisfies filters now) (JsMap.values (Mem.jobs s)).
Proof.
  unfold Mem.matching. cbv zeta.
  rewrite filter_posted_within, !filter_if_passes, !filter_filter.
  apply List.filter_ext. intros job. unfold satisfies.
  by rewrite !andb_assoc.
Qed.

Lemma ordered_Permutation filters now s :
  Permutation (Mem.ordered filters now s) (Mem.matching filters now s).
Proof.
  unfold Mem.ordered, Mem.sort_jobs.
  destruct (Mem.f_sortBy filters) as [k|]; [|apply js_sort_Permutation].
  repeat case_match; apply js_sort_Permutation.
Qed.

Lemma searchJobs_items filters p l now s :
  1 <= p → 0 <= l →
  Mem.items (Mem.searchJobs filters (Some p) (Some l) now s)
  = firstn (Z.to_nat l) (skipn (Z.to_nat ((p - 1) * l)) (Mem.ordered filters now s)).
Proof.
  intros Hp Hl. unfold Mem.searchJobs. simpl.
  rewrite slice_nonneg by nia. f_equal. f_equal. lia.
Qed.

(** C6, as the claim states it, fails: with 41 approved Mathematics jobs,
    pages 1 and 2 of size 20 hold 40 records and do not cover the ordered
    result set. *)
Lemma two_pages_do_not_cover :
  let s := SearchSample.maths_jobs 41 in
  let R := Mem.ordered maths_by_deadline 50 s in
  let p1 := Mem.searchJobs maths_by_deadline (Some 1) (Some 20) 50 s in
  let p2 := Mem.searchJobs maths_by_deadline (Some 2) (Some 20) 50 s in
  length R = 41%nat
  ∧ length (Mem.items p1 ++ Mem.items p2) = 40%nat
  ∧ Mem.items p1 ++ Mem.items p2 ≠ R.
Proof.
  cbv zeta. split; [by vm_compute|]. split; [by vm_compute|].
  intros H. apply (f_equal length) in H. vm_compute in H. discriminate.
Qed.

(** [POST /api/jobs] stores the date it made from the request as it is,
    [Invalid Date] included. *)
Lemma post_jobs_stores_lastDate user body id now s job :
  fst (Mem.post_jobs user body id now s) = Mem.Json job →
  Mem.getJob id (snd (Mem.post_jobs user body id now s)) = Some job
  ∧ Mem.lastDate (Mem.job_ins job) = Mem.jb_lastDate body
  ∧ Mem.job_status job = job_pending.
Proof.
  unfold Mem.post_jobs, Mem.guard.
  destruct user as [u|]; [|done].
  destruct (_ && _); [done|].
  destruct (existsb _ _); [|done].
  destruct (Mem.getCompany _ s) as [c|]; [|done].
  destruct (_ || _); [done|]. simpl. intros [= <-].
  unfold Mem.getJob. simpl. by rewrite get_set_eq.
Qed.

(** C6, amended.  For every stored job set, [searchJobs] with filters
    [{ department: "Mathematics", sortBy: "deadline" }] returns only jobs
    that are approved and in department Mathematics (the ordered result
    set is a rearrangement of exactly those jobs); when the [lastDate] of
    each approved Mathematics job is a valid date, the result is ordered
    by ascending [lastDate]; page 1 and page 2 of size 20 are the
    disjoint, contiguous slices [0, 20) and [20, 40) of the ordered result
    set, so together they cover its first 40 records, and the whole set
    once the records from index 40 on are added.  (With an [Invalid Date]
    among the jobs the comparator returns [NaN] and the order of the
    result is not fixed; [POST /api/jobs] stores such a date.) *)
Theorem search_maths_by_deadline (s : Mem.MemStorage) (now : Z) :
  let R := Mem.ordered maths_by_deadline now s in
  let p1 := Mem.searchJobs maths_by_deadline (Some 1) (Some 20) now s in
  let p2 := Mem.searchJobs maths_by_deadline (Some 2) (Some 20) now s in
  Permutation R (List.filter approved_maths (JsMap.values (Mem.jobs s)))
  ∧ (∀ job, In job (Mem.items p1 ++ Mem.items p2) →
       In job (JsMap.values (Mem.jobs s))
       ∧ Mem.job_status job = job_approved
       ∧ Mem.department (Mem.job_ins job) = "Mathematics")
  ∧ ((∀ job, In job (JsMap.values (Mem.jobs s)) → approved_maths job = true →
             valid_deadline job) →
     StronglySorted deadline_le R)
  ∧ Mem.items p1 = firstn 20 R
  ∧ Mem.items p2 = firstn 20 (skipn 20 R)
  ∧ Mem.items p1 ++ Mem.items p2 = firstn 40 R
  ∧ Mem.items p1 ++ Mem.items p2 ++ skipn 40 R = R.
Proof.
  cbv zeta.
  set (R := Mem.ordered maths_by_deadline now s).
  assert (Mem.matching maths_by_deadline now s
          = List.filter approved_maths (JsMap.values (Mem.jobs s))) as Hm.
  { unfold Mem.matching. simpl. by rewrite filter_filter. }
  assert (Permutation R (List.filter approved_maths (JsMap.values (Mem.jobs s)))) as HP.
  { subst R. rewrite ordered_Permutation. by rewrite Hm. }
  assert (Mem.items (Mem.searchJobs maths_by_deadline (Some 1) (Some 20) now s)
          = firstn 20 R) as H1.
  { rewrite searchJobs_items by lia. reflexivity. }
  assert (Mem.items (Mem.searchJobs maths_by_deadline (Some 2) (Some 20) now s)
          = firstn 20 (skipn 20 R)) as H2.
  { rewrite searchJobs_items by lia. reflexivity. }
  assert (firstn 20 R ++ firstn 20 (skipn 20 R) = firstn 40 R) as H40.
  { rewrite <- (firstn_skipn 20 (firstn 40 R)) at 1.
    rewrite firstn_firstn, skipn_firstn_comm. reflexivity. }
  split; [exact HP|]. split; [|split; [|repeat split]].
  - intros job Hin. rewrite H1, H2, H40 in Hin.
    assert (In job R) as HR.
    { rewrite <- (firstn_skipn 40 R). apply in_or_app. by left. }
    eapply Permutation_in in HR; [|exact HP].
    apply filter_In in HR as [Hv Hb]. unfold approved_maths in Hb.
    apply andb_true_iff in Hb as [Hst Hd].
    split; [done|]. split.
    + by destruct (Mem.job_status job).
    + by apply String.eqb_eq.
  - intros Hvalid. subst R. unfold Mem.ordered. simpl. rewrite Hm.
    apply (js_sort_sorted_on Mem.cmp_deadline valid_deadline deadline_le).
    + intros a b Ha Hb. unfold Mem.cmp_deadline, deadline_le, valid_deadline in *.
      destruct (Mem.lastDate (Mem.job_ins a)), (Mem.lastDate (Mem.job_ins b));
        simpl; try done. lia.
    + intros a b Ha Hb. unfold Mem.cmp_deadline, deadline_le, valid_deadline in *.
      destruct (Mem.lastDate (Mem.job_ins a)), (Mem.lastDate (Mem.job_ins b));
        simpl; try done. lia.
    + intros a b c _ _ _. unfold deadline_le.
      destruct (Mem.lastDate (Mem.job_ins a)), (Mem.lastDate (Mem.job_ins b)),
        (Mem.lastDate (Mem.job_ins c)); try done. lia.
    + apply Forall_forall. intros job Hin. apply list_elem_of_In in Hin.
      apply filter_In in Hin as [Hin Hb]. by apply Hvalid.
  - exact H1.
  - exact H2.
  - by rewrite H1, H2.
  - rewrite H1, H2, app_assoc, H40. apply firstn_skipn.
Qed.

Lemma search_maths_by_deadline_witness :
  let s := SearchSample.maths_jobs 3 in
  StronglySorted deadline_le (Mem.ordered maths_by_deadline 50 s)
  ∧ length (Mem.ordered maths_by_deadline 50 s) = 3%nat.
Proof.
  cbv zeta.
  destruct (search_maths_by_deadline (SearchSample.maths_jobs 3) 50)
    as (_ & _ & Hsorted & _).
  split; [|by vm_compute]. apply Hsorted.
  intros job Hin _. vm_compute in Hin.
  destruct Hin as [<-|[<-|[<-|[]]]]; by vm_compute.
Defined.

(** ** C7: page size, total and [hasMore] *)

Lemma skipn_nonempty {A} (n : nat) (l : list A) :
  skipn n l ≠ [] ↔ (n < length l)%nat.
Proof.
  split.
  - intros H. destruct (Nat.lt_ge_cases n (length l)) as [|Hge]; [done|].
    by rewrite skipn_all2 in H.
  - intros Hlt H. apply (f_equal length) in H.
    rewrite length_skipn in H. simpl in H. lia.
Qed.

(** C7, as the claim states it, fails on the browser-side [searchJobs]:
    [total] is the size of the returned page and [hasMore] says that the
    page is full.  With one approved job and one job per page, [hasMore] is
    true though the page holds every record; with two approved jobs,
    [total] is 1 though both match. *)
Lemma client_search_total_hasMore_approximate :
  let r1 := Client.searchJobs (ClientSample.run_query ClientSample.one_job)
              ClientSample.first_of_one 50 in
  let r2 := Client.searchJobs (ClientSample.run_query ClientSample.two_jobs)
              ClientSample.first_of_one 50 in
  (Client.hasMore r1 = true ∧ Client.items r1 = ClientSample.one_job)
  ∧ (Client.total r2 = 1
     ∧ Forall (fun kv => Fn.j_status (snd kv) = job_approved) ClientSample.two_jobs
     ∧ length ClientSample.two_jobs = 2%nat).
Proof. cbv zeta. repeat split; repeat constructor. Qed.

(** C7, amended.  For a search served by [GET /api/jobs] over
    [MemStorage.searchJobs]: the page size is the requested limit, 20 when
    none is given, and never more than 100 (the store itself also defaults
    to 20); for a page number of at least 1 and a page size of at least 1
    the response holds at most that many items, namely the slice of the
    ordered result set that starts at [(page - 1) * limit]; [total] is the
    number of stored jobs that satisfy the filters; and [hasMore] is true
    exactly when the ordered result set has records beyond the returned
    page. *)
Theorem get_jobs_pagination (q : Mem.SearchQuery) (now : Z) (s : Mem.MemStorage) :
  1 <= Mem.route_page q → 1 <= Mem.route_limit q →
  ∃ r, Mem.get_jobs q now s = Mem.Json r
    ∧ let R := Mem.ordered (Mem.route_filters q) now s in
      Mem.page r = Mem.route_page q
      ∧ Mem.limit r = Mem.route_limit q
      ∧ Mem.limit r <= 100
      ∧ (Mem.q_limit q = None → Mem.limit r = 20)
      ∧ (∀ n, Mem.q_limit q = Some n → 100 < n → Mem.limit r = 100)
      ∧ Mem.limit (Mem.searchJobs (Mem.route_filters q) (Some (Mem.route_page q)) None now s) = 20
      ∧ Mem.items r
        = firstn (Z.to_nat (Mem.limit r))
            (skipn (Z.to_nat ((Mem.page r - 1) * Mem.limit r)) R)
      ∧ Z.of_nat (length (Mem.items r)) <= Mem.limit r
      ∧ Mem.total r
        = Z.of_nat (length (List.filter (satisfies (Mem.route_filters q) now)
                              (JsMap.values (Mem.jobs s))))
      ∧ (Mem.hasMore r = true
         ↔ skipn (Z.to_nat (Mem.page r * Mem.limit r)) R ≠ []).
Proof.
  intros Hp Hl. eexists. split; [reflexivity|]. cbv zeta.
  set (R := Mem.ordered (Mem.route_filters q) now s).
  assert (Mem.items (Mem.searchJobs (Mem.route_filters q) (Some (Mem.route_page q))
                       (Some (Mem.route_limit q)) now s)
          = firstn (Z.to_nat (Mem.route_limit q))
              (skipn (Z.to_nat ((Mem.route_page q - 1) * Mem.route_limit q)) R)) as Hitems.
  { apply searchJobs_items; lia. }
  repeat split.
  - unfold Mem.route_limit. simpl. lia.
  - intros Hnone. simpl. unfold Mem.route_limit. rewrite Hnone. reflexivity.
  - intros n Hn Hbig. simpl. unfold Mem.route_limit. rewrite Hn. simpl.
    destruct (Z.eqb_spec n 0); lia.
  - exact Hitems.
  - rewrite Hitems, length_firstn. simpl. lia.
  - simpl. fold R. subst R.
    rewrite (Permutation_length (ordered_Permutation _ _ _)).
    by rewrite matching_satisfies.
  - simpl. fold R. intros H. apply Z.ltb_lt in H.
    apply skipn_nonempty. nia.
  - simpl. fold R. intros H. apply skipn_nonempty in H.
    apply Z.ltb_lt. nia.
Qed.

Lemma get_jobs_pagination_witness :
  1 <= Mem.route_page SearchSample.no_query
  ∧ 1 <= Mem.route_limit SearchSample.no_query
  ∧ ∃ r, Mem.get_jobs SearchSample.no_query 50 (SearchSample.maths_jobs 3) = Mem.Json r
      ∧ Mem.limit r = 20 ∧ Mem.total r = 3 ∧ (Mem.hasMore r = true ↔ False).
Proof.
  split; [by vm_compute|]. split; [by vm_compute|].
  destruct (get_jobs_pagination SearchSample.no_query 50 (SearchSample.maths_jobs 3))
    as (r & Hr & _ & _ & _ & H20 & _ & _ & _ & _ & Htotal & Hmore);
    [by vm_compute | by vm_compute |].
  exists r. split; [exact Hr|]. split; [by apply H20|].
  split; [rewrite Htotal; reflexivity|].
  rewrite Hmore. injection Hr as <-. vm_compute. split; [intros H; by apply H | tauto].
Defined.

(** ** The Cloud Functions: what each call does to the store *)

Ltac unfold_M :=
  unfold Fn.try_catch_internal, Fn.doc_get, Fn.bind, Fn.ret, Fn.throw, Fn.read,
    Fn.when_, Fn.update_job, Fn.update_application, Fn.update_company,
    Fn.update_user, Fn.add_application, Fn.add_job, Fn.add_company,
    Fn.setCustomUserClaims, Fn.createAuditLog, Fn.set_jobs, Fn.set_applications,
    Fn.set_companies, Fn.set_users, Fn.set_auditLogs, Fn.set_authClaims in *.

(** Runs a handler body symbolically, one branch per path. *)
Ltac run_M :=
  repeat (first [progress unfold_M | case_match];
          simpl in *; simplify_eq; simpl in *; simplify_eq; try done).

Lemma has_dedupeKey_true key s :
  Fn.has_dedupeKey key s = true
  ↔ ∃ k d, Fn.applications s !! k = Some d ∧ Fn.a_dedupeKey d = key.
Proof.
  unfold Fn.has_dedupeKey. rewrite existsb_exists. split.
  - intros ([k d] & Hin & Heq). exists k, d.
    apply list_elem_of_In, elem_of_map_to_list in Hin.
    split; [done|]. by apply String.eqb_eq.
  - intros (k & d & Hk & Heq). exists (k, d). split.
    + by apply list_elem_of_In, elem_of_map_to_list.
    + by apply String.eqb_eq.
Qed.

Lemma has_dedupeKey_false key s :
  Fn.has_dedupeKey key s = false
  ↔ ∀ k d, Fn.applications s !! k = Some d → Fn.a_dedupeKey d ≠ key.
Proof.
  split.
  - intros Hf k d Hk Heq.
    assert (Fn.has_dedupeKey key s = true) as Ht
      by (apply has_dedupeKey_true; eauto).
    congruence.
  - intros Hall. destruct (Fn.has_dedupeKey key s) eqn:E; [|done].
    apply has_dedupeKey_true in E as (k & d & Hk & Heq).
    by destruct (Hall k d Hk).
Qed.

(** [applyToJob] either fails and leaves the store as it was, or it got
    past every check: then it has added the application under the new id
    and incremented the counter of the job (both, whatever happens later
    in the handler). *)
Lemma applyToJob_effect ctx jobId resumePath coverLetter nid now s :
  let r := Fn.applyToJob ctx jobId resumePath coverLetter nid now s in
  (snd r = s ∧ ∃ e, fst r = Err e)
  ∨ (∃ a jd,
       ctx = Some a
       ∧ Fn.jobs s !! jobId = Some jd
       ∧ Fn.j_status jd = job_approved
       ∧ (Fn.lastDate (Fn.j_data jd) <? now) = false
       ∧ Fn.has_dedupeKey (Fn.dedupeKey_of jobId (Fn.uid a)) s = false
       ∧ Fn.applications s !! nid = None
       ∧ Fn.jobs (snd r) = <[jobId := Fn.increment_applicationCount jd]> (Fn.jobs s)
       ∧ Fn.applications (snd r)
         = <[nid := Fn.new_application a jobId resumePath coverLetter
                      (Fn.dedupeKey_of jobId (Fn.uid a)) now]> (Fn.applications s)
       ∧ Fn.users (snd r) = Fn.users s
       ∧ Fn.companies (snd r) = Fn.companies s
       ∧ Fn.authClaims (snd r) = Fn.authClaims s).
Proof.
  cbv zeta. unfold Fn.applyToJob.
  destruct ctx as [a|]; [|left; eauto].
  destruct (_ && _); [|left; eauto].
  destruct (_ || _); [left; eauto|].
  unfold Fn.applyToJob_body.
  run_M; try (left; by eauto);
    right; eexists _, _; (repeat split; try done);
    by destruct (Fn.j_status _).
Qed.

Lemma createJob_effect ctx parsed nid now s :
  let r := Fn.createJob ctx parsed nid now s in
  Fn.applications (snd r) = Fn.applications s
  ∧ Fn.companies (snd r) = Fn.companies s
  ∧ Fn.users (snd r) = Fn.users s
  ∧ ((snd r = s ∧ ∃ e, fst r = Err e)
     ∨ (∃ a data,
          ctx = Some a ∧ parsed = Some data
          ∧ Fn.jobs s !! nid = None
          ∧ fst r = Ok nid
          ∧ Fn.jobs (snd r) = <[nid := Fn.new_job a data now]> (Fn.jobs s))).
Proof.
  cbv zeta. unfold Fn.createJob.
  destruct ctx as [a|]; [|by eauto 10].
  destruct (_ && _); [|by eauto 10].
  unfold Fn.createJob_body.
  run_M; (repeat split; try done); try (left; by eauto);
    right; eexists _, _; by repeat split.
Qed.

Lemma approveJob_effect ctx jobId now s :
  let r := Fn.approveJob ctx jobId now s in
  Fn.applications (snd r) = Fn.applications s
  ∧ Fn.companies (snd r) = Fn.companies s
  ∧ Fn.users (snd r) = Fn.users s
  ∧ ((snd r = s ∧ ∃ e, fst r = Err e)
     ∨ (∃ a jd,
          ctx = Some a ∧ Fn.has_role a "admin" = true
          ∧ Fn.jobs s !! jobId = Some jd
          ∧ Fn.jobs (snd r) = <[jobId := Fn.approve_job (Fn.uid a) now jd]> (Fn.jobs s))).
Proof.
  cbv zeta. unfold Fn.approveJob.
  destruct ctx as [a|]; [|by eauto 10].
  destruct (Fn.has_role a "admin") eqn:Hadmin; [|by eauto 10].
  destruct (String.eqb jobId ""); [by eauto 10|].
  unfold Fn.approveJob_body.
  run_M; (repeat split; try done); try (left; by eauto);
    right; eexists _, _; by repeat split.
Qed.

Lemma updateApplicationStatus_effect ctx appId status notes now s :
  let r := Fn.updateApplicationStatus ctx appId status notes now s in
  Fn.jobs (snd r) = Fn.jobs s
  ∧ Fn.companies (snd r) = Fn.companies s
  ∧ Fn.users (snd r) = Fn.users s
  ∧ ((snd r = s ∧ ∃ e, fst r = Err e)
     ∨ (∃ d, Fn.applications s !! appId = Some d
           ∧ existsb (String.eqb status) Fn.validStatuses = true
           ∧ Fn.applications (snd r)
             = <[appId := Fn.set_app_status status notes now d]> (Fn.applications s))).
Proof.
  cbv zeta. unfold Fn.updateApplicationStatus.
  destruct ctx as [a|]; [|by eauto 10].
  destruct (Fn.email_verified a); [|by eauto 10].
  destruct (_ || _) eqn:Hv; [by eauto 10|].
  apply orb_false_iff in Hv as [_ Hv]. apply negb_false_iff in Hv.
  unfold Fn.updateApplicationStatus_body.
  run_M; (repeat split; try done); try (left; by eauto);
    right; eexists; by repeat split.
Qed.

Lemma approveEmployerUpgrade_effect ctx uid_ companyId_ now s :
  let r := Fn.approveEmployerUpgrade ctx uid_ companyId_ now s in
  Fn.jobs (snd r) = Fn.jobs s
  ∧ Fn.applications (snd r) = Fn.applications s
  ∧ ((snd r = s ∧ ∃ e, fst r = Err e)
     ∨ (∃ a cd,
          ctx = Some a ∧ Fn.has_role a "admin" = true
          ∧ Fn.companies s !! companyId_ = Some cd
          ∧ Fn.companies (snd r)
            = <[companyId_ := Fn.approve_company now cd]> (Fn.companies s))).
Proof.
  cbv zeta. unfold Fn.approveEmployerUpgrade.
  destruct ctx as [a|]; [|by eauto 10].
  destruct (Fn.has_role a "admin") eqn:Hadmin; [|by eauto 10].
  destruct (_ || _); [by eauto 10|].
  unfold Fn.approveEmployerUpgrade_body.
  run_M; (repeat split; try done); try (left; by eauto);
    right; eexists _, _; by repeat split.
Qed.

Lemma requestEmployerUpgrade_effect ctx parsed nid now s :
  let r := Fn.requestEmployerUpgrade ctx parsed nid now s in
  Fn.jobs (snd r) = Fn.jobs s
  ∧ Fn.applications (snd r) = Fn.applications s
  ∧ (Fn.companies (snd r) = Fn.companies s
     ∨ (∃ a data,
          Fn.companies s !! nid = None
          ∧ Fn.companies (snd r)
            = <[nid := {| Fn.c_data := data; Fn.c_ownerUid := Fn.uid a;
                          Fn.c_status := company_pending;
                          Fn.c_createdAt := now; Fn.c_updatedAt := now |}]>
                (Fn.companies s))).
Proof.
  cbv zeta. unfold Fn.requestEmployerUpgrade.
  destruct ctx as [a|]; [|by auto].
  destruct (Fn.email_verified a); [|by auto].
  unfold Fn.requestEmployerUpgrade_body, Fn.owns_company.
  run_M; (repeat split; try done); try (left; by eauto);
    right; eexists _, _; by repeat split.
Qed.

Lemma signUp_effect uid_ dn em ev now s :
  let s' := Fn.onAuthUserCreate uid_ dn em ev now (Fn.auth_createUser uid_ s) in
  Fn.jobs s' = Fn.jobs s ∧ Fn.applications s' = Fn.applications s
  ∧ Fn.companies s' = Fn.companies s.
Proof.
  cbv zeta. unfold Fn.onAuthUserCreate, Fn.auth_createUser.
  repeat case_match; done.
Qed.

Lemma deleteUser_effect uid_ s :
  let r := Fn.deleteUser uid_ s in
  snd r = s
  ∨ (Fn.jobs (snd r) = filter (fun kv => Fn.j_posterUid (snd kv) ≠ uid_) (Fn.jobs s)
     ∧ Fn.applications (snd r)
       = filter (fun kv => Fn.a_applicantUid (snd kv) ≠ uid_) (Fn.applications s)
     ∧ Fn.companies (snd r)
       = filter (fun kv => Fn.c_ownerUid (snd kv) ≠ uid_) (Fn.companies s)).
Proof.
  cbv zeta. unfold Fn.deleteUser.
  repeat case_match; simpl; auto.
Qed.

(** ** Runs with calls in flight *)


Lemma requestEmployerUpgrade_check_store a parsed s :
  snd (Fn.requestEmployerUpgrade_check a parsed s) = s.
Proof. unfold Fn.requestEmployerUpgrade_check. by run_M. Qed.

(** The writes of [applyToJob], in whatever store they run: nothing when
    the id of the application is taken; else the application is added,
    and the counter of the job goes up by 1 if the job is still there. *)
Lemma applyToJob_write_effect a jobId resumePath coverLetter nid now jobData s :
  let s' := snd (Fn.applyToJob_write a jobId resumePath coverLetter nid now jobData s) in
  Fn.companies s' = Fn.companies s ∧ Fn.users s' = Fn.users s
  ∧ Fn.authClaims s' = Fn.authClaims s
  ∧ (s' = s
     ∨ (Fn.applications s !! nid = None
        ∧ Fn.applications s'
          = <[nid := Fn.new_application a jobId resumePath coverLetter
                       (Fn.dedupeKey_of jobId (Fn.uid a)) now]> (Fn.applications s)
        ∧ ((Fn.jobs s !! jobId = None ∧ Fn.jobs s' = Fn.jobs s)
           ∨ (∃ jd, Fn.jobs s !! jobId = Some jd
                    ∧ Fn.jobs s'
                      = <[jobId := Fn.increment_applicationCount jd]> (Fn.jobs s))))).
Proof.
  cbv zeta. unfold Fn.applyToJob_write.
  run_M; (repeat split; try done); try (by left);
    right; (split; [done|]); (split; [done|]); try (left; by split);
    right; by eexists.
Qed.

(** The writes of [requestEmployerUpgrade], in whatever store they run:
    nothing when the id of the company is taken, else the pending company
    is added. *)
Lemma requestEmployerUpgrade_write_effect a nid now validatedData s :
  let s' := snd (Fn.requestEmployerUpgrade_write a nid now validatedData s) in
  Fn.jobs s' = Fn.jobs s ∧ Fn.applications s' = Fn.applications s
  ∧ Fn.users s' = Fn.users s ∧ Fn.authClaims s' = Fn.authClaims s
  ∧ (s' = s
     ∨ (Fn.companies s !! nid = None
        ∧ Fn.companies s'
          = <[nid := {| Fn.c_data := validatedData; Fn.c_ownerUid := Fn.uid a;
                        Fn.c_status := company_pending;
                        Fn.c_createdAt := now; Fn.c_updatedAt := now |}]>
              (Fn.companies s))).
Proof.
  cbv zeta. unfold Fn.requestEmployerUpgrade_write.
  run_M; (repeat split; try done); try (by left); right; by split.
Qed.

Lemma reachable_empty : Fn.reachable Fn.empty.
Proof. exists []. constructor. Qed.

Lemma reachable_step s o now :
  Fn.reachable s → Fn.fresh o s → Fn.reachable (Fn.exec o now s).
Proof. intros [cs Hrun] Hf. exists cs. by constructor. Qed.

(** A call that passes its checks in a reachable state and writes at
    once leaves a reachable state. *)
Lemma reachable_finish s c :
  Fn.reachable s → Fn.admitted c → Fn.passes c s → Fn.reachable (Fn.finish c s).
Proof.
  intros [cs Hrun] Hc Hp. exists cs.
  apply (Fn.running_finish s [] c cs). by constructor.
Qed.

(** What holds of the empty database and is kept by every operation and
    by the writes of every admitted call, in whatever store they run,
    holds of every reachable state. *)
Lemma reachable_invariant (P : Fn.Store → Prop) :
  P Fn.empty →
  (∀ s o now, P s → Fn.fresh o s → P (Fn.exec o now s)) →
  (∀ s c, Fn.admitted c → P s → P (Fn.finish c s)) →
  ∀ s, Fn.reachable s → P s.
Proof.
  intros H0 Hstep Hfin s [cs Hrun].
  assert (P s ∧ Forall Fn.admitted cs) as [? _]; [|done].
  induction Hrun as [|s cs o now _ [IH Hcs] Hf|s cs c _ [IH Hcs] Hc _
                    |s cs1 c cs2 _ [IH Hcs]].
  - split; [done|constructor].
  - split; [by apply Hstep|done].
  - split; [done|by constructor].
  - apply Forall_app in Hcs as [H1 H2]. inversion H2 as [|? ? Hc H3]; subst.
    split; [by apply Hfin|]. apply Forall_app. by split.
Qed.


(** Two calls of [requestEmployerUpgrade] that overlap, from a reachable
    state, leave a reachable state. *)
Lemma overlapped_requestEmployerUpgrade_reachable a1 d1 n1 now1 a2 d2 n2 now2 s :
  Fn.reachable s →
  Fn.email_verified a1 = true → Fn.email_verified a2 = true →
  Fn.reachable
    (Fn.overlapped
       (Fn.requestEmployerUpgrade_check a1 (Some d1))
       (Fn.requestEmployerUpgrade_write a1 n1 now1)
       (Fn.requestEmployerUpgrade_check a2 (Some d2))
       (Fn.requestEmployerUpgrade_write a2 n2 now2) s).2.
Proof.
  intros [cs Hrun] Hv1 Hv2. unfold Fn.overlapped, Fn.bind.
  assert (∀ a d x s1, Fn.requestEmployerUpgrade_check a (Some d) s = (Fn.Return x, s1) →
                      x = d ∧ s1 = s) as Hret.
  { intros a d x s1. unfold Fn.requestEmployerUpgrade_check. run_M. by intros [= <- <-]. }
  pose proof (requestEmployerUpgrade_check_store a1 (Some d1) s) as E1.
  pose proof (requestEmployerUpgrade_check_store a2 (Some d2) s) as E2.
  destruct (Fn.requestEmployerUpgrade_check a1 (Some d1) s) as [[x1|e1] s1] eqn:C1;
    simpl in E1; subst s1;
    destruct (Fn.requestEmployerUpgrade_check a2 (Some d2) s) as [[x2|e2] s2] eqn:C2;
    simpl in E2; subst s2;
    try (destruct (Hret _ _ _ _ C1) as [-> _]);
    try (destruct (Hret _ _ _ _ C2) as [-> _]).
  - destruct (Fn.requestEmployerUpgrade_write a1 n1 now1 d1 s) as [t1 s3] eqn:W1.
    destruct (Fn.requestEmployerUpgrade_write a2 n2 now2 d2 s3) as [t2 s4] eqn:W2.
    simpl. exists cs.
    replace s4 with (Fn.finish (Fn.RequestingUpgrade a2 n2 now2 d2) s3)
      by (simpl; by rewrite W2).
    apply (Fn.running_finish s3 [] _ cs). simpl.
    replace s3 with (Fn.finish (Fn.RequestingUpgrade a1 n1 now1 d1) s)
      by (simpl; by rewrite W1).
    apply (Fn.running_finish s [_] _ cs). simpl.
    apply Fn.running_check; [|done|done].
    by apply Fn.running_check.
  - destruct (Fn.requestEmployerUpgrade_write a1 n1 now1 d1 s) as [t1 s3] eqn:W1.
    simpl.
    replace s3 with (Fn.finish (Fn.RequestingUpgrade a1 n1 now1 d1) s)
      by (simpl; by rewrite W1).
    apply reachable_finish; [by exists cs|done|done].
  - destruct (Fn.requestEmployerUpgrade_write a2 n2 now2 d2 s) as [t2 s3] eqn:W2.
    simpl.
    replace s3 with (Fn.finish (Fn.RequestingUpgrade a2 n2 now2 d2) s)
      by (simpl; by rewrite W2).
    apply reachable_finish; [by exists cs|done|done].
  - simpl. by exists cs.
Qed.

(** ** C10: the statuses [updateApplicationStatus] accepts *)

Lemma valid_status_In status :
  existsb (String.eqb status) Fn.validStatuses = true ↔ In status Fn.validStatuses.
Proof.
  rewrite existsb_exists. split.
  - intros (x & Hin & Heq). apply String.eqb_eq in Heq. by subst.
  - intros Hin. exists status. split; [done|]. apply String.eqb_refl.
Qed.

(** C10, as the claim states it, fails for a caller who is not signed in:
    the authentication gate answers first, with [unauthenticated]. *)
Lemma updateApplicationStatus_gate_first :
  fst (Fn.updateApplicationStatus None "a1" "withdrawn" "" 30 FnSample.applied)
  = Err unauthenticated
  ∧ fst (Fn.updateApplicationStatus None "a1" "withdrawn" "" 30 FnSample.applied)
    ≠ Err invalid_argument.
Proof. split; [reflexivity|discriminate]. Qed.

(** C10, amended.  [updateApplicationStatus] accepts the requested status
    only if it is one of reviewed, shortlisted, rejected, offered.  For a
    caller who is signed in with a verified e-mail, a request for
    [withdrawn], [submitted] or any other value fails with
    [invalid-argument], whatever the caller's role and before the
    application is read, the permission check and any mutation; a caller
    who is not signed in or not verified gets [unauthenticated] first.  In
    both cases the store is unchanged, so no application enters the
    withdrawn state (or any state outside the four) through this
    operation. *)
Theorem updateApplicationStatus_status_check
    (ctx : option Fn.Auth) (appId status notes : string) (now : Z) (s : Fn.Store) :
  let r := Fn.updateApplicationStatus ctx appId status notes now s in
  (is_ok (fst r) = true → In status Fn.validStatuses)
  ∧ (¬ In status Fn.validStatuses →
     snd r = s
     ∧ fst r = Err (match ctx with
                    | Some a => if Fn.email_verified a then invalid_argument
                                else unauthenticated
                    | None => unauthenticated
                    end))
  ∧ (∀ id d', Fn.applications (snd r) !! id = Some d' →
              ¬ In (Fn.a_status d') Fn.validStatuses →
              Fn.applications s !! id = Some d').
Proof.
  cbv zeta. split; [|split].
  - unfold Fn.updateApplicationStatus.
    destruct ctx as [a|]; [|done].
    destruct (Fn.email_verified a); [|done].
    destruct (_ || _) eqn:Hv; [done|]. intros _.
    apply orb_false_iff in Hv as [_ Hv]. apply negb_false_iff in Hv.
    by apply valid_status_In.
  - intros Hnot. unfold Fn.updateApplicationStatus.
    destruct ctx as [a|]; [|done].
    destruct (Fn.email_verified a); [|done].
    assert (existsb (String.eqb status) Fn.validStatuses = false) as ->.
    { destruct (existsb _ _) eqn:E; [|done]. by apply valid_status_In in E. }
    by rewrite orb_true_r.
  - intros id d' Hd' Hnot.
    destruct (updateApplicationStatus_effect ctx appId status notes now s)
      as (_ & _ & _ & [[Hs _]|(d & Hd & Hv & Happs)]);
      [by rewrite Hs in Hd'|].
    rewrite Happs in Hd'.
    destruct (decide (appId = id)) as [->|Hne].
    + rewrite lookup_insert_eq in Hd'. injection Hd' as <-.
      simpl in Hnot. by apply valid_status_In in Hv.
    + by rewrite lookup_insert_ne in Hd'.
Qed.

Lemma updateApplicationStatus_status_check_witness :
  ¬ In "withdrawn" Fn.validStatuses
  ∧ Fn.updateApplicationStatus (Some FnSample.emma) "a1" "withdrawn" "" 30 FnSample.applied
    = (Err invalid_argument, FnSample.applied).
Proof.
  assert (¬ In "withdrawn" Fn.validStatuses) as Hnot.
  { simpl. intros [H|[H|[H|[H|[]]]]]; discriminate. }
  split; [exact Hnot|].
  destruct (updateApplicationStatus_status_check (Some FnSample.emma) "a1"
              "withdrawn" "" 30 FnSample.applied) as (_ & H & _).
  destruct (H Hnot) as [Hs Hr].
  rewrite (surjective_pairing (Fn.updateApplicationStatus _ _ _ _ _ _)).
  by rewrite Hs, Hr.
Defined.

(** ** What the storage updates and the handlers change *)

Lemma num_or_succ n : num_or (Some n) 0 + 1 = n + 1.
Proof. unfold num_or. destruct (Z.eqb_spec n 0); lia. Qed.

Lemma getJob_updateJob id f now s k :
  Mem.getJob k (snd (Mem.updateJob id f now s))
  = if String.eqb id k
    then (fun j => Mem.touch_job (f j) now) <$> Mem.getJob id s
    else Mem.getJob k s.
Proof.
  unfold Mem.updateJob, Mem.getJob.
  destruct (String.eqb id k) eqn:E.
  - apply String.eqb_eq in E. subst k.
    destruct (JsMap.get id (Mem.jobs s)) as [j|] eqn:Hj; simpl; [|done].
    by rewrite get_set_eq.
  - apply String.eqb_neq in E.
    destruct (JsMap.get id (Mem.jobs s)) as [j|] eqn:Hj; simpl; [|done].
    by rewrite get_set_ne.
Qed.

Lemma updateJob_frame id f now s :
  let s' := snd (Mem.updateJob id f now s) in
  Mem.applications s' = Mem.applications s ∧ Mem.users s' = Mem.users s
  ∧ Mem.companies s' = Mem.companies s ∧ Mem.auditLogs s' = Mem.auditLogs s.
Proof. cbv zeta. unfold Mem.updateJob. by destruct (JsMap.get _ _). Qed.

Lemma getCompany_updateCompany id f now s k :
  Mem.getCompany k (snd (Mem.updateCompany id f now s))
  = if String.eqb id k
    then (fun c => Mem.touch_company (f c) now) <$> Mem.getCompany id s
    else Mem.getCompany k s.
Proof.
  unfold Mem.updateCompany, Mem.getCompany.
  destruct (String.eqb id k) eqn:E.
  - apply String.eqb_eq in E. subst k.
    destruct (JsMap.get id (Mem.companies s)) as [c|] eqn:Hc; simpl; [|done].
    by rewrite get_set_eq.
  - apply String.eqb_neq in E.
    destruct (JsMap.get id (Mem.companies s)) as [c|] eqn:Hc; simpl; [|done].
    by rewrite get_set_ne.
Qed.

Lemma updateCompany_frame id f now s :
  let s' := snd (Mem.updateCompany id f now s) in
  Mem.applications s' = Mem.applications s ∧ Mem.users s' = Mem.users s
  ∧ Mem.jobs s' = Mem.jobs s ∧ Mem.auditLogs s' = Mem.auditLogs s.
Proof. cbv zeta. unfold Mem.updateCompany. by destruct (JsMap.get _ _). Qed.

Ltac unfold_handlers :=
  unfold Mem.handle, Mem.post_companies, Mem.put_company, Mem.patch_company_status,
    Mem.post_jobs, Mem.get_job, Mem.patch_job_status, Mem.post_applications,
    Mem.guard, Mem.createCompany, Mem.updateCompany, Mem.createJob, Mem.updateJob,
    Mem.createAuditLog, Mem.createApplication, Mem.set_companies, Mem.set_jobs,
    Mem.set_applications, Mem.set_auditLogs in *.

Ltac admin_facts :=
  repeat match goal with
  | H : _ || false = true |- _ => rewrite orb_false_r in H
  | H : (_ =? _)%string = true |- _ => apply String.eqb_eq in H
  | H : negb _ = false |- _ => apply negb_false_iff in H
  end.

Ltac run_handler :=
  unfold_handlers;
  repeat (case_match; simpl in *; simplify_eq; simpl in *; simplify_eq).

(** The jobs after a request: unchanged; or a new pending job, from
    [POST /api/jobs]; or one stored job updated with its status kept; or
    one stored job set to approved or rejected, by the status request of
    a verified admin. *)
Lemma handle_jobs r now s :
  Mem.jobs (Mem.handle r now s) = Mem.jobs s
  ∨ (∃ user body id j',
       r = Mem.PostJob user body id ∧ Mem.job_status j' = job_pending
       ∧ Mem.jobs (Mem.handle r now s) = JsMap.set id j' (Mem.jobs s))
  ∨ (∃ k j j',
       JsMap.get k (Mem.jobs s) = Some j ∧ Mem.job_status j' = Mem.job_status j
       ∧ Mem.jobs (Mem.handle r now s) = JsMap.set k j' (Mem.jobs s))
  ∨ (∃ u jobId status logId j j',
       r = Mem.PatchJobStatus (Some u) jobId status logId
       ∧ Mem.email_verified u = true ∧ str_or (Mem.role u) "seeker" = "admin"
       ∧ ((status = "approved" ∧ Mem.job_status j' = job_approved)
          ∨ (status = "rejected" ∧ Mem.job_status j' = job_rejected))
       ∧ JsMap.get jobId (Mem.jobs s) = Some j
       ∧ Mem.jobs (Mem.handle r now s) = JsMap.set jobId j' (Mem.jobs s)).
Proof.
  destruct r.
  - left. by run_handler.
  - left. by run_handler.
  - left. by run_handler.
  - run_handler; try (by left). right. left.
    eexists _, _, _, _. split; [reflexivity|]. split; [|reflexivity]. reflexivity.
  - run_handler; try (by left); right; right; left;
      (eexists _, _, _; split; [eassumption|]; split; [|reflexivity]; reflexivity).
  - run_handler; try (by left).
    + right. right. right.
      admin_facts. subst.
      eexists _, _, _, _, _, _. split; [reflexivity|]. split; [done|]. split; [done|].
      split; [|split; [eassumption|reflexivity]]. by left.
    + right. right. right.
      admin_facts. subst.
      eexists _, _, _, _, _, _. split; [reflexivity|]. split; [done|]. split; [done|].
      split; [|split; [eassumption|reflexivity]]. by right.
  - run_handler; try (by left); right; right; left;
      (eexists _, _, _; split; [eassumption|]; split; [|reflexivity]; reflexivity).
Qed.

(** A request changes the status of a stored job only if it is the
    status request of a verified admin for that job, and then to the
    status it names. *)
Lemma handle_job_status r now s id job job' :
  Mem.fresh_id r s →
  Mem.getJob id s = Some job →
  Mem.getJob id (Mem.handle r now s) = Some job' →
  Mem.job_status job' = Mem.job_status job
  ∨ (∃ u status logId,
       r = Mem.PatchJobStatus (Some u) id status logId
       ∧ Mem.email_verified u = true ∧ str_or (Mem.role u) "seeker" = "admin"
       ∧ ((status = "approved" ∧ Mem.job_status job' = job_approved)
          ∨ (status = "rejected" ∧ Mem.job_status job' = job_rejected))).
Proof.
  intros Hfresh Hjob. unfold Mem.getJob in *.
  destruct (handle_jobs r now s)
    as [->|[(user & body & k & j' & -> & Hst & ->)
       |[(k & j & j' & Hj & Hst & ->)
        |(u & k & status & logId & j & j' & -> & Hv & Hr & Hst & Hj & ->)]]].
  - left. congruence.
  - simpl in Hfresh. unfold Mem.getJob in Hfresh.
    destruct (decide (k = id)) as [->|Hne]; [congruence|].
    rewrite get_set_ne by done. left. congruence.
  - destruct (decide (k = id)) as [->|Hne].
    + rewrite get_set_eq. intros [= <-]. left. congruence.
    + rewrite get_set_ne by done. left. congruence.
  - destruct (decide (k = id)) as [->|Hne].
    + rewrite get_set_eq. intros [= <-]. right. by exists u, status, logId.
    + rewrite get_set_ne by done. left. congruence.
Qed.

(** A request that stores a job under a new id stores it as pending. *)
Lemma handle_job_created r now s id job' :
  Mem.getJob id s = None →
  Mem.getJob id (Mem.handle r now s) = Some job' →
  Mem.job_status job' = job_pending.
Proof.
  intros Hnone. unfold Mem.getJob in *.
  destruct (handle_jobs r now s)
    as [->|[(user & body & k & j' & -> & Hst & ->)
       |[(k & j & j' & Hj & Hst & ->)
        |(u & k & status & logId & j & j' & -> & Hv & Hr & Hst & Hj & ->)]]].
  - congruence.
  - destruct (decide (k = id)) as [->|Hne].
    + rewrite get_set_eq. by intros [= <-].
    + rewrite get_set_ne by done. congruence.
  - destruct (decide (k = id)) as [->|Hne]; [congruence|].
    rewrite get_set_ne by done. congruence.
  - destruct (decide (k = id)) as [->|Hne]; [congruence|].
    rewrite get_set_ne by done. congruence.
Qed.

(** The companies after a request: unchanged; or a new pending company,
    from [POST /api/companies]; or one stored company updated with its
    status kept; or one stored company set to approved or rejected, by
    the status request of a verified admin. *)
Lemma handle_companies r now s :
  Mem.companies (Mem.handle r now s) = Mem.companies s
  ∨ (∃ user body id c',
       r = Mem.PostCompany user body id ∧ Mem.company_status c' = company_pending
       ∧ Mem.companies (Mem.handle r now s) = JsMap.set id c' (Mem.companies s))
  ∨ (∃ k c c',
       JsMap.get k (Mem.companies s) = Some c
       ∧ Mem.company_status c' = Mem.company_status c
       ∧ Mem.companies (Mem.handle r now s) = JsMap.set k c' (Mem.companies s))
  ∨ (∃ u companyId_ status logId c c',
       r = Mem.PatchCompanyStatus (Some u) companyId_ status logId
       ∧ Mem.email_verified u = true ∧ str_or (Mem.role u) "seeker" = "admin"
       ∧ ((status = "approved" ∧ Mem.company_status c' = company_approved)
          ∨ (status = "rejected" ∧ Mem.company_status c' = company_rejected))
       ∧ JsMap.get companyId_ (Mem.companies s) = Some c
       ∧ Mem.companies (Mem.handle r now s) = JsMap.set companyId_ c' (Mem.companies s)).
Proof.
  destruct r.
  - run_handler; try (by left). right. left.
    eexists _, _, _, _. split; [reflexivity|]. split; [|reflexivity]. reflexivity.
  - run_handler; try (by left); right; right; left;
      (eexists _, _, _; split; [eassumption|]; split; [|reflexivity]; reflexivity).
  - run_handler; try (by left).
    + right. right. right.
      admin_facts. subst.
      eexists _, _, _, _, _, _. split; [reflexivity|]. split; [done|]. split; [done|].
      split; [|split; [eassumption|reflexivity]]. by left.
    + right. right. right.
      admin_facts. subst.
      eexists _, _, _, _, _, _. split; [reflexivity|]. split; [done|]. split; [done|].
      split; [|split; [eassumption|reflexivity]]. by right.
  - left. by run_handler.
  - left. by run_handler.
  - left. by run_handler.
  - left. by run_handler.
Qed.

Lemma handle_company_status r now s id c c' :
  Mem.fresh_id r s →
  Mem.getCompany id s = Some c →
  Mem.getCompany id (Mem.handle r now s) = Some c' →
  Mem.company_status c' = Mem.company_status c
  ∨ (∃ u status logId,
       r = Mem.PatchCompanyStatus (Some u) id status logId
       ∧ Mem.email_verified u = true ∧ str_or (Mem.role u) "seeker" = "admin"
       ∧ ((status = "approved" ∧ Mem.company_status c' = company_approved)
          ∨ (status = "rejected" ∧ Mem.company_status c' = company_rejected))).
Proof.
  intros Hfresh Hc. unfold Mem.getCompany in *.
  destruct (handle_companies r now s)
    as [->|[(user & body & k & j' & -> & Hst & ->)
       |[(k & j & j' & Hj & Hst & ->)
        |(u & k & status & logId & j & j' & -> & Hv & Hr & Hst & Hj & ->)]]].
  - left. congruence.
  - simpl in Hfresh. unfold Mem.getCompany in Hfresh.
    destruct (decide (k = id)) as [->|Hne]; [congruence|].
    rewrite get_set_ne by done. left. congruence.
  - destruct (decide (k = id)) as [->|Hne].
    + rewrite get_set_eq. intros [= <-]. left. congruence.
    + rewrite get_set_ne by done. left. congruence.
  - destruct (decide (k = id)) as [->|Hne].
    + rewrite get_set_eq. intros [= <-]. right. by exists u, status, logId.
    + rewrite get_set_ne by done. left. congruence.
Qed.

Lemma handle_company_created r now s id c' :
  Mem.getCompany id s = None →
  Mem.getCompany id (Mem.handle r now s) = Some c' →
  Mem.company_status c' = company_pending.
Proof.
  intros Hnone. unfold Mem.getCompany in *.
  destruct (handle_companies r now s)
    as [->|[(user & body & k & j' & -> & Hst & ->)
       |[(k & j & j' & Hj & Hst & ->)
        |(u & k & status & logId & j & j' & -> & Hv & Hr & Hst & Hj & ->)]]].
  - congruence.
  - destruct (decide (k = id)) as [->|Hne].
    + rewrite get_set_eq. by intros [= <-].
    + rewrite get_set_ne by done. congruence.
  - destruct (decide (k = id)) as [->|Hne]; [congruence|].
    rewrite get_set_ne by done. congruence.
  - destruct (decide (k = id)) as [->|Hne]; [congruence|].
    rewrite get_set_ne by done. congruence.
Qed.

(** ** C3: the status of a job *)

Lemma expire_not_overdue now now' d :
  Fn.is_overdue now' (Fn.expire_job now d) = false.
Proof. reflexivity. Qed.

Lemma expireJobs_idempotent now s :
  Fn.expireJobs now (Fn.expireJobs now s) = Fn.expireJobs now s.
Proof.
  unfold Fn.expireJobs, Fn.set_jobs. simpl. f_equal.
  rewrite <- map_fmap_compose. apply map_fmap_ext. intros id d _. simpl.
  destruct (Fn.is_overdue now d) eqn:E.
  - by rewrite expire_not_overdue.
  - by rewrite E.
Qed.

Lemma patch_job_status_sets (u : Mem.UserPayload) jobId status logId now s job :
  Mem.email_verified u = true →
  str_or (Mem.role u) "seeker" = "admin" →
  status = "approved" ∨ status = "rejected" →
  Mem.getJob jobId s = Some job →
  Mem.job_status
    <$> Mem.getJob jobId (snd (Mem.patch_job_status (Some u) jobId status logId now s))
  = Some (if String.eqb status "approved" then job_approved else job_rejected).
Proof.
  intros Hv Hrole Hst Hjob. unfold Mem.patch_job_status, Mem.guard.
  rewrite Hv, Hrole. simpl.
  unfold Mem.updateJob. unfold Mem.getJob in Hjob. rewrite Hjob.
  destruct Hst as [-> | ->]; simpl; unfold Mem.getJob; simpl;
    by rewrite get_set_eq.
Qed.

(** C3, as the claim states it, fails: [approveJob] has no check on the
    current status.  On the Cloud Functions side it sets an expired job
    back to approved; on the Express side the status handler approves a
    job it had rejected. *)
Lemma approveJob_ignores_current_status :
  (Fn.j_status <$> Fn.jobs FnSample.swept !! "j1" = Some job_expired
   ∧ fst (Fn.approveJob (Some FnSample.root) "j1" 3000 FnSample.swept) = Ok tt
   ∧ Fn.j_status
       <$> Fn.jobs (snd (Fn.approveJob (Some FnSample.root) "j1" 3000 FnSample.swept)) !! "j1"
     = Some job_approved)
  ∧ (let rejected :=
       snd (Mem.patch_job_status (Some Sample.admin_user) "j1" "rejected" "log2" 30
              Sample.mem_pending_job) in
     Mem.job_status <$> Mem.getJob "j1" rejected = Some job_rejected
     ∧ Mem.job_status
         <$> Mem.getJob "j1"
               (snd (Mem.patch_job_status (Some Sample.admin_user) "j1" "approved" "log3" 40
                       rejected))
       = Some job_approved).
Proof. cbv zeta. repeat split; by vm_compute. Qed.

(** C3, amended.  A job is created pending.  [approveJob], called by an
    admin, sets the status of an existing job to approved whatever its
    current status (pending, approved, rejected or expired); the Express
    status handler, called by a verified admin, likewise sets approved or
    rejected from any status.  Apart from that, the only change of status
    is approved to expired, by the sweep, for a job whose deadline is
    before the time of the sweep: a Cloud Function call changes the status
    of a stored job only if it is [approveJob] for that job by a caller
    with the admin role, or the sweep; an Express request, a new record
    getting an id that is not in use, changes it only if it is the status
    request of a verified admin for that job, and a job an Express request
    creates is pending.  The sweep is idempotent, and it leaves jobs that
    are already expired as they are. *)
Theorem job_status_transitions :
  (∀ a jobId now s jd,
     Fn.has_role a "admin" = true → jobId ≠ "" →
     Fn.jobs s !! jobId = Some jd →
     Fn.j_status <$> Fn.jobs (snd (Fn.approveJob (Some a) jobId now s)) !! jobId
     = Some job_approved)
  ∧ (∀ (u : Mem.UserPayload) jobId status logId now s job,
       Mem.email_verified u = true →
       str_or (Mem.role u) "seeker" = "admin" →
       status = "approved" ∨ status = "rejected" →
       Mem.getJob jobId s = Some job →
       Mem.job_status
         <$> Mem.getJob jobId (snd (Mem.patch_job_status (Some u) jobId status logId now s))
       = Some (if String.eqb status "approved" then job_approved else job_rejected))
  ∧ (∀ o now s id jd',
       Fn.jobs s !! id = None → Fn.jobs (Fn.exec o now s) !! id = Some jd' →
       Fn.j_status jd' = job_pending)
  ∧ (∀ o now s id jd jd',
       Fn.jobs s !! id = Some jd → Fn.jobs (Fn.exec o now s) !! id = Some jd' →
       Fn.j_status jd' = Fn.j_status jd
       ∨ (∃ a, o = Fn.ApproveJob (Some a) id ∧ Fn.has_role a "admin" = true
               ∧ Fn.j_status jd' = job_approved)
       ∨ (o = Fn.ExpireJobs ∧ Fn.j_status jd = job_approved
          ∧ Fn.lastDate (Fn.j_data jd) < now ∧ Fn.j_status jd' = job_expired))
  ∧ (∀ now s, Fn.expireJobs now (Fn.expireJobs now s) = Fn.expireJobs now s)
  ∧ (∀ now s id jd,
       Fn.jobs s !! id = Some jd → Fn.j_status jd = job_expired →
       Fn.jobs (Fn.expireJobs now s) !! id = Some jd)
  ∧ (∀ r now s id job',
       Mem.getJob id s = None → Mem.getJob id (Mem.handle r now s) = Some job' →
       Mem.job_status job' = job_pending)
  ∧ (∀ r now s id job job',
       Mem.fresh_id r s →
       Mem.getJob id s = Some job → Mem.getJob id (Mem.handle r now s) = Some job' →
       Mem.job_status job' = Mem.job_status job
       ∨ (∃ u status logId,
            r = Mem.PatchJobStatus (Some u) id status logId
            ∧ Mem.email_verified u = true ∧ str_or (Mem.role u) "seeker" = "admin"
            ∧ ((status = "approved" ∧ Mem.job_status job' = job_approved)
               ∨ (status = "rejected" ∧ Mem.job_status job' = job_rejected)))).
Proof.
  split; [|split; [|split; [|split; [|split; [|split; [|split]]]]]].
  - intros a jobId now s jd Hadmin Hne Hjd. unfold Fn.approveJob.
    rewrite Hadmin. apply String.eqb_neq in Hne. rewrite Hne.
    unfold Fn.approveJob_body.
    run_M; simpl; by rewrite lookup_insert_eq.
  - apply patch_job_status_sets.
  - intros o now s id jd' Hnone Hjd'. destruct o; simpl in Hjd'.
    + destruct (signUp_effect uid_ displayName email emailVerified now s) as [Hj _].
      rewrite Hj in Hjd'. congruence.
    + destruct (requestEmployerUpgrade_effect ctx parsed nid now s) as [Hj _].
      rewrite Hj in Hjd'. congruence.
    + destruct (approveEmployerUpgrade_effect ctx uid_ companyId_ now s) as [Hj _].
      rewrite Hj in Hjd'. congruence.
    + destruct (createJob_effect ctx parsed nid now s)
        as (_ & _ & _ & [[Hs _]|(a & data & _ & _ & _ & _ & Hj)]).
      * rewrite Hs in Hjd'. congruence.
      * rewrite Hj in Hjd'. destruct (decide (nid = id)) as [->|Hne].
        -- rewrite lookup_insert_eq in Hjd'. by injection Hjd' as <-.
        -- rewrite lookup_insert_ne in Hjd' by done. congruence.
    + destruct (approveJob_effect ctx jobId now s)
        as (_ & _ & _ & [[Hs _]|(a & jd & _ & _ & Hjd & Hj)]).
      * rewrite Hs in Hjd'. congruence.
      * rewrite Hj in Hjd'. destruct (decide (jobId = id)) as [->|Hne]; [congruence|].
        rewrite lookup_insert_ne in Hjd' by done. congruence.
    + destruct (applyToJob_effect ctx jobId resumePath coverLetter nid now s)
        as [[Hs _]|(a & jd & _ & Hjd & _ & _ & _ & _ & Hj & _)].
      * rewrite Hs in Hjd'. congruence.
      * rewrite Hj in Hjd'. destruct (decide (jobId = id)) as [->|Hne]; [congruence|].
        rewrite lookup_insert_ne in Hjd' by done. congruence.
    + rewrite lookup_fmap, Hnone in Hjd'. done.
    + destruct (updateApplicationStatus_effect ctx applicationId status notes now s)
        as [Hj _].
      rewrite Hj in Hjd'. congruence.
    + destruct (deleteUser_effect uid_ s) as [Hs|[Hj _]].
      * rewrite Hs in Hjd'. congruence.
      * rewrite Hj in Hjd'. apply map_lookup_filter_Some in Hjd' as [? _]. congruence.
  - intros o now s id jd jd' Hjd Hjd'. destruct o; simpl in Hjd'.
    + destruct (signUp_effect uid_ displayName email emailVerified now s) as [Hj _].
      rewrite Hj in Hjd'. left. congruence.
    + destruct (requestEmployerUpgrade_effect ctx parsed nid now s) as [Hj _].
      rewrite Hj in Hjd'. left. congruence.
    + destruct (approveEmployerUpgrade_effect ctx uid_ companyId_ now s) as [Hj _].
      rewrite Hj in Hjd'. left. congruence.
    + destruct (createJob_effect ctx parsed nid now s)
        as (_ & _ & _ & [[Hs _]|(a & data & _ & _ & Hfree & _ & Hj)]).
      * rewrite Hs in Hjd'. left. congruence.
      * rewrite Hj in Hjd'. destruct (decide (nid = id)) as [->|Hne]; [congruence|].
        rewrite lookup_insert_ne in Hjd' by done. left. congruence.
    + destruct (approveJob_effect ctx jobId now s)
        as (_ & _ & _ & [[Hs _]|(a & jd0 & -> & Hadmin & Hjd0 & Hj)]).
      * rewrite Hs in Hjd'. left. congruence.
      * rewrite Hj in Hjd'. destruct (decide (jobId = id)) as [->|Hne].
        -- rewrite lookup_insert_eq in Hjd'. injection Hjd' as <-.
           right. left. exists a. by repeat split.
        -- rewrite lookup_insert_ne in Hjd' by done. left. congruence.
    + destruct (applyToJob_effect ctx jobId resumePath coverLetter nid now s)
        as [[Hs _]|(a & jd0 & _ & Hjd0 & _ & _ & _ & _ & Hj & _)].
      * rewrite Hs in Hjd'. left. congruence.
      * rewrite Hj in Hjd'. destruct (decide (jobId = id)) as [->|Hne].
        -- rewrite lookup_insert_eq in Hjd'. injection Hjd' as <-.
           left. simpl. congruence.
        -- rewrite lookup_insert_ne in Hjd' by done. left. congruence.
    + rewrite lookup_fmap, Hjd in Hjd'. simpl in Hjd'. injection Hjd' as <-.
      destruct (Fn.is_overdue now jd) eqn:E; [|by left].
      right. right. unfold Fn.is_overdue in E.
      apply andb_true_iff in E as [Hst Hlt]. apply Z.ltb_lt in Hlt.
      repeat split; [|done].
      by destruct (Fn.j_status jd).
    + destruct (updateApplicationStatus_effect ctx applicationId status notes now s)
        as [Hj _].
      rewrite Hj in Hjd'. left. congruence.
    + destruct (deleteUser_effect uid_ s) as [Hs|[Hj _]].
      * rewrite Hs in Hjd'. left. congruence.
      * rewrite Hj in Hjd'. apply map_lookup_filter_Some in Hjd' as [? _].
        left. congruence.
  - apply expireJobs_idempotent.
  - intros now s id jd Hjd Hst. unfold Fn.expireJobs. simpl.
    rewrite lookup_fmap, Hjd. simpl. unfold Fn.is_overdue. by rewrite Hst.
  - apply handle_job_created.
  - apply handle_job_status.
Qed.

Lemma job_status_transitions_witness :
  Fn.has_role FnSample.root "admin" = true
  ∧ Fn.j_status <$> Fn.jobs FnSample.swept !! "j1" = Some job_expired
  ∧ Fn.j_status
      <$> Fn.jobs (snd (Fn.approveJob (Some FnSample.root) "j1" 3000 FnSample.swept)) !! "j1"
    = Some job_approved
  ∧ Fn.expireJobs 2000 FnSample.swept = FnSample.swept.
Proof.
  split; [reflexivity|]. split; [reflexivity|].
  destruct job_status_transitions as (Happrove & _ & _ & _ & Hidem & _).
  split.
  - destruct (Fn.jobs FnSample.swept !! "j1") as [jd|] eqn:Hjd; [|by vm_compute in Hjd].
    apply (Happrove FnSample.root "j1" 3000 FnSample.swept jd); [reflexivity|done|exact Hjd].
  - apply (Hidem 2000 FnSample.applied).
Defined.

(** ** C4: the status of a company *)

Lemma patch_company_status_sets (u : Mem.UserPayload) companyId_ status logId now s company :
  Mem.email_verified u = true →
  str_or (Mem.role u) "seeker" = "admin" →
  status = "approved" ∨ status = "rejected" →
  Mem.getCompany companyId_ s = Some company →
  Mem.company_status
    <$> Mem.getCompany companyId_
          (snd (Mem.patch_company_status (Some u) companyId_ status logId now s))
  = Some (if String.eqb status "approved" then company_approved else company_rejected).
Proof.
  intros Hv Hrole Hst Hc. unfold Mem.patch_company_status, Mem.guard.
  rewrite Hv, Hrole. simpl.
  unfold Mem.updateCompany. unfold Mem.getCompany in Hc. rewrite Hc.
  destruct Hst as [-> | ->]; simpl; unfold Mem.getCompany; simpl;
    by rewrite get_set_eq.
Qed.

(** C4, as the claim states it, fails: approving a company that is
    already approved is not rejected, it succeeds again; and the Express
    status handler approves a company it had rejected. *)
Lemma approveCompany_ignores_current_status :
  (Fn.c_status <$> Fn.companies FnSample.job_open !! "c1" = Some company_approved
   ∧ fst (Fn.approveEmployerUpgrade (Some FnSample.root) "emma" "c1" 30 FnSample.job_open)
     = Ok tt)
  ∧ (let rejected :=
       snd (Mem.patch_company_status (Some Sample.admin_user) "c1" "rejected" "log1" 10
              Sample.mem_pending_company) in
     Mem.company_status <$> Mem.getCompany "c1" rejected = Some company_rejected
     ∧ Mem.company_status
         <$> Mem.getCompany "c1"
               (snd (Mem.patch_company_status (Some Sample.admin_user) "c1" "approved"
                       "log2" 20 rejected))
       = Some company_approved).
Proof. cbv zeta. repeat split; by vm_compute. Qed.

(** C4, amended.  A company is created pending.  [approveEmployerUpgrade],
    called by an admin, sets the status of an existing company to approved
    whatever its current status (pending, approved or rejected), and
    succeeds when the user's account and profile exist; the Express status
    handler, called by a verified admin, likewise sets approved or
    rejected from any status.  Nothing else changes the status of a
    company: a Cloud Function call changes the status of a stored company
    only if it is [approveEmployerUpgrade] for that company by a caller
    with the admin role; an Express request, a new record getting an id
    that is not in use, changes it only if it is the status request of a
    verified admin for that company, and a company an Express request
    creates is pending. *)
Theorem company_status_transitions :
  (∀ a uid_ companyId_ now s cd,
     Fn.has_role a "admin" = true → uid_ ≠ "" → companyId_ ≠ "" →
     Fn.companies s !! companyId_ = Some cd →
     Fn.c_status
       <$> Fn.companies (snd (Fn.approveEmployerUpgrade (Some a) uid_ companyId_ now s))
             !! companyId_
     = Some company_approved
     ∧ (is_Some (Fn.authClaims s !! uid_) → is_Some (Fn.users s !! uid_) →
        fst (Fn.approveEmployerUpgrade (Some a) uid_ companyId_ now s) = Ok tt))
  ∧ (∀ (u : Mem.UserPayload) companyId_ status logId now s company,
       Mem.email_verified u = true →
       str_or (Mem.role u) "seeker" = "admin" →
       status = "approved" ∨ status = "rejected" →
       Mem.getCompany companyId_ s = Some company →
       Mem.company_status
         <$> Mem.getCompany companyId_
               (snd (Mem.patch_company_status (Some u) companyId_ status logId now s))
       = Some (if String.eqb status "approved" then company_approved
               else company_rejected))
  ∧ (∀ o now s id cd',
       Fn.companies s !! id = None → Fn.companies (Fn.exec o now s) !! id = Some cd' →
       Fn.c_status cd' = company_pending)
  ∧ (∀ o now s id cd cd',
       Fn.companies s !! id = Some cd → Fn.companies (Fn.exec o now s) !! id = Some cd' →
       Fn.c_status cd' = Fn.c_status cd
       ∨ (∃ a uid_, o = Fn.ApproveEmployerUpgrade (Some a) uid_ id
                    ∧ Fn.has_role a "admin" = true
                    ∧ Fn.c_status cd' = company_approved))
  ∧ (∀ r now s id c',
       Mem.getCompany id s = None →
       Mem.getCompany id (Mem.handle r now s) = Some c' →
       Mem.company_status c' = company_pending)
  ∧ (∀ r now s id c c',
       Mem.fresh_id r s →
       Mem.getCompany id s = Some c →
       Mem.getCompany id (Mem.handle r now s) = Some c' →
       Mem.company_status c' = Mem.company_status c
       ∨ (∃ u status logId,
            r = Mem.PatchCompanyStatus (Some u) id status logId
            ∧ Mem.email_verified u = true ∧ str_or (Mem.role u) "seeker" = "admin"
            ∧ ((status = "approved" ∧ Mem.company_status c' = company_approved)
               ∨ (status = "rejected" ∧ Mem.company_status c' = company_rejected)))).
Proof.
  split; [|split; [|split; [|split; [|split]]]].
  - intros a uid_ companyId_ now s cd Hadmin Hu Hc Hcd.
    unfold Fn.approveEmployerUpgrade. rewrite Hadmin.
    apply String.eqb_neq in Hu, Hc. rewrite Hu, Hc. simpl.
    unfold Fn.approveEmployerUpgrade_body. split.
    + run_M; simpl; by rewrite lookup_insert_eq.
    + intros [c Hcl] [u Hus]. run_M.
  - apply patch_company_status_sets.
  - intros o now s id cd' Hnone Hcd'. destruct o; simpl in Hcd'.
    + destruct (signUp_effect uid_ displayName email emailVerified now s) as (_ & _ & Hc).
      rewrite Hc in Hcd'. congruence.
    + destruct (requestEmployerUpgrade_effect ctx parsed nid now s)
        as (_ & _ & [Hc|(a & data & _ & Hc)]); rewrite Hc in Hcd'; [congruence|].
      destruct (decide (nid = id)) as [->|Hne].
      * rewrite lookup_insert_eq in Hcd'. by injection Hcd' as <-.
      * rewrite lookup_insert_ne in Hcd' by done. congruence.
    + destruct (approveEmployerUpgrade_effect ctx uid_ companyId_ now s)
        as (_ & _ & [[Hs _]|(a & cd & _ & _ & Hcd & Hc)]).
      * rewrite Hs in Hcd'. congruence.
      * rewrite Hc in Hcd'. destruct (decide (companyId_ = id)) as [->|Hne]; [congruence|].
        rewrite lookup_insert_ne in Hcd' by done. congruence.
    + destruct (createJob_effect ctx parsed nid now s) as (_ & Hc & _).
      rewrite Hc in Hcd'. congruence.
    + destruct (approveJob_effect ctx jobId now s) as (_ & Hc & _).
      rewrite Hc in Hcd'. congruence.
    + destruct (applyToJob_effect ctx jobId resumePath coverLetter nid now s)
        as [[Hs _]|(a & jd & _ & _ & _ & _ & _ & _ & _ & _ & _ & Hc & _)].
      * rewrite Hs in Hcd'. congruence.
      * rewrite Hc in Hcd'. congruence.
    + congruence.
    + destruct (updateApplicationStatus_effect ctx applicationId status notes now s)
        as (_ & Hc & _).
      rewrite Hc in Hcd'. congruence.
    + destruct (deleteUser_effect uid_ s) as [Hs|(_ & _ & Hc)].
      * rewrite Hs in Hcd'. congruence.
      * rewrite Hc in Hcd'. apply map_lookup_filter_Some in Hcd' as [? _]. congruence.
  - intros o now s id cd cd' Hcd Hcd'. destruct o; simpl in Hcd'.
    + destruct (signUp_effect uid_ displayName email emailVerified now s) as (_ & _ & Hc).
      rewrite Hc in Hcd'. left. congruence.
    + destruct (requestEmployerUpgrade_effect ctx parsed nid now s)
        as (_ & _ & [Hc|(a & data & Hfree & Hc)]); rewrite Hc in Hcd'; [left; congruence|].
      destruct (decide (nid = id)) as [->|Hne]; [congruence|].
      rewrite lookup_insert_ne in Hcd' by done. left. congruence.
    + destruct (approveEmployerUpgrade_effect ctx uid_ companyId_ now s)
        as (_ & _ & [[Hs _]|(a & cd0 & -> & Hadmin & Hcd0 & Hc)]).
      * rewrite Hs in Hcd'. left. congruence.
      * rewrite Hc in Hcd'. destruct (decide (companyId_ = id)) as [->|Hne].
        -- rewrite lookup_insert_eq in Hcd'. injection Hcd' as <-.
           right. exists a, uid_. by repeat split.
        -- rewrite lookup_insert_ne in Hcd' by done. left. congruence.
    + destruct (createJob_effect ctx parsed nid now s) as (_ & Hc & _).
      rewrite Hc in Hcd'. left. congruence.
    + destruct (approveJob_effect ctx jobId now s) as (_ & Hc & _).
      rewrite Hc in Hcd'. left. congruence.
    + destruct (applyToJob_effect ctx jobId resumePath coverLetter nid now s)
        as [[Hs _]|(a & jd & _ & _ & _ & _ & _ & _ & _ & _ & _ & Hc & _)].
      * rewrite Hs in Hcd'. left. congruence.
      * rewrite Hc in Hcd'. left. congruence.
    + left. congruence.
    + destruct (updateApplicationStatus_effect ctx applicationId status notes now s)
        as (_ & Hc & _).
      rewrite Hc in Hcd'. left. congruence.
    + destruct (deleteUser_effect uid_ s) as [Hs|(_ & _ & Hc)].
      * rewrite Hs in Hcd'. left. congruence.
      * rewrite Hc in Hcd'. apply map_lookup_filter_Some in Hcd' as [? _].
        left. congruence.
  - apply handle_company_created.
  - apply handle_company_status.
Qed.

Lemma company_status_transitions_witness :
  Fn.has_role FnSample.root "admin" = true
  ∧ Fn.c_status <$> Fn.companies FnSample.job_open !! "c1" = Some company_approved
  ∧ Fn.c_status
      <$> Fn.companies
            (snd (Fn.approveEmployerUpgrade (Some FnSample.root) "emma" "c1" 30
                    FnSample.job_open)) !! "c1"
    = Some company_approved.
Proof.
  split; [reflexivity|]. split; [reflexivity|].
  destruct company_status_transitions as (Happrove & _).
  destruct (Fn.companies FnSample.job_open !! "c1") as [cd|] eqn:Hcd;
    [|by vm_compute in Hcd].
  by apply (Happrove FnSample.root "emma" "c1" 30 FnSample.job_open cd).
Defined.

(** ** C2: applying after the deadline *)

(** C2, as the claim states it, fails: for an approved job whose deadline
    has passed the deadline check throws [permission-denied], and the
    caller gets [internal]; no [failed-precondition] is involved. *)
Lemma applyToJob_past_deadline_error_code :
  fst (Fn.applyToJob_body FnSample.sam "j1" "resumes/sam/cv.pdf" "" "a1" 3000
         FnSample.job_open)
  = Fn.Throw (Fn.HttpsError permission_denied)
  ∧ fst (Fn.applyToJob (Some FnSample.sam) "j1" "resumes/sam/cv.pdf" "" "a1" 3000
           FnSample.job_open)
    = Err internal
  ∧ fst (Fn.applyToJob (Some FnSample.sam) "j1" "resumes/sam/cv.pdf" "" "a1" 3000
           FnSample.job_open)
    ≠ Err failed_precondition.
Proof. repeat split; by vm_compute. Qed.

(** C2, amended.  For every [applyToJob] call on a job whose [lastDate] is
    strictly before the current time, the call fails with an error and
    leaves the store unchanged, so no application is created, whatever the
    status of the job (pending, approved, rejected or expired).  The error
    is never [failed-precondition]: inside the handler the status check
    (for a job that is not approved) and the deadline check (for an
    approved job) both throw [permission-denied]. *)
Theorem applyToJob_past_deadline
    (ctx : option Fn.Auth) (jobId resumePath coverLetter nid : string) (now : Z)
    (s : Fn.Store) (jd : Fn.JobDoc) :
  Fn.jobs s !! jobId = Some jd →
  Fn.lastDate (Fn.j_data jd) < now →
  (∃ e, Fn.applyToJob ctx jobId resumePath coverLetter nid now s = (Err e, s)
        ∧ e ≠ failed_precondition)
  ∧ (∀ a, jobId ≠ "" →
          Fn.applyToJob_body a jobId resumePath coverLetter nid now s
          = (Fn.Throw (Fn.HttpsError permission_denied), s)).
Proof.
  intros Hjd Hlt. apply Z.ltb_lt in Hlt.
  assert (∀ a, jobId ≠ "" →
            Fn.applyToJob_body a jobId resumePath coverLetter nid now s
            = (Fn.Throw (Fn.HttpsError permission_denied), s)) as Hbody.
  { intros a Hne. apply String.eqb_neq in Hne.
    unfold Fn.applyToJob_body, Fn.doc_get, Fn.bind, Fn.read, Fn.when_, Fn.throw, Fn.ret.
    rewrite Hne, Hjd. simpl.
    destruct (Fn.j_status jd); simpl; try done. by rewrite Hlt. }
  split; [|exact Hbody].
  unfold Fn.applyToJob.
  destruct ctx as [a|]; [|by eexists].
  destruct (_ && _); [|by eexists].
  destruct (String.eqb jobId "") eqn:Hid; simpl; [by eexists|].
  destruct (String.eqb resumePath ""); [by eexists|].
  apply String.eqb_neq in Hid.
  unfold Fn.try_catch_internal. rewrite (Hbody a Hid). by eexists.
Qed.

Lemma applyToJob_past_deadline_witness :
  Fn.j_status <$> Fn.jobs FnSample.swept !! "j1" = Some job_expired
  ∧ Fn.lastDate <$> (Fn.j_data <$> Fn.jobs FnSample.swept !! "j1") = Some 1000
  ∧ ∃ e, Fn.applyToJob (Some FnSample.sam) "j1" "resumes/sam/cv.pdf" "" "a2" 3000
           FnSample.swept = (Err e, FnSample.swept).
Proof.
  split; [reflexivity|]. split; [reflexivity|].
  destruct (Fn.jobs FnSample.swept !! "j1") as [jd|] eqn:Hjd; [|by vm_compute in Hjd].
  assert (Fn.lastDate (Fn.j_data jd) < 3000) as Hlt.
  { vm_compute in Hjd. injection Hjd as <-. by vm_compute. }
  destruct (applyToJob_past_deadline (Some FnSample.sam) "j1" "resumes/sam/cv.pdf" ""
              "a2" 3000 FnSample.swept jd Hjd Hlt) as [(e & He & _) _].
  by exists e.
Defined.

(** ** C1: applying twice *)





Lemma reachable_run ops s :
  Fn.reachable s → FnSample.all_fresh ops s → Fn.reachable (FnSample.run ops s).
Proof.
  revert s. induction ops as [|[o now] ops IH]; intros s Hs Hf; [done|].
  destruct Hf as [Hf Hrest]. apply IH; [|done]. by apply reachable_step.
Qed.



(** ** C5: the application counter of a job *)

Section CountFacts.
Implicit Types (m : gmap string Fn.AppDoc) (d : Fn.AppDoc).




End CountFacts.




Section MemDeleteFacts.
Context {V : Type}.
Implicit Types (m : list (string * V)).

Lemma get_delete id k m :
  JsMap.get k (JsMap.delete id m)
  = if String.eqb id k then None else JsMap.get k m.
Proof.
  induction m as [|[k' v] m IH]; simpl; [by destruct (String.eqb id k)|].
  destruct (String.eqb id k') eqn:E1; simpl.
  - apply String.eqb_eq in E1. subst k'. rewrite IH.
    destruct (String.eqb id k) eqn:E2; [done|].
    rewrite String.eqb_sym in E2. by rewrite E2.
  - rewrite IH. destruct (String.eqb k k') eqn:E2; [|done].
    apply String.eqb_eq in E2. subst k'. by rewrite E1.
Qed.



End MemDeleteFacts.




(** * Further properties of the code *)

(** ** Well-keyed maps *)

Section WfMapFacts.
Context {V : Type} (id_of : V → string).
Implicit Types (m : list (string * V)) (k : string) (v : V).

Lemma get_In k v m : JsMap.get k m = Some v → In (k, v) m.
Proof.
  induction m as [|[k' v'] m IH]; simpl; [done|].
  destruct (String.eqb k k') eqn:E.
  - apply String.eqb_eq in E. intros [= ->]. subst. by left.
  - intros H. right. by apply IH.
Qed.

Lemma In_get k v m : NoDup (map fst m) → In (k, v) m → JsMap.get k m = Some v.
Proof.
  induction m as [|[k' v'] m IH]; simpl; [done|].
  intros Hnd [Heq|Hin].
  - injection Heq as -> ->. by rewrite String.eqb_refl.
  - apply NoDup_cons in Hnd as [Hk' Hnd].
    destruct (String.eqb k k') eqn:E.
    + apply String.eqb_eq in E. subst k'. destruct Hk'.
      apply list_elem_of_In, (in_map fst _ (k, v)), Hin.
    + by apply IH.
Qed.

Lemma get_None_keys k m : JsMap.get k m = None ↔ ¬ In k (map fst m).
Proof.
  induction m as [|[k' v'] m IH]; simpl; [tauto|].
  destruct (String.eqb k k') eqn:E.
  - apply String.eqb_eq in E. subst. split; [done|]. intros H. destruct H. by left.
  - apply String.eqb_neq in E. rewrite IH. split.
    + intros H [?|?]; [congruence|done].
    + intros H ?. apply H. by right.
Qed.

Lemma set_keys k v m :
  map fst (JsMap.set k v m)
  = match JsMap.get k m with
    | Some _ => map fst m
    | None => map fst m ++ [k]
    end.
Proof.
  induction m as [|[k' v'] m IH]; simpl; [done|].
  destruct (String.eqb k k') eqn:E; simpl.
  - apply String.eqb_eq in E. by subst.
  - rewrite IH. by destruct (JsMap.get k m).
Qed.

Lemma wf_map_set k v m :
  wf_map id_of m → id_of v = k → wf_map id_of (JsMap.set k v m).
Proof.
  intros [Hnd Hk] Hid. split.
  - rewrite set_keys. destruct (JsMap.get k m) eqn:E; [done|].
    apply NoDup_app. split; [done|].
    split; [|apply NoDup_singleton].
    intros x Hx Hx'. apply list_elem_of_In in Hx.
    apply list_elem_of_singleton in Hx'. subst x.
    by apply get_None_keys in E.
  - clear Hnd. induction Hk as [|[k' v'] m Hkv Hm IH]; simpl.
    + by repeat constructor.
    + destruct (String.eqb k k'); constructor; auto.
Qed.

Lemma delete_all_filter_keys ids m :
  Mem.delete_all ids m
  = List.filter (fun kv => negb (existsb (String.eqb (fst kv)) ids)) m.
Proof.
  unfold Mem.delete_all. revert m.
  induction ids as [|id ids IH]; intros m; simpl.
  - induction m as [|kv m IHm]; simpl; congruence.
  - rewrite IH. unfold JsMap.delete. rewrite filter_filter.
    apply List.filter_ext. intros kv.
    rewrite (String.eqb_sym (fst kv) id). by rewrite negb_orb.
Qed.

(** Deleting the records picked by [p], by their [id], removes exactly the
    entries whose record satisfies [p]. *)
Lemma delete_all_picked (p : V → bool) m :
  wf_map id_of m →
  Mem.delete_all (map id_of (List.filter p (JsMap.values m))) m
  = List.filter (fun kv => negb (p (snd kv))) m.
Proof.
  intros [Hnd Hk]. rewrite delete_all_filter_keys.
  apply List.filter_ext_in. intros [k v] Hin. simpl. f_equal.
  rewrite Forall_forall in Hk.
  destruct (p v) eqn:Hp.
  - apply existsb_exists. exists k. split; [|apply String.eqb_refl].
    apply in_map_iff. exists v. split.
    + apply (Hk (k, v)). by apply list_elem_of_In.
    + apply filter_In. split; [|done].
      apply in_map_iff. by exists (k, v).
  - destruct (existsb _ _) eqn:E; [|done].
    apply existsb_exists in E as (k' & Hin' & Heq). apply String.eqb_eq in Heq.
    subst k'. apply in_map_iff in Hin' as (v' & Hid & Hin').
    apply filter_In in Hin' as [Hin' Hp'].
    apply in_map_iff in Hin' as ([k'' v''] & Hv & Hin'). simpl in Hv. subst v''.
    assert (k'' = k) as ->.
    { rewrite <- Hid. symmetry. apply (Hk (k'', v')). by apply list_elem_of_In. }
    assert (JsMap.get k m = Some v) by by apply In_get.
    assert (JsMap.get k m = Some v') by by apply In_get.
    congruence.
Qed.

Lemma wf_map_filter (q : string * V → bool) m :
  wf_map id_of m → wf_map id_of (List.filter q m).
Proof.
  intros [Hnd Hk]. split.
  - clear Hk. induction m as [|kv m IH]; simpl; [constructor|].
    apply NoDup_cons in Hnd as [Hk' Hnd].
    destruct (q kv); simpl; [|by apply IH].
    apply NoDup_cons. split; [|by apply IH].
    intros Hin. apply Hk'. apply list_elem_of_In in Hin. apply list_elem_of_In.
    apply in_map_iff in Hin as (kv' & <- & Hin).
    apply filter_In in Hin as [Hin _]. by apply in_map.
  - apply Forall_forall. intros kv Hin. apply list_elem_of_In, filter_In in Hin.
    destruct Hin as [Hin _].
    rewrite Forall_forall in Hk. by apply Hk, list_elem_of_In.
Qed.

Lemma wf_map_delete k m : wf_map id_of m → wf_map id_of (JsMap.delete k m).
Proof. apply wf_map_filter. Qed.

Lemma wf_map_delete_all ids m : wf_map id_of m → wf_map id_of (Mem.delete_all ids m).
Proof. rewrite delete_all_filter_keys. apply wf_map_filter. Qed.
End WfMapFacts.

(** ** [MemStorage]: cascading deletes *)

Lemma none_left_after_filter {K V} (p : V → bool) (m : list (K * V)) :
  length (List.filter p (map snd (List.filter (fun kv => negb (p (snd kv))) m))) = 0%nat.
Proof.
  induction m as [|[k v] m IH]; simpl; [done|].
  destruct (p v) eqn:E; simpl; [done|]. by rewrite E.
Qed.

(** X1.  On a store whose applications are well keyed, [deleteJob] removes
    the job and exactly the applications that reference it, keeps every
    other job and application in place, and touches nothing else. *)
Theorem deleteJob_cascade (id : string) (s : Mem.MemStorage) :
  wf_map Mem.app_id (Mem.applications s) →
  let s' := snd (Mem.deleteJob id s) in
  Mem.getJob id s' = None
  ∧ (∀ k, k ≠ id → Mem.getJob k s' = Mem.getJob k s)
  ∧ Mem.applications s'
    = List.filter (fun kv => negb (String.eqb (Mem.ia_jobId (Mem.app_ins (snd kv))) id))
        (Mem.applications s)
  ∧ mem_app_count id s' = 0%nat
  ∧ Mem.users s' = Mem.users s
  ∧ Mem.companies s' = Mem.companies s
  ∧ Mem.auditLogs s' = Mem.auditLogs s.
Proof.
  intros Hwf. cbv zeta.
  assert (Mem.applications (snd (Mem.deleteJob id s))
          = List.filter
              (fun kv => negb (String.eqb (Mem.ia_jobId (Mem.app_ins (snd kv))) id))
              (Mem.applications s)) as Happs.
  { simpl. by rewrite (delete_all_picked Mem.app_id). }
  split; [|split; [|split; [|split]]].
  - unfold Mem.getJob. simpl. apply get_delete_eq.
  - intros k Hk. unfold Mem.getJob. simpl. rewrite get_delete.
    apply String.eqb_neq in Hk. rewrite String.eqb_sym in Hk. by rewrite Hk.
  - exact Happs.
  - unfold mem_app_count. rewrite Happs.
    apply (none_left_after_filter
             (fun a => String.eqb (Mem.ia_jobId (Mem.app_ins a)) id)).
  - done.
Qed.

Lemma deleteJob_cascade_witness :
  wf_map Mem.app_id (Mem.applications Sample.mem_applied)
  ∧ mem_app_count "j1" Sample.mem_applied = 1%nat
  ∧ mem_app_count "j1" (snd (Mem.deleteJob "j1" Sample.mem_applied)) = 0%nat.
Proof.
  assert (wf_map Mem.app_id (Mem.applications Sample.mem_applied)) as Hwf.
  { vm_compute. split; repeat constructor. by intros H%elem_of_nil. }
  split; [exact Hwf|]. split; [reflexivity|].
  by destruct (deleteJob_cascade "j1" Sample.mem_applied Hwf) as (_ & _ & _ & H & _).
Defined.

(** X2.  On a well-keyed store, [deleteUser] removes the user and exactly
    the companies the user owns, the jobs the user posted and the
    applications the user submitted; every other record stays in place.
    In particular the applications that other users sent to the deleted
    jobs stay in the store. *)
Theorem deleteUser_cascade (id : string) (s : Mem.MemStorage) :
  well_keyed s →
  let s' := snd (Mem.deleteUser id s) in
  Mem.getUser id s' = None
  ∧ (∀ k, k ≠ id → Mem.getUser k s' = Mem.getUser k s)
  ∧ Mem.companies s'
    = List.filter
        (fun kv => negb (String.eqb (Mem.ic_ownerUid (Mem.company_ins (snd kv))) id))
        (Mem.companies s)
  ∧ Mem.jobs s'
    = List.filter (fun kv => negb (String.eqb (Mem.posterUid (Mem.job_ins (snd kv))) id))
        (Mem.jobs s)
  ∧ Mem.applications s'
    = List.filter
        (fun kv => negb (String.eqb (Mem.ia_applicantUid (Mem.app_ins (snd kv))) id))
        (Mem.applications s)
  ∧ Mem.auditLogs s' = Mem.auditLogs s.
Proof.
  intros (_ & Hc & Hj & Ha). cbv zeta. split; [|split; [|split; [|split; [|split]]]].
  - unfold Mem.getUser. simpl. apply get_delete_eq.
  - intros k Hk. unfold Mem.getUser. simpl. rewrite get_delete.
    apply String.eqb_neq in Hk. rewrite String.eqb_sym in Hk. by rewrite Hk.
  - simpl. by rewrite (delete_all_picked Mem.company_id).
  - simpl. by rewrite (delete_all_picked Mem.job_id).
  - simpl. by rewrite (delete_all_picked Mem.app_id).
  - done.
Qed.

Lemma mem_applied_well_keyed : well_keyed Sample.mem_applied.
Proof.
  vm_compute. repeat split; repeat constructor; by intros H%elem_of_nil.
Qed.

Lemma deleteUser_cascade_witness :
  well_keyed Sample.mem_applied
  ∧ Mem.applications (snd (Mem.deleteUser "sam" Sample.mem_applied)) = []
  ∧ Mem.jobs (snd (Mem.deleteUser "sam" Sample.mem_applied)) = Mem.jobs Sample.mem_applied.
Proof.
  split; [exact mem_applied_well_keyed|].
  destruct (deleteUser_cascade "sam" Sample.mem_applied mem_applied_well_keyed)
    as (_ & _ & _ & Hj & Ha & _).
  split; [by rewrite Ha | by rewrite Hj].
Defined.

(** ** [MemStorage]: the maps stay well keyed *)

Lemma wf_get_id {V} (id_of : V → string) (m : list (string * V)) k v :
  wf_map id_of m → JsMap.get k m = Some v → id_of v = k.
Proof.
  intros [_ Hk] Hget%get_In. rewrite Forall_forall in Hk.
  apply (Hk (k, v)). by apply list_elem_of_In.
Qed.

Ltac wk_parts := unfold well_keyed; simpl; refine (conj _ (conj _ (conj _ _))).

Lemma wk_updateJob id f now s :
  well_keyed s → (∀ j, Mem.job_id (f j) = Mem.job_id j) →
  well_keyed (snd (Mem.updateJob id f now s)).
Proof.
  intros (Hu & Hc & Hj & Ha) Hf. unfold Mem.updateJob.
  destruct (JsMap.get id (Mem.jobs s)) as [job|] eqn:E; [|done].
  wk_parts; try assumption. apply wf_map_set; [done|].
  simpl. rewrite Hf. by apply (wf_get_id _ _ _ _ Hj).
Qed.

Lemma wk_updateCompany id f now s :
  well_keyed s → (∀ c, Mem.company_id (f c) = Mem.company_id c) →
  well_keyed (snd (Mem.updateCompany id f now s)).
Proof.
  intros (Hu & Hc & Hj & Ha) Hf. unfold Mem.updateCompany.
  destruct (JsMap.get id (Mem.companies s)) as [c|] eqn:E; [|done].
  wk_parts; try assumption. apply wf_map_set; [done|].
  simpl. rewrite Hf. by apply (wf_get_id _ _ _ _ Hc).
Qed.

Lemma wk_createAuditLog ins id now s :
  well_keyed s → well_keyed (snd (Mem.createAuditLog ins id now s)).
Proof. by intros (Hu & Hc & Hj & Ha). Qed.

Lemma wk_createApplication ins id now s :
  well_keyed s → well_keyed (snd (Mem.createApplication ins id now s)).
Proof.
  intros (Hu & Hc & Hj & Ha). wk_parts; try assumption. by apply wf_map_set.
Qed.

Lemma wk_guard {A} user roles (k : Mem.UserPayload → Mem.Response A * Mem.MemStorage) s :
  well_keyed s → (∀ u, well_keyed (snd (k u))) →
  well_keyed (snd (Mem.guard user true roles k s)).
Proof.
  intros Hs Hk. unfold Mem.guard. repeat case_match; simpl; auto.
Qed.

(** X3.  The empty store is well keyed, and every operation the handlers
    perform keeps the store well keyed: the four creations, both cascading
    deletes, and the handlers that view a job, set the status of a job or
    of a company, submit an application, register a company and edit a
    company.  (An arbitrary [updateJob] does so when its override keeps
    the [id] field.) *)
Theorem well_keyed_preserved :
  well_keyed Mem.empty
  ∧ ∀ s now, well_keyed s →
      (∀ ins id, well_keyed (snd (Mem.createUser ins id now s)))
      ∧ (∀ ins id, well_keyed (snd (Mem.createCompany ins id now s)))
      ∧ (∀ ins id, well_keyed (snd (Mem.createJob ins id now s)))
      ∧ (∀ ins id, well_keyed (snd (Mem.createApplication ins id now s)))
      ∧ (∀ id f, (∀ j, Mem.job_id (f j) = Mem.job_id j) →
                 well_keyed (snd (Mem.updateJob id f now s)))
      ∧ (∀ id, well_keyed (snd (Mem.deleteJob id s)))
      ∧ (∀ id, well_keyed (snd (Mem.deleteUser id s)))
      ∧ (∀ id, well_keyed (snd (Mem.get_job id now s)))
      ∧ (∀ user jobId status logId,
           well_keyed (snd (Mem.patch_job_status user jobId status logId now s)))
      ∧ (∀ user companyId status logId,
           well_keyed (snd (Mem.patch_company_status user companyId status logId now s)))
      ∧ (∀ user body id, well_keyed (snd (Mem.post_applications user body id now s)))
      ∧ (∀ user body id, well_keyed (snd (Mem.post_companies user body id now s)))
      ∧ (∀ user companyId patch,
           well_keyed (snd (Mem.put_company user companyId patch now s))).
Proof.
  split.
  { wk_parts; split; constructor. }
  intros s now Hs. pose proof Hs as (Hu & Hc & Hj & Ha).
  split; [|split; [|split; [|split; [|split; [|split; [|split; [|split;
    [|split; [|split; [|split; [|split]]]]]]]]]]].
  - intros ins id. wk_parts; try assumption. by apply wf_map_set.
  - intros ins id. wk_parts; try assumption. by apply wf_map_set.
  - intros ins id. wk_parts; try assumption. by apply wf_map_set.
  - intros. by apply wk_createApplication.
  - intros. by apply wk_updateJob.
  - intros id. wk_parts; try assumption;
      [by apply wf_map_delete | by apply wf_map_delete_all].
  - intros id. wk_parts;
      [by apply wf_map_delete | by apply wf_map_delete_all ..].
  - intros id. unfold Mem.get_job. destruct (Mem.getJob id s) as [job|]; [|done].
    destruct (Mem.updateJob _ _ _ _) as [o s1] eqn:E.
    change s1 with (snd (o, s1)). rewrite <- E. by apply wk_updateJob.
  - intros user jobId status logId. unfold Mem.patch_job_status.
    apply wk_guard; [done|]. intros u.
    destruct (negb _); [done|].
    destruct (Mem.updateJob _ _ _ _) as [o s1] eqn:E.
    assert (well_keyed s1) as Hs1.
    { change s1 with (snd (o, s1)). rewrite <- E. apply wk_updateJob; [done|].
      intros j. by destruct (String.eqb status "approved"). }
    destruct (Mem.createAuditLog _ _ _ s1) as [l s2] eqn:E2.
    change s2 with (snd (l, s2)). rewrite <- E2. by apply wk_createAuditLog.
  - intros user companyId status logId. unfold Mem.patch_company_status.
    apply wk_guard; [done|]. intros u.
    destruct (negb _); [done|].
    destruct (Mem.updateCompany _ _ _ _) as [o s1] eqn:E.
    assert (well_keyed s1) as Hs1.
    { change s1 with (snd (o, s1)). rewrite <- E. by apply wk_updateCompany. }
    destruct (Mem.createAuditLog _ _ _ s1) as [l s2] eqn:E2.
    change s2 with (snd (l, s2)). rewrite <- E2. by apply wk_createAuditLog.
  - intros user body id. unfold Mem.post_applications.
    apply wk_guard; [done|]. intros u.
    destruct (Mem.getJob _ s) as [job|]; [|done].
    destruct (negb _); [done|]. destruct (date_before _ _); [done|].
    destruct (Mem.getApplicationByDedupeKey _ s); [done|].
    destruct (Mem.createApplication _ _ _ _) as [app s1] eqn:E.
    assert (well_keyed s1) as Hs1.
    { change s1 with (snd (app, s1)). rewrite <- E. by apply wk_createApplication. }
    destruct (Mem.updateJob _ _ _ s1) as [o s2] eqn:E2.
    change s2 with (snd (o, s2)). rewrite <- E2. by apply wk_updateJob.
  - intros user body id. unfold Mem.post_companies.
    apply wk_guard; [done|]. intros u.
    wk_parts; try assumption. by apply wf_map_set.
  - intros user companyId patch. unfold Mem.put_company.
    apply wk_guard; [done|]. intros u.
    destruct (Mem.getCompany _ s) as [company|]; [|done].
    destruct (negb _); [done|].
    destruct (CompanyStatus_eqb _ _).
    + destruct (Mem.updateCompany _ _ _ _) as [o s1] eqn:E.
      change s1 with (snd (o, s1)). rewrite <- E. by apply wk_updateCompany.
    + destruct (Mem.updateCompany _ _ _ _) as [o s1] eqn:E.
      change s1 with (snd (o, s1)). rewrite <- E. by apply wk_updateCompany.
Qed.

Lemma well_keyed_preserved_witness :
  well_keyed Sample.mem_one_job
  ∧ well_keyed (snd (Mem.get_job "j1" 40 Sample.mem_one_job)).
Proof.
  destruct well_keyed_preserved as [Hempty Hstep].
  assert (well_keyed Sample.mem_pending_job) as H1.
  { by apply (Hstep Mem.empty 5 Hempty). }
  assert (well_keyed Sample.mem_one_job) as H2.
  { by apply (Hstep Sample.mem_pending_job 10 H1). }
  split; [exact H2|]. by apply (Hstep Sample.mem_one_job 40 H2).
Defined.

(** ** Express handlers: viewing a job and the application counter *)

(** X4.  [GET /api/jobs/:id] on a store with well-keyed jobs: a missing id
    is answered with 404 and changes nothing; for a stored job the answer
    is the record as it was before the view, and the stored record gets
    its [viewCount] raised by exactly 1 and its [updatedAt] set, with its
    status, its [applicationCount] and its other fields untouched; no
    other job and no other collection changes. *)
Theorem get_job_counts_view (id : string) (now : Z) (s : Mem.MemStorage) :
  wf_map Mem.job_id (Mem.jobs s) →
  (Mem.getJob id s = None →
   Mem.get_job id now s = (Mem.Failure 404 "Job not found", s))
  ∧ (∀ job, Mem.getJob id s = Some job →
       let s' := snd (Mem.get_job id now s) in
       fst (Mem.get_job id now s) = Mem.Json job
       ∧ (∃ job', Mem.getJob id s' = Some job'
                  ∧ Mem.job_viewCount job' = Mem.job_viewCount job + 1
                  ∧ Mem.job_updatedAt job' = now
                  ∧ Mem.job_status job' = Mem.job_status job
                  ∧ Mem.job_applicationCount job' = Mem.job_applicationCount job
                  ∧ Mem.job_ins job' = Mem.job_ins job
                  ∧ Mem.job_id job' = Mem.job_id job)
       ∧ (∀ k, k ≠ id → Mem.getJob k s' = Mem.getJob k s)
       ∧ Mem.applications s' = Mem.applications s
       ∧ Mem.users s' = Mem.users s
       ∧ Mem.companies s' = Mem.companies s
       ∧ Mem.auditLogs s' = Mem.auditLogs s).
Proof.
  intros Hwf. split.
  - intros Hnone. unfold Mem.get_job. by rewrite Hnone.
  - intros job Hjob. cbv zeta.
    assert (Mem.job_id job = id) as Hid by by apply (wf_get_id _ _ _ _ Hwf).
    unfold Mem.get_job. rewrite Hjob, Hid, num_or_succ.
    destruct (Mem.updateJob id _ now s) as [o s1] eqn:E. simpl.
    assert (s1 = snd (Mem.updateJob id (Mem.with_viewCount (Mem.job_viewCount job + 1))
                        now s)) as -> by by rewrite E.
    split; [done|]. split; [|split].
    + eexists. rewrite getJob_updateJob, String.eqb_refl, Hjob. simpl.
      split; [reflexivity|]. by repeat split.
    + intros k Hk. rewrite getJob_updateJob.
      apply String.eqb_neq in Hk. rewrite String.eqb_sym in Hk. by rewrite Hk.
    + apply updateJob_frame.
Qed.

Lemma get_job_counts_view_witness :
  wf_map Mem.job_id (Mem.jobs Sample.mem_applied)
  ∧ Mem.job_viewCount <$> Mem.getJob "j1" Sample.mem_applied = Some 0
  ∧ ∃ job', Mem.getJob "j1" (snd (Mem.get_job "j1" 40 Sample.mem_applied)) = Some job'
            ∧ Mem.job_viewCount job' = 1.
Proof.
  pose proof mem_applied_well_keyed as (_ & _ & Hwf & _).
  split; [exact Hwf|]. split; [reflexivity|].
  destruct (Mem.getJob "j1" Sample.mem_applied) as [job|] eqn:Hjob;
    [|by vm_compute in Hjob].
  destruct (get_job_counts_view "j1" 40 Sample.mem_applied Hwf) as [_ H].
  destruct (H job Hjob) as (_ & (job' & Hget & Hview & _) & _).
  exists job'. split; [exact Hget|]. rewrite Hview.
  vm_compute in Hjob. injection Hjob as <-. reflexivity.
Defined.

Lemma set_fresh {V} k (v : V) m :
  JsMap.get k m = None → JsMap.set k v m = m ++ [(k, v)].
Proof.
  induction m as [|[k' v'] m IH]; simpl; [done|].
  destruct (String.eqb k k'); [done|]. intros H. by rewrite IH.
Qed.

Lemma mem_app_count_created ins id now s jobId :
  Mem.getApplication id s = None →
  mem_app_count jobId (snd (Mem.createApplication ins id now s))
  = (mem_app_count jobId s
     + if String.eqb (Mem.ia_jobId ins) jobId then 1 else 0)%nat.
Proof.
  intros Hfresh. unfold mem_app_count, Mem.createApplication. simpl.
  rewrite set_fresh by done. unfold JsMap.values.
  rewrite map_app, List.filter_app, length_app. simpl.
  by destruct (String.eqb (Mem.ia_jobId ins) jobId).
Qed.

Lemma counters_exact_updateJob id f now s :
  counters_exact s →
  (∀ j, Mem.job_applicationCount (f j) = Mem.job_applicationCount j) →
  counters_exact (snd (Mem.updateJob id f now s)).
Proof.
  intros Hc Hf jobId job. rewrite getJob_updateJob.
  unfold mem_app_count. rewrite (proj1 (updateJob_frame id f now s)).
  destruct (String.eqb id jobId) eqn:E.
  - apply String.eqb_eq in E. subst jobId.
    destruct (Mem.getJob id s) as [j|] eqn:Hj; simpl; [|done].
    intros [= <-]. simpl. rewrite Hf. by apply Hc.
  - apply Hc.
Qed.

(** The three middlewares either pass the request on to the handler or
    answer 401 or 403 and leave the store alone. *)
Lemma guard_cases {A} user roles
    (k : Mem.UserPayload → Mem.Response A * Mem.MemStorage) s :
  (∃ u, user = Some u ∧ Mem.email_verified u = true
        ∧ (∀ rs, roles = Some rs →
                 existsb (String.eqb (str_or (Mem.role u) "seeker")) rs = true)
        ∧ Mem.guard user true roles k s = k u)
  ∨ (∃ c e, Mem.guard user true roles k s = (Mem.Failure c e, s)
            ∧ (c = 401 ∨ c = 403)
            ∧ (user = None
               ∨ ∃ u, user = Some u
                      ∧ (Mem.email_verified u = false
                         ∨ ∃ rs, roles = Some rs
                                 ∧ existsb (String.eqb (str_or (Mem.role u) "seeker")) rs
                                   = false))).
Proof.
  unfold Mem.guard. destruct user as [u|]; [|right; eauto 10].
  destruct (Mem.email_verified u) eqn:Hv; simpl; [|right; eauto 10].
  destruct roles as [rs|].
  - destruct (existsb _ rs) eqn:Hr.
    + left. exists u. repeat split; try done. by intros ? [= <-].
    + right. eexists _, _. repeat split; eauto 10.
  - left. exists u. by repeat split.
Qed.

(** Splits a goal about a guarded handler into the case where the handler
    runs for the verified caller [u] and the case where it is refused. *)
Tactic Notation "guard_split" ident(u) :=
  let Hv := fresh "Hverified" in
  let Hr := fresh "Hrole" in
  let Hd := fresh "Hdenied" in
  let Hc := fresh "Hcode" in
  match goal with
  | |- context [Mem.guard ?user true ?roles ?k ?s] =>
      let c := fresh "c" in
      let e := fresh "e" in
      destruct (guard_cases user roles k s)
        as [(u & ? & Hv & Hr & ->)|(c & e & -> & Hc & Hd)]
  end.

(** X5.  On a well-keyed store whose job counters equal the number of
    applications per job, the Express handlers keep them equal: a
    submitted application (stored under an unused id) raises the counter
    and the number of applications of its job together, and viewing a job
    or setting its status changes neither.  So does the creation of a job
    under an id that no application references. *)
Theorem counters_exact_kept (s : Mem.MemStorage) (now : Z) :
  well_keyed s → counters_exact s →
  (∀ user body id,
     Mem.getApplication id s = None →
     counters_exact (snd (Mem.post_applications user body id now s)))
  ∧ (∀ id, counters_exact (snd (Mem.get_job id now s)))
  ∧ (∀ user jobId status logId,
       counters_exact (snd (Mem.patch_job_status user jobId status logId now s)))
  ∧ (∀ ins id, mem_app_count id s = 0%nat →
               counters_exact (snd (Mem.createJob ins id now s))).
Proof.
  intros Hwk Hc. pose proof Hwk as (_ & _ & Hj & _).
  split; [|split; [|split]].
  - intros user body id Hfresh. unfold Mem.post_applications.
    guard_split u; [|done].
    destruct (Mem.getJob (Mem.b_jobId body) s) as [job|] eqn:Hjob; [|done].
    destruct (negb _); [done|]. destruct (date_before _ _); [done|].
    destruct (Mem.getApplicationByDedupeKey _ s); [done|].
    assert (Mem.job_id job = Mem.b_jobId body) as Hid
      by by apply (wf_get_id _ _ _ _ Hj).
    rewrite Hid, num_or_succ.
    set (ins := {| Mem.ia_jobId := Mem.b_jobId body |}).
    destruct (Mem.createApplication ins id now s) as [app s1] eqn:E1.
    assert (s1 = snd (Mem.createApplication ins id now s)) as Hs1 by by rewrite E1.
    destruct (Mem.updateJob _ _ now s1) as [o s2] eqn:E2. simpl.
    assert (s2 = snd (Mem.updateJob (Mem.b_jobId body)
                        (Mem.with_applicationCount (Mem.job_applicationCount job + 1))
                        now s1)) as -> by by rewrite E2.
    intros jobId j. rewrite getJob_updateJob.
    unfold mem_app_count at 1. rewrite (proj1 (updateJob_frame _ _ _ _)).
    fold (mem_app_count jobId s1). rewrite Hs1, mem_app_count_created by done.
    change (Mem.getJob jobId (snd (Mem.createApplication ins id now s)))
      with (Mem.getJob jobId s).
    change (Mem.getJob (Mem.b_jobId body) (snd (Mem.createApplication ins id now s)))
      with (Mem.getJob (Mem.b_jobId body) s).
    simpl. destruct (String.eqb (Mem.b_jobId body) jobId) eqn:E.
    + rewrite Hjob. simpl. intros [= <-]. simpl.
      rewrite (Hc _ _ Hjob). apply String.eqb_eq in E. subst jobId. lia.
    + intros Hget. rewrite (Hc _ _ Hget). lia.
  - intros id. unfold Mem.get_job. destruct (Mem.getJob id s) as [job|]; [|done].
    destruct (Mem.updateJob _ _ _ _) as [o s1] eqn:E. simpl.
    change s1 with (snd (o, s1)). rewrite <- E. by apply counters_exact_updateJob.
  - intros user jobId status logId. unfold Mem.patch_job_status.
    guard_split u; [|done].
    destruct (negb _); [done|].
    destruct (Mem.updateJob _ _ _ _) as [o s1] eqn:E. simpl.
    assert (counters_exact s1) as Hs1.
    { change s1 with (snd (o, s1)). rewrite <- E.
      apply counters_exact_updateJob; [done|].
      intros j. by destruct (String.eqb status "approved"). }
    exact Hs1.
  - intros ins id Hzero jobId job. unfold Mem.getJob, mem_app_count. simpl.
    destruct (String.eqb id jobId) eqn:E.
    + apply String.eqb_eq in E. subst jobId. rewrite get_set_eq.
      intros [= <-]. simpl. unfold mem_app_count in Hzero. by rewrite Hzero.
    + apply String.eqb_neq in E. rewrite get_set_ne by done. apply Hc.
Qed.

Lemma counters_exact_kept_witness :
  well_keyed Sample.mem_one_job
  ∧ counters_exact Sample.mem_one_job
  ∧ counters_exact Sample.mem_applied.
Proof.
  assert (well_keyed Sample.mem_one_job) as Hwk.
  { vm_compute. repeat split; repeat constructor; by intros H%elem_of_nil. }
  assert (counters_exact Sample.mem_one_job) as Hc.
  { intros jobId job. unfold Mem.getJob. simpl.
    destruct (String.eqb jobId "j1") eqn:E; [|done].
    apply String.eqb_eq in E. subst. by intros [= <-]. }
  split; [exact Hwk|]. split; [exact Hc|].
  destruct (counters_exact_kept Sample.mem_one_job 20 Hwk Hc) as (Happly & _).
  by apply Happly.
Defined.

(** ** [MemStorage]: statistics and featured jobs *)

Lemma filter_disjoint_length {A} (p q : A → bool) (l : list A) :
  (∀ x, p x = true → q x = false) →
  (length (List.filter p l) + length (List.filter q l) ≤ length l)%nat.
Proof.
  intros Hpq. induction l as [|x l IH]; simpl; [done|].
  destruct (p x) eqn:Hp.
  - rewrite (Hpq x Hp). simpl. lia.
  - destruct (q x); simpl; lia.
Qed.

(** X6.  The statistics agree with the queries: [activeJobs] is the
    [total] of a search without filters and the size of
    [getApprovedJobs], [pendingJobs] the size of [getPendingJobs],
    [pendingEmployers] the size of [getPendingCompanies]; pending and
    active jobs together never exceed [totalJobs], nor employers and
    seekers together the number of users. *)
Theorem getStats_consistent (s : Mem.MemStorage) :
  (∀ page limit now,
     Mem.activeJobs (Mem.getStats s)
     = Mem.total (Mem.searchJobs no_filters page limit now s))
  ∧ Mem.activeJobs (Mem.getStats s) = Z.of_nat (length (Mem.getApprovedJobs s))
  ∧ Mem.pendingJobs (Mem.getStats s) = Z.of_nat (length (Mem.getPendingJobs s))
  ∧ Mem.pendingEmployers (Mem.getStats s)
    = Z.of_nat (length (Mem.getPendingCompanies s))
  ∧ Mem.pendingJobs (Mem.getStats s) + Mem.activeJobs (Mem.getStats s)
    <= Mem.totalJobs (Mem.getStats s)
  ∧ Mem.totalEmployers (Mem.getStats s) + Mem.totalSeekers (Mem.getStats s)
    <= Z.of_nat (length (Mem.users s)).
Proof.
  split; [|split; [|split; [|split; [|split]]]].
  - intros page limit now. simpl. unfold Mem.count, Mem.ordered. simpl.
    by rewrite js_sort_length.
  - simpl. unfold Mem.count, Mem.getApprovedJobs. by rewrite js_sort_length.
  - simpl. unfold Mem.count, Mem.getPendingJobs. by rewrite js_sort_length.
  - simpl. unfold Mem.count, Mem.getPendingCompanies. by rewrite js_sort_length.
  - simpl. unfold Mem.count.
    pose proof (filter_disjoint_length
                  (fun j => JobStatus_eqb (Mem.job_status j) job_pending)
                  (fun j => JobStatus_eqb (Mem.job_status j) job_approved)
                  (JsMap.values (Mem.jobs s))) as H.
    unfold JsMap.values in *. rewrite length_map in H.
    assert (∀ x, JobStatus_eqb (Mem.job_status x) job_pending = true →
                 JobStatus_eqb (Mem.job_status x) job_approved = false) as Hd
      by (intros x; by destruct (Mem.job_status x)).
    specialize (H Hd). lia.
  - simpl. unfold Mem.count.
    pose proof (filter_disjoint_length
                  (fun u => UserRole_eqb (Mem.user_role u) employer)
                  (fun u => UserRole_eqb (Mem.user_role u) seeker)
                  (JsMap.values (Mem.users s))) as H.
    unfold JsMap.values in *. rewrite length_map in H.
    assert (∀ x, UserRole_eqb (Mem.user_role x) employer = true →
                 UserRole_eqb (Mem.user_role x) seeker = false) as Hd
      by (intros x; by destruct (Mem.user_role x)).
    specialize (H Hd). lia.
Qed.

Lemma slice_In {A} (l : list A) a b x : In x (slice l a b) → In x l.
Proof.
  unfold slice. intros H. apply list_elem_of_In in H.
  apply list_elem_of_In. by eapply subseteq_drop, subseteq_take.
Qed.

Lemma StronglySorted_weaken {A} (R R' : A → A → Prop) l :
  (∀ a b, R a b → R' a b) → StronglySorted R l → StronglySorted R' l.
Proof.
  intros HR. induction 1 as [|x l Hs IH Hx]; constructor; [done|].
  eapply Forall_impl; [exact Hx|]. auto.
Qed.

Lemma StronglySorted_firstn {A} (R : A → A → Prop) l n :
  StronglySorted R l → StronglySorted R (firstn n l).
Proof.
  intros Hs. revert n. induction Hs as [|x l Hs IH Hx]; intros n.
  - rewrite firstn_nil. constructor.
  - destruct n; simpl; constructor; [apply IH|].
    rewrite Forall_forall in Hx. apply Forall_forall. intros y Hy.
    by apply Hx, (subseteq_take n l).
Qed.

Lemma slice_0_firstn {A} (l : list A) n :
  0 <= n → slice l 0 n = firstn (Z.to_nat n) l.
Proof. intros Hn. rewrite slice_nonneg by lia. simpl. f_equal. lia. Qed.

(** X7.  [getFeaturedJobs] is the first page of a search without filters:
    the same approved jobs, newest first.  Every job it returns is
    approved; for a limit of at least 0 it returns at most that many jobs,
    so [GET /api/jobs/featured] returns at most 20 whenever the requested
    limit is absent or positive. *)
Theorem getFeaturedJobs_first_page (limit : Z) (now : Z) (s : Mem.MemStorage) :
  Mem.getFeaturedJobs (Some limit) s
  = Mem.items (Mem.searchJobs no_filters (Some 1) (Some limit) now s)
  ∧ (∀ job, In job (Mem.getFeaturedJobs (Some limit) s) →
            Mem.job_status job = job_approved
            ∧ In job (JsMap.values (Mem.jobs s)))
  ∧ (0 <= limit →
     Z.of_nat (length (Mem.getFeaturedJobs (Some limit) s)) <= limit
     ∧ Mem.getFeaturedJobs (Some limit) s
       = firstn (Z.to_nat limit) (Mem.getApprovedJobs s)
     ∧ StronglySorted (fun a b => Mem.job_createdAt b <= Mem.job_createdAt a)
         (Mem.getFeaturedJobs (Some limit) s))
  ∧ (∀ parsed, 1 <= num_or parsed 6 →
       ∃ jobs, Mem.get_featured parsed s = Mem.Json jobs
               ∧ Z.of_nat (length jobs) <= 20).
Proof.
  split; [reflexivity|]. split; [|split].
  - intros job Hin. unfold Mem.getFeaturedJobs in Hin. apply slice_In in Hin.
    eapply Permutation_in in Hin; [|apply js_sort_Permutation].
    apply filter_In in Hin as [Hin Hst]. split; [|done].
    by destruct (Mem.job_status job).
  - intros Hl. unfold Mem.getFeaturedJobs. simpl.
    rewrite slice_0_firstn by done. fold (Mem.getApprovedJobs s).
    split; [rewrite length_firstn; lia|]. split; [done|].
    apply StronglySorted_firstn.
    apply (StronglySorted_weaken
             (fun a b => - Mem.job_createdAt a <= - Mem.job_createdAt b));
      [intros a b ?; lia|].
    apply (js_sort_sorted Mem.cmp_newest (fun j => - Mem.job_createdAt j)).
    intros a b. unfold Mem.cmp_newest. lia.
  - intros parsed Hp. eexists. split; [reflexivity|].
    unfold Mem.getFeaturedJobs. simpl. rewrite slice_0_firstn by lia.
    rewrite length_firstn. lia.
Qed.

Lemma getFeaturedJobs_first_page_witness :
  0 <= 2
  ∧ length (Mem.getFeaturedJobs (Some 2) (SearchSample.maths_jobs 3)) = 2%nat
  ∧ Mem.getFeaturedJobs (Some 2) (SearchSample.maths_jobs 3)
    = firstn 2 (Mem.getApprovedJobs (SearchSample.maths_jobs 3)).
Proof.
  split; [lia|]. split; [reflexivity|].
  destruct (getFeaturedJobs_first_page 2 50 (SearchSample.maths_jobs 3))
    as (_ & _ & H & _).
  destruct H as (_ & H & _); [lia|]. exact H.
Defined.

(** ** Express handlers: moderation, access and company profiles *)

(** X8.  The admin status handlers do not look the record up first: for an
    id that is not in the store and a valid status they still answer
    success, leave jobs and companies as they are, and record an audit
    entry for the id. *)
Theorem patch_status_missing_id
    (u : Mem.UserPayload) (id status logId : string) (now : Z) (s : Mem.MemStorage) :
  Mem.email_verified u = true →
  str_or (Mem.role u) "seeker" = "admin" →
  status = "approved" ∨ status = "rejected" →
  (Mem.getJob id s = None →
   let r := Mem.patch_job_status (Some u) id status logId now s in
   fst r = Mem.Json tt
   ∧ Mem.jobs (snd r) = Mem.jobs s
   ∧ Mem.companies (snd r) = Mem.companies s
   ∧ ∃ log, JsMap.get logId (Mem.auditLogs (snd r)) = Some log
            ∧ Mem.ial_targetId (Mem.log_ins log) = id
            ∧ Mem.ial_actorUid (Mem.log_ins log) = Mem.uid u
            ∧ Mem.ial_action (Mem.log_ins log) = "job_" +:+ status)
  ∧ (Mem.getCompany id s = None →
     let r := Mem.patch_company_status (Some u) id status logId now s in
     fst r = Mem.Json tt
     ∧ Mem.jobs (snd r) = Mem.jobs s
     ∧ Mem.companies (snd r) = Mem.companies s
     ∧ ∃ log, JsMap.get logId (Mem.auditLogs (snd r)) = Some log
              ∧ Mem.ial_targetId (Mem.log_ins log) = id
              ∧ Mem.ial_actorUid (Mem.log_ins log) = Mem.uid u
              ∧ Mem.ial_action (Mem.log_ins log) = "company_" +:+ status).
Proof.
  intros Hv Hrole Hst. split.
  - intros Hnone. cbv zeta. unfold Mem.patch_job_status, Mem.guard.
    rewrite Hv, Hrole. simpl. unfold Mem.updateJob.
    unfold Mem.getJob in Hnone. rewrite Hnone.
    destruct Hst as [-> | ->]; simpl; (repeat split; try done);
      eexists; (split; [apply get_set_eq|by repeat split]).
  - intros Hnone. cbv zeta. unfold Mem.patch_company_status, Mem.guard.
    rewrite Hv, Hrole. simpl. unfold Mem.updateCompany.
    unfold Mem.getCompany in Hnone. rewrite Hnone.
    destruct Hst as [-> | ->]; simpl; (repeat split; try done);
      eexists; (split; [apply get_set_eq|by repeat split]).
Qed.

Lemma patch_status_missing_id_witness :
  Mem.getJob "ghost" Sample.mem_one_job = None
  ∧ fst (Mem.patch_job_status (Some Sample.admin_user) "ghost" "approved" "log9" 50
           Sample.mem_one_job) = Mem.Json tt
  ∧ Mem.jobs (snd (Mem.patch_job_status (Some Sample.admin_user) "ghost" "approved"
                     "log9" 50 Sample.mem_one_job))
    = Mem.jobs Sample.mem_one_job.
Proof.
  split; [reflexivity|].
  destruct (patch_status_missing_id Sample.admin_user "ghost" "approved" "log9" 50
              Sample.mem_one_job) as [H _]; [reflexivity|reflexivity|by left|].
  destruct H as (Hr & Hj & _); [reflexivity|]. by split.
Defined.

(** X9.  A caller without a token gets 401, a caller whose e-mail is not
    verified or whose role is not the required one gets 403 (a token
    without a role claim counts as seeker), and in each case the handler
    leaves the store unchanged.  The required role is admin for the two
    status handlers, seeker for [POST /api/applications] and employer for
    [POST /api/jobs]: so only a verified admin can set the status of a
    job or a company, only a verified seeker can submit an application (a
    verified admin or employer gets 403), and only a verified employer
    can post a job. *)
Theorem handlers_refuse_other_callers
    (user : option Mem.UserPayload) (now : Z) (s : Mem.MemStorage) :
  ((∀ u, user = Some u →
         Mem.email_verified u = false ∨ str_or (Mem.role u) "seeker" ≠ "admin") →
   (∀ jobId status logId,
      ∃ c e, Mem.patch_job_status user jobId status logId now s = (Mem.Failure c e, s)
             ∧ c = match user with Some _ => 403 | None => 401 end)
   ∧ (∀ companyId status logId,
        ∃ c e, Mem.patch_company_status user companyId status logId now s
               = (Mem.Failure c e, s)
               ∧ c = match user with Some _ => 403 | None => 401 end))
  ∧ ((∀ u, user = Some u →
           Mem.email_verified u = false ∨ str_or (Mem.role u) "seeker" ≠ "seeker") →
     ∀ body id,
       ∃ c e, Mem.post_applications user body id now s = (Mem.Failure c e, s)
              ∧ c = match user with Some _ => 403 | None => 401 end)
  ∧ ((∀ u, user = Some u →
           Mem.email_verified u = false ∨ str_or (Mem.role u) "seeker" ≠ "employer") →
     ∀ body id,
       ∃ c e, Mem.post_jobs user body id now s = (Mem.Failure c e, s)
              ∧ c = match user with Some _ => 403 | None => 401 end).
Proof.
  assert (∀ A r (k : Mem.UserPayload → Mem.Response A * Mem.MemStorage),
            (∀ u, user = Some u →
                  Mem.email_verified u = false ∨ str_or (Mem.role u) "seeker" ≠ r) →
            ∃ c e, Mem.guard user true (Some [r]) k s = (Mem.Failure c e, s)
                   ∧ c = match user with Some _ => 403 | None => 401 end) as Hguard.
  { intros A r k Hr. unfold Mem.guard. destruct user as [u|]; [|by eexists _, _].
    destruct (Hr u eq_refl) as [-> | Hne]; simpl; [by eexists _, _|].
    destruct (Mem.email_verified u); simpl; [|by eexists _, _].
    apply String.eqb_neq in Hne. rewrite Hne. simpl. by eexists _, _. }
  split; [|split].
  - intros Hnot. split; intros; by apply Hguard.
  - intros Hnot body id. by apply Hguard.
  - intros Hnot body id. by apply Hguard.
Qed.

Lemma handlers_refuse_other_callers_witness :
  (∃ c e, Mem.patch_job_status (Some Sample.seeker_user) "j1" "rejected" "log9" 50
            Sample.mem_one_job
          = (Mem.Failure c e, Sample.mem_one_job) ∧ c = 403)
  ∧ (Mem.email_verified Sample.admin_user = true
     ∧ str_or (Mem.role Sample.admin_user) "seeker" = "admin"
     ∧ ∃ c e, Mem.post_applications (Some Sample.admin_user)
                {| Mem.b_jobId := "j1"; Mem.b_resumePath := "resumes/cv.pdf";
                   Mem.b_coverLetter := None |} "a9" 50 Sample.mem_one_job
              = (Mem.Failure c e, Sample.mem_one_job) ∧ c = 403).
Proof.
  split.
  - destruct (handlers_refuse_other_callers (Some Sample.seeker_user) 50
                Sample.mem_one_job) as (H & _).
    destruct H as [H _].
    { intros u [= <-]. by right. }
    exact (H "j1" "rejected" "log9").
  - split; [reflexivity|]. split; [reflexivity|].
    destruct (handlers_refuse_other_callers (Some Sample.admin_user) 50
                Sample.mem_one_job) as (_ & H & _).
    apply H. intros u [= <-]. by right.
Defined.

(** X10.  [PUT /api/companies/:id] by a verified caller.  For the owner of
    the company the call succeeds and the stored record keeps its id,
    status, owner, proof documents, logo and creation time whatever the
    body holds; when the company is approved its name, website, institute
    type and HR e-mail are kept too, and only phone and address follow
    the body.  No other company and no other collection changes.  For a
    missing company or a caller who is not the owner the answer is 403 and
    the store is unchanged. *)
Theorem put_company_protected_fields
    (u : Mem.UserPayload) (id : string) (p : Mem.CompanyPatch) (now : Z)
    (s : Mem.MemStorage) :
  Mem.email_verified u = true →
  let r := Mem.put_company (Some u) id p now s in
  (∀ c, Mem.getCompany id s = Some c →
        Mem.ic_ownerUid (Mem.company_ins c) = Mem.uid u →
        fst r = Mem.Json tt
        ∧ (∃ c', Mem.getCompany id (snd r) = Some c'
                 ∧ Mem.company_id c' = Mem.company_id c
                 ∧ Mem.company_status c' = Mem.company_status c
                 ∧ Mem.ic_ownerUid (Mem.company_ins c') = Mem.uid u
                 ∧ Mem.ic_proofDocs (Mem.company_ins c')
                   = Mem.ic_proofDocs (Mem.company_ins c)
                 ∧ Mem.ic_logoPath (Mem.company_ins c')
                   = Mem.ic_logoPath (Mem.company_ins c)
                 ∧ Mem.company_createdAt c' = Mem.company_createdAt c
                 ∧ Mem.company_updatedAt c' = now
                 ∧ Mem.ic_phone (Mem.company_ins c')
                   = match Mem.cp_phone p with
                     | Some w => Some w
                     | None => Mem.ic_phone (Mem.company_ins c)
                     end
                 ∧ Mem.ic_address (Mem.company_ins c')
                   = default (Mem.ic_address (Mem.company_ins c)) (Mem.cp_address p)
                 ∧ (Mem.company_status c = company_approved →
                    Mem.ic_name (Mem.company_ins c') = Mem.ic_name (Mem.company_ins c)
                    ∧ Mem.ic_website (Mem.company_ins c')
                      = Mem.ic_website (Mem.company_ins c)
                    ∧ Mem.ic_instituteType (Mem.company_ins c')
                      = Mem.ic_instituteType (Mem.company_ins c)
                    ∧ Mem.ic_hrEmail (Mem.company_ins c')
                      = Mem.ic_hrEmail (Mem.company_ins c)))
        ∧ (∀ id', id' ≠ id → Mem.getCompany id' (snd r) = Mem.getCompany id' s)
        ∧ Mem.jobs (snd r) = Mem.jobs s ∧ Mem.users (snd r) = Mem.users s
        ∧ Mem.applications (snd r) = Mem.applications s
        ∧ Mem.auditLogs (snd r) = Mem.auditLogs s)
  ∧ ((Mem.getCompany id s = None
      ∨ ∃ c, Mem.getCompany id s = Some c
             ∧ Mem.ic_ownerUid (Mem.company_ins c) ≠ Mem.uid u) →
     r = (Mem.Failure 403 "Not authorized", s)).
Proof.
  intros Hv. cbv zeta. unfold Mem.put_company, Mem.guard. rewrite Hv. simpl. split.
  - intros c Hc Hown. rewrite Hc.
    rewrite <- Hown, String.eqb_refl. simpl.
    assert (∀ q,
      (let '(_, s1) := Mem.updateCompany id (Mem.patch_company q) now s in
       (Mem.Json tt, s1))
      = (Mem.Json tt, snd (Mem.updateCompany id (Mem.patch_company q) now s))) as Hlet.
    { intros q. by destruct (Mem.updateCompany _ _ _ _). }
    rewrite !Hlet. clear Hlet.
    assert (∀ q, Mem.cp_phone q = Mem.cp_phone p → Mem.cp_address q = Mem.cp_address p →
                 (Mem.company_status c = company_approved →
                  Mem.cp_name q = None ∧ Mem.cp_website q = None
                  ∧ Mem.cp_instituteType q = None ∧ Mem.cp_hrEmail q = None) →
      let s' := snd (Mem.updateCompany id (Mem.patch_company q) now s) in
      (∃ c', Mem.getCompany id s' = Some c'
             ∧ Mem.company_id c' = Mem.company_id c
             ∧ Mem.company_status c' = Mem.company_status c
             ∧ Mem.ic_ownerUid (Mem.company_ins c') = Mem.ic_ownerUid (Mem.company_ins c)
             ∧ Mem.ic_proofDocs (Mem.company_ins c')
               = Mem.ic_proofDocs (Mem.company_ins c)
             ∧ Mem.ic_logoPath (Mem.company_ins c')
               = Mem.ic_logoPath (Mem.company_ins c)
             ∧ Mem.company_createdAt c' = Mem.company_createdAt c
             ∧ Mem.company_updatedAt c' = now
             ∧ Mem.ic_phone (Mem.company_ins c')
               = match Mem.cp_phone p with
                 | Some w => Some w
                 | None => Mem.ic_phone (Mem.company_ins c)
                 end
             ∧ Mem.ic_address (Mem.company_ins c')
               = default (Mem.ic_address (Mem.company_ins c)) (Mem.cp_address p)
             ∧ (Mem.company_status c = company_approved →
                Mem.ic_name (Mem.company_ins c') = Mem.ic_name (Mem.company_ins c)
                ∧ Mem.ic_website (Mem.company_ins c')
                  = Mem.ic_website (Mem.company_ins c)
                ∧ Mem.ic_instituteType (Mem.company_ins c')
                  = Mem.ic_instituteType (Mem.company_ins c)
                ∧ Mem.ic_hrEmail (Mem.company_ins c')
                  = Mem.ic_hrEmail (Mem.company_ins c)))
      ∧ (∀ id', id' ≠ id → Mem.getCompany id' s' = Mem.getCompany id' s)
      ∧ Mem.jobs s' = Mem.jobs s ∧ Mem.users s' = Mem.users s
      ∧ Mem.applications s' = Mem.applications s
      ∧ Mem.auditLogs s' = Mem.auditLogs s) as Hupd.
    { intros q Hph Had Happ. cbv zeta.
      destruct (updateCompany_frame id (Mem.patch_company q) now s) as (Fa & Fu & Fj & Fl).
      split; [|split; [|done]].
      - rewrite getCompany_updateCompany, String.eqb_refl, Hc. simpl.
        eexists. split; [reflexivity|]. simpl. rewrite Hph, Had.
        repeat split; try done.
        + by destruct (Happ H) as (-> & _).
        + by destruct (Happ H) as (_ & -> & _).
        + by destruct (Happ H) as (_ & _ & -> & _).
        + by destruct (Happ H) as (_ & _ & _ & ->).
      - intros id' Hne. rewrite getCompany_updateCompany.
        destruct (String.eqb_spec id id'); [congruence|done]. }
    destruct (CompanyStatus_eqb (Mem.company_status c) company_approved) eqn:Hst; simpl.
    + split; [done|]. apply Hupd; done.
    + split; [done|]. apply Hupd; try done.
      intros Habs. rewrite Habs in Hst. done.
  - intros [Hnone | (c & Hc & Hne)].
    + by rewrite Hnone.
    + rewrite Hc. apply String.eqb_neq in Hne. by rewrite Hne.
Qed.

Lemma put_company_protected_fields_witness :
  let emma := {| Mem.uid := "emma"; Mem.email_verified := true;
                 Mem.role := Some "employer" |} in
  let s := snd (Mem.patch_company_status (Some Sample.admin_user) "c1" "approved"
                  "log1" 8 Sample.mem_pending_company) in
  let p := {| Mem.cp_name := Some "Another Name"; Mem.cp_website := None;
              Mem.cp_instituteType := None; Mem.cp_hrEmail := None;
              Mem.cp_phone := Some "020-5550100"; Mem.cp_address := None |} in
  ∃ c c', Mem.getCompany "c1" s = Some c
          ∧ Mem.getCompany "c1" (snd (Mem.put_company (Some emma) "c1" p 30 s)) = Some c'
          ∧ Mem.ic_name (Mem.company_ins c') = Mem.ic_name (Mem.company_ins c)
          ∧ Mem.ic_phone (Mem.company_ins c') = Some "020-5550100".
Proof.
  cbv zeta.
  set (emma := {| Mem.uid := "emma"; Mem.email_verified := true;
                  Mem.role := Some "employer" |}).
  set (s := snd (Mem.patch_company_status _ _ _ _ _ _)).
  set (p := Mem.Build_CompanyPatch _ _ _ _ _ _).
  destruct (Mem.getCompany "c1" s) as [c|] eqn:Hc; [|by vm_compute in Hc].
  destruct (put_company_protected_fields emma "c1" p 30 s eq_refl) as [H _].
  destruct (H c Hc) as (_ & (c' & Hget & _ & _ & _ & _ & _ & _ & _ & Hph & _ & Happ) & _).
  { vm_compute in Hc. injection Hc as <-. reflexivity. }
  exists c, c'. split; [reflexivity|]. split; [exact Hget|].
  split; [|exact Hph].
  apply Happ. vm_compute in Hc. injection Hc as <-. reflexivity.
Defined.

Lemma find_snoc {A} (f : A → bool) l x :
  List.find f (l ++ [x])
  = match List.find f l with
    | Some y => Some y
    | None => if f x then Some x else None
    end.
Proof.
  induction l as [|y l IH]; simpl; [done|]. by destruct (f y).
Qed.

(** X11.  [POST /api/companies] by a verified caller with an id not yet in
    the store: the company is stored under the id as pending, with the
    caller as owner, no proof documents and no logo, and is the answer.
    The handler does not look for an earlier company of the caller: the
    call succeeds anyway, and [GET /api/companies/me] afterwards answers
    the caller's earlier company when there is one, the new one
    otherwise. *)
Theorem post_companies_then_me
    (u : Mem.UserPayload) (body : Mem.CompanyBody) (id : string) (now : Z)
    (s : Mem.MemStorage) :
  Mem.email_verified u = true →
  Mem.getCompany id s = None →
  let r := Mem.post_companies (Some u) body id now s in
  ∃ c, fst r = Mem.Json c
       ∧ Mem.getCompany id (snd r) = Some c
       ∧ Mem.company_id c = id
       ∧ Mem.company_status c = company_pending
       ∧ Mem.ic_ownerUid (Mem.company_ins c) = Mem.uid u
       ∧ Mem.ic_proofDocs (Mem.company_ins c) = []
       ∧ Mem.ic_logoPath (Mem.company_ins c) = None
       ∧ Mem.get_companies_me (Some u) (snd r)
         = (Mem.Json (match Mem.getCompanyByOwner (Mem.uid u) s with
                      | Some old => Some old
                      | None => Some c
                      end), snd r).
Proof.
  intros Hv Hfresh. cbv zeta.
  unfold Mem.post_companies, Mem.get_companies_me, Mem.guard. rewrite Hv. simpl.
  eexists. split; [reflexivity|]. unfold Mem.getCompany. simpl.
  rewrite get_set_eq. repeat split.
  unfold Mem.getCompanyByOwner. simpl.
  unfold Mem.getCompany in Hfresh. rewrite set_fresh by done.
  unfold JsMap.values. rewrite map_app. simpl map. rewrite find_snoc. simpl.
  by rewrite String.eqb_refl.
Qed.

Lemma post_companies_then_me_witness :
  let emma := {| Mem.uid := "emma"; Mem.email_verified := true;
                 Mem.role := Some "employer" |} in
  let body := {| Mem.cb_name := "Second College"; Mem.cb_website := None;
                 Mem.cb_instituteType := "Private University";
                 Mem.cb_hrEmail := "hr@second.example"; Mem.cb_phone := None;
                 Mem.cb_address := "2 College Road, Pune" |} in
  ∃ c, fst (Mem.post_companies (Some emma) body "c2" 30 Sample.mem_pending_company)
       = Mem.Json c
       ∧ Mem.company_id c = "c2"
       ∧ ∃ old, Mem.company_id old = "c1"
                ∧ fst (Mem.get_companies_me (Some emma)
                         (snd (Mem.post_companies (Some emma) body "c2" 30
                                 Sample.mem_pending_company)))
                  = Mem.Json (Some old).
Proof.
  cbv zeta.
  set (emma := {| Mem.uid := "emma"; Mem.email_verified := true;
                  Mem.role := Some "employer" |}).
  set (body := Mem.Build_CompanyBody _ _ _ _ _ _).
  destruct (post_companies_then_me emma body "c2" 30 Sample.mem_pending_company
              eq_refl eq_refl)
    as (c & Hr & _ & Hid & _ & _ & _ & _ & Hme).
  exists c. split; [exact Hr|]. split; [exact Hid|].
  rewrite Hme. simpl. eexists. split; [|reflexivity]. reflexivity.
Defined.

(** What a successful [POST /api/applications] has checked and done. *)
Lemma post_applications_success u body id now s a :
  fst (Mem.post_applications (Some u) body id now s) = Mem.Json a →
  Mem.email_verified u = true
  ∧ (str_or (Mem.role u) "seeker" =? "seeker")%string = true
  ∧ ∃ job, Mem.getJob (Mem.b_jobId body) s = Some job
           ∧ Mem.job_status job = job_approved
           ∧ date_before (Mem.lastDate (Mem.job_ins job)) now = false
           ∧ Mem.getApplicationByDedupeKey
               (Mem.b_jobId body +:+ "_" +:+ Mem.uid u) s = None
           ∧ a = fst (Mem.createApplication
                        {| Mem.ia_jobId := Mem.b_jobId body;
                           Mem.ia_applicantUid := Mem.uid u;
                           Mem.ia_resumePath := Mem.b_resumePath body;
                           Mem.ia_coverLetter := Mem.b_coverLetter body;
                           Mem.ia_dedupeKey :=
                             Mem.b_jobId body +:+ "_" +:+ Mem.uid u |} id now s)
           ∧ snd (Mem.post_applications (Some u) body id now s)
             = snd (Mem.updateJob (Mem.job_id job)
                      (Mem.with_applicationCount (Mem.job_applicationCount job + 1)) now
                      (snd (Mem.createApplication
                              {| Mem.ia_jobId := Mem.b_jobId body;
                                 Mem.ia_applicantUid := Mem.uid u;
                                 Mem.ia_resumePath := Mem.b_resumePath body;
                                 Mem.ia_coverLetter := Mem.b_coverLetter body;
                                 Mem.ia_dedupeKey :=
                                   Mem.b_jobId body +:+ "_" +:+ Mem.uid u |}
                              id now s))).
Proof.
  unfold Mem.post_applications, Mem.guard.
  destruct (Mem.email_verified u); simpl; [|done].
  destruct (str_or (Mem.role u) "seeker" =? "seeker")%string; simpl; [|done].
  destruct (Mem.getJob (Mem.b_jobId body) s) as [job|]; [|done].
  destruct (JobStatus_eqb (Mem.job_status job) job_approved) eqn:Hst; simpl; [|done].
  destruct (date_before (Mem.lastDate (Mem.job_ins job)) now) eqn:Hdl; [done|].
  destruct (Mem.getApplicationByDedupeKey _ s); [done|].
  replace ((if Mem.job_applicationCount job =? 0 then 0
            else Mem.job_applicationCount job) + 1)
    with (Mem.job_applicationCount job + 1)
    by (destruct (Z.eqb_spec (Mem.job_applicationCount job) 0); lia).
  destruct (Mem.updateJob (Mem.job_id job) _ now _) as [o s2] eqn:Hup. simpl.
  intros [= <-]. repeat split. exists job. repeat split; try done.
  - by destruct (Mem.job_status job).
  - simpl in Hup. by rewrite Hup.
Qed.

(** The applications after a request: unchanged, or one record added by
    [POST /api/applications] under the id of the request. *)
Lemma handle_applications r now s :
  Mem.applications (Mem.handle r now s) = Mem.applications s
  ∨ (∃ user body id app,
       r = Mem.PostApplication user body id
       ∧ Mem.applications (Mem.handle r now s)
         = JsMap.set id app (Mem.applications s)).
Proof.
  destruct r; try (left; by run_handler).
  run_handler; try (by left); right; by eexists _, _, _, _.
Qed.

(** An application with a given dedupe key stays in the store while
    requests are served. *)
Lemma serve_keeps_dedupeKey key rs : ∀ s,
  Mem.fresh_ids rs s →
  (∃ app, In app (JsMap.values (Mem.applications s))
          ∧ Mem.ia_dedupeKey (Mem.app_ins app) = key) →
  ∃ app, In app (JsMap.values (Mem.applications (Mem.serve rs s)))
         ∧ Mem.ia_dedupeKey (Mem.app_ins app) = key.
Proof.
  induction rs as [|[r now] rs IH]; intros s Hfresh Hin; simpl in *; [done|].
  destruct Hfresh as [Hr Hrs]. apply IH; [done|].
  destruct Hin as (app & Hin & Hkey). exists app. split; [|done].
  destruct (handle_applications r now s)
    as [->|(user & body & id & app' & -> & ->)]; [done|].
  simpl in Hr. unfold Mem.getApplication in Hr.
  rewrite (set_fresh _ _ _ Hr). unfold JsMap.values in *.
  rewrite map_app. apply in_or_app. by left.
Qed.

(** X12.  [POST /api/applications]: once a call by a user for a job has
    succeeded, every later call by that user for that job is refused and
    leaves the store unchanged, whatever its resume, id and time and
    whatever requests have been served in between (each new record
    getting an id that is not in use, as [randomUUID()] provides): with
    status 400 when the token is again that of a verified seeker, and
    with status 400 or 403 for any token of the same uid. *)
Theorem post_applications_once
    (u : Mem.UserPayload) (body : Mem.ApplicationBody) (id : string) (now : Z)
    (s : Mem.MemStorage) (a : Mem.Application) :
  fst (Mem.post_applications (Some u) body id now s) = Mem.Json a →
  let s1 := snd (Mem.post_applications (Some u) body id now s) in
  ∀ rs, Mem.fresh_ids rs s1 →
  ∀ u' body' id' now',
    Mem.uid u' = Mem.uid u →
    Mem.b_jobId body' = Mem.b_jobId body →
    ∃ c e, Mem.post_applications (Some u') body' id' now' (Mem.serve rs s1)
           = (Mem.Failure c e, Mem.serve rs s1)
           ∧ (c = 400 ∨ c = 403)
           ∧ (Mem.email_verified u' = true →
              str_or (Mem.role u') "seeker" = "seeker" → c = 400).
Proof.
  intros Hok s1 rs Hfresh u' body' id' now' Huid Hjob.
  destruct (post_applications_success _ _ _ _ _ _ Hok)
    as (Hv & Hr & job & Hj & Hst & Hdl & Hdk & _ & Hs1).
  pose (key := Mem.b_jobId body +:+ "_" +:+ Mem.uid u).
  pose (app := fst (Mem.createApplication
                      {| Mem.ia_jobId := Mem.b_jobId body;
                         Mem.ia_applicantUid := Mem.uid u;
                         Mem.ia_resumePath := Mem.b_resumePath body;
                         Mem.ia_coverLetter := Mem.b_coverLetter body;
                         Mem.ia_dedupeKey := key |} id now s)).
  assert (∃ x, In x (JsMap.values (Mem.applications s1))
               ∧ Mem.ia_dedupeKey (Mem.app_ins x) = key) as Hin.
  { exists app. split; [|done]. unfold s1. rewrite Hs1.
    rewrite (proj1 (updateJob_frame _ _ _ _)). simpl.
    unfold JsMap.values. apply in_map_iff.
    exists (id, app). split; [reflexivity|].
    apply get_In. apply get_set_eq. }
  apply (serve_keeps_dedupeKey key rs s1 Hfresh) in Hin.
  destruct Hin as (x & Hin & Hkey).
  generalize dependent (Mem.serve rs s1). intros s2 Hin.
  unfold Mem.post_applications, Mem.guard.
  destruct (Mem.email_verified u') eqn:Hv'; simpl;
    [|eexists _, _; split; [reflexivity|]; split; [by right|done]].
  destruct (str_or (Mem.role u') "seeker" =? "seeker")%string eqn:Hr'; simpl;
    [|apply String.eqb_neq in Hr';
      eexists _, _; split; [reflexivity|]; split; [by right|done]].
  rewrite Hjob, Huid.
  destruct (Mem.getJob (Mem.b_jobId body) s2) as [job2|] eqn:Hj2;
    [|eexists _, _; split; [reflexivity|]; split; [by left|done]].
  destruct (negb (JobStatus_eqb (Mem.job_status job2) job_approved));
    [eexists _, _; split; [reflexivity|]; split; [by left|done]|].
  destruct (date_before (Mem.lastDate (Mem.job_ins job2)) now');
    [eexists _, _; split; [reflexivity|]; split; [by left|done]|].
  destruct (Mem.getApplicationByDedupeKey _ s2) as [?|] eqn:Hdk2;
    [eexists _, _; split; [reflexivity|]; split; [by left|done]|].
  exfalso. unfold Mem.getApplicationByDedupeKey in Hdk2.
  apply (find_none _ _ Hdk2) in Hin. simpl in Hin.
  fold key in Hin. rewrite Hkey in Hin. by rewrite String.eqb_refl in Hin.
Qed.

Lemma post_applications_once_witness :
  let tom := {| Mem.uid := "tom"; Mem.email_verified := true; Mem.role := None |} in
  let other := {| Mem.b_jobId := "j1"; Mem.b_resumePath := "resumes/tom/cv.pdf";
                  Mem.b_coverLetter := None |} in
  let again := {| Mem.b_jobId := "j1"; Mem.b_resumePath := "resumes/sam/cv2.pdf";
                  Mem.b_coverLetter := Some "Please consider me." |} in
  let rs := [(Mem.GetJob "j1", 21);
             (Mem.PostApplication (Some tom) other "a2", 22);
             (Mem.PatchJobStatus (Some Sample.admin_user) "j1" "approved" "log5", 23)] in
  Mem.fresh_ids rs Sample.mem_applied
  ∧ length (Mem.applications (Mem.serve rs Sample.mem_applied)) = 2%nat
  ∧ ∃ c e, Mem.post_applications (Some Sample.seeker_user) again "a3" 25
             (Mem.serve rs Sample.mem_applied)
           = (Mem.Failure c e, Mem.serve rs Sample.mem_applied)
           ∧ c = 400.
Proof.
  cbv zeta.
  assert (Mem.fresh_ids
            [(Mem.GetJob "j1", 21);
             (Mem.PostApplication
                (Some {| Mem.uid := "tom"; Mem.email_verified := true;
                         Mem.role := None |})
                {| Mem.b_jobId := "j1"; Mem.b_resumePath := "resumes/tom/cv.pdf";
                   Mem.b_coverLetter := None |} "a2", 22);
             (Mem.PatchJobStatus (Some Sample.admin_user) "j1" "approved" "log5", 23)]
            Sample.mem_applied) as Hfresh.
  { vm_compute. repeat split. }
  split; [exact Hfresh|]. split; [by vm_compute|].
  destruct (post_applications_once Sample.seeker_user
              {| Mem.b_jobId := "j1"; Mem.b_resumePath := "resumes/sam/cv.pdf";
                 Mem.b_coverLetter := None |} "a1" 20 Sample.mem_one_job
              (fst (Mem.createApplication
                      {| Mem.ia_jobId := "j1"; Mem.ia_applicantUid := "sam";
                         Mem.ia_resumePath := "resumes/sam/cv.pdf";
                         Mem.ia_coverLetter := None;
                         Mem.ia_dedupeKey := "j1_sam" |} "a1" 20 Sample.mem_one_job))
              ltac:(vm_compute; reflexivity) _ Hfresh Sample.seeker_user
              {| Mem.b_jobId := "j1"; Mem.b_resumePath := "resumes/sam/cv2.pdf";
                 Mem.b_coverLetter := Some "Please consider me." |} "a3" 25
              eq_refl eq_refl) as (c & e & Heq & _ & Hc).
  exists c, e. split; [exact Heq|]. by apply Hc.
Defined.

(** ** The Cloud Functions: access to applications *)

(** X13.  [signUrlForResume] never changes the store.  It answers with a
    signed-URL request only for a signed-in, verified caller and an
    existing application, and only if the caller is an admin or is an
    employer who posted the job the application is for; the request then
    names the resume of that application and expires one hour after the
    call.  Every refusal reaches the caller as [unauthenticated],
    [invalid-argument] or [internal]. *)
Theorem signUrlForResume_access
    (ctx : option Fn.Auth) (applicationId : string) (now : Z) (s : Fn.Store) :
  let r := Fn.signUrlForResume ctx applicationId now s in
  snd r = s
  ∧ (∀ url, fst r = Ok url →
       ∃ a d, ctx = Some a ∧ Fn.email_verified a = true
              ∧ Fn.applications s !! applicationId = Some d
              ∧ Fn.su_path url = Fn.a_resumePath d
              ∧ Fn.su_expires url = now + 3600000
              ∧ (Fn.has_role a "admin" = true
                 ∨ (Fn.has_role a "employer" = true
                    ∧ ∃ jd, Fn.jobs s !! Fn.a_jobId d = Some jd
                            ∧ Fn.j_posterUid jd = Fn.uid a)))
  ∧ (∀ e, fst r = Err e →
          e = unauthenticated ∨ e = invalid_argument ∨ e = internal).
Proof.
  cbv zeta. unfold Fn.signUrlForResume.
  assert (∀ (e : ErrorCode) (P : Fn.SignedUrl → Prop),
            e = unauthenticated ∨ e = invalid_argument ∨ e = internal →
            snd (Err (A := Fn.SignedUrl) e, s) = s
            ∧ (∀ url, fst (Err (A := Fn.SignedUrl) e, s) = Ok url → P url)
            ∧ (∀ e', fst (Err (A := Fn.SignedUrl) e, s) = Err e' →
                     e' = unauthenticated ∨ e' = invalid_argument ∨ e' = internal))
    as Hrefuse.
  { intros e P He. simpl. split; [done|]. split; [done|]. by intros ? [= <-]. }
  destruct ctx as [a|]; [|apply Hrefuse; auto].
  destruct (Fn.email_verified a) eqn:Hv; [|apply Hrefuse; auto].
  destruct (String.eqb applicationId ""); [apply Hrefuse; auto|].
  clear Hrefuse. unfold Fn.signUrlForResume_body.
  destruct (Fn.has_role a "admin") eqn:Hadmin;
    [|destruct (Fn.has_role a "employer") eqn:Hemp];
    run_M; (split; [done|]); (split; [|by intros ? [= <-]; eauto]);
    intros url [= <-]; eexists _, _; (repeat split; try done); eauto.
  right. split; [done|]. eexists. split; [done|].
  by apply String.eqb_eq, negb_false_iff.
Qed.

Lemma signUrlForResume_access_witness :
  ∃ url, fst (Fn.signUrlForResume (Some FnSample.emma) "a1" 50 FnSample.applied) = Ok url
         ∧ Fn.su_path url = "resumes/sam/cv.pdf"
         ∧ Fn.su_expires url = 3600050.
Proof.
  destruct (signUrlForResume_access (Some FnSample.emma) "a1" 50 FnSample.applied)
    as (_ & H & _).
  eexists. split; [vm_compute; reflexivity|].
  edestruct H as (a & d & _ & _ & Hd & Hp & He & _); [vm_compute; reflexivity|].
  vm_compute in Hd. injection Hd as <-. split; [exact Hp|exact He].
Defined.

(** X14.  [updateApplicationStatus] touches nothing but the application
    and the audit log.  If it changes an application or answers success,
    then the caller is signed in and verified, the application existed,
    the caller is an admin or an employer who posted the job of the
    application, and the one change is that this application gets the
    requested status, the notes and a new [updatedAt], its job, applicant,
    resume, cover letter and dedupe key staying as they were.  A
    successful call appends one audit entry that records the new and the
    previous status; a failed call appends none, even when the status has
    already been written. *)
Theorem updateApplicationStatus_access
    (ctx : option Fn.Auth) (appId status notes : string) (now : Z) (s : Fn.Store) :
  let r := Fn.updateApplicationStatus ctx appId status notes now s in
  (Fn.jobs (snd r) = Fn.jobs s ∧ Fn.companies (snd r) = Fn.companies s
   ∧ Fn.users (snd r) = Fn.users s ∧ Fn.authClaims (snd r) = Fn.authClaims s)
  ∧ (Fn.applications (snd r) ≠ Fn.applications s ∨ fst r = Ok tt →
     ∃ a d, ctx = Some a ∧ Fn.email_verified a = true
            ∧ Fn.applications s !! appId = Some d
            ∧ (Fn.has_role a "admin" = true
               ∨ (Fn.has_role a "employer" = true
                  ∧ ∃ jd, Fn.jobs s !! Fn.a_jobId d = Some jd
                          ∧ Fn.j_posterUid jd = Fn.uid a))
            ∧ Fn.applications (snd r)
              = <[appId := Fn.set_app_status status notes now d]> (Fn.applications s)
            ∧ (fst r = Ok tt →
               Fn.auditLogs (snd r)
               = Fn.auditLogs s
                 ++ [{| Fn.l_actorUid := Fn.uid a;
                        Fn.l_action := "application_status_changed";
                        Fn.l_targetType := "application"; Fn.l_targetId := appId;
                        Fn.l_metadata :=
                          [("status", status); ("previousStatus", Fn.a_status d)];
                        Fn.l_timestamp := now |}]))
  ∧ (∀ e, fst r = Err e → Fn.auditLogs (snd r) = Fn.auditLogs s).
Proof.
  cbv zeta. unfold Fn.updateApplicationStatus.
  destruct ctx as [a|]; [|by (repeat split; try done); intros [?|?]].
  destruct (Fn.email_verified a) eqn:Hv; [|by (repeat split; try done); intros [?|?]].
  destruct (_ || _); [by (repeat split; try done); intros [?|?]|].
  unfold Fn.updateApplicationStatus_body.
  destruct (Fn.has_role a "admin") eqn:Hadmin;
    [|destruct (Fn.has_role a "employer") eqn:Hemp];
    run_M; (split; [done|]); (split; [|done]);
    try (by intros [?|?]);
    intros _; eexists _, _; (repeat split; try done); eauto;
    right; (split; [done|]); eexists; (split; [done|]);
    by apply String.eqb_eq, negb_false_iff.
Qed.

Lemma updateApplicationStatus_access_witness :
  ∃ d, Fn.applications
         (snd (Fn.updateApplicationStatus (Some FnSample.emma) "a1" "shortlisted"
                 "strong profile" 40 FnSample.applied)) !! "a1" = Some d
       ∧ Fn.a_status d = "shortlisted" ∧ Fn.a_applicantUid d = "sam".
Proof.
  destruct (updateApplicationStatus_access (Some FnSample.emma) "a1" "shortlisted"
              "strong profile" 40 FnSample.applied) as (_ & H & _).
  destruct H as (a & d & _ & _ & Hd & _ & Happs & _); [right; by vm_compute|].
  rewrite Happs, lookup_insert_eq. eexists. split; [reflexivity|].
  vm_compute in Hd. injection Hd as <-. by split.
Defined.

(** ** The Cloud Functions: calls that fail after they have written *)

(** X15.  [approveEmployerUpgrade] by an admin, with both ids given.  If
    the company does not exist the call fails with [internal] and changes
    nothing.  If it exists it is approved in every case, whoever owns it;
    what follows depends on the account [uid]: without an Auth account the
    call stops there and answers [internal]; with an account but without a
    profile document the claim is set to employer and the call answers
    [internal]; with both, the claim and the profile role become employer,
    one audit entry is appended and the call succeeds.  The two failing
    cases append no audit entry. *)
Theorem approveEmployerUpgrade_outcomes
    (a : Fn.Auth) (uid_ companyId_ : string) (now : Z) (s : Fn.Store) :
  Fn.has_role a "admin" = true → uid_ ≠ "" → companyId_ ≠ "" →
  let r := Fn.approveEmployerUpgrade (Some a) uid_ companyId_ now s in
  (Fn.companies s !! companyId_ = None → r = (Err internal, s))
  ∧ (∀ cd, Fn.companies s !! companyId_ = Some cd →
       Fn.companies (snd r) = <[companyId_ := Fn.approve_company now cd]> (Fn.companies s)
       ∧ Fn.jobs (snd r) = Fn.jobs s ∧ Fn.applications (snd r) = Fn.applications s
       ∧ match Fn.authClaims s !! uid_, Fn.users s !! uid_ with
         | None, _ =>
             fst r = Err internal
             ∧ Fn.authClaims (snd r) = Fn.authClaims s
             ∧ Fn.users (snd r) = Fn.users s
             ∧ Fn.auditLogs (snd r) = Fn.auditLogs s
         | Some _, None =>
             fst r = Err internal
             ∧ Fn.authClaims (snd r) = <[uid_ := Some "employer"]> (Fn.authClaims s)
             ∧ Fn.users (snd r) = Fn.users s
             ∧ Fn.auditLogs (snd r) = Fn.auditLogs s
         | Some _, Some ud =>
             fst r = Ok tt
             ∧ Fn.authClaims (snd r) = <[uid_ := Some "employer"]> (Fn.authClaims s)
             ∧ Fn.users (snd r) = <[uid_ := Fn.make_employer now ud]> (Fn.users s)
             ∧ Fn.auditLogs (snd r)
               = Fn.auditLogs s
                 ++ [{| Fn.l_actorUid := Fn.uid a; Fn.l_action := "company_approved";
                        Fn.l_targetType := "company"; Fn.l_targetId := companyId_;
                        Fn.l_metadata := [("uid", uid_)]; Fn.l_timestamp := now |}]
         end).
Proof.
  intros Hadmin Hu Hc. cbv zeta. unfold Fn.approveEmployerUpgrade.
  rewrite Hadmin. apply String.eqb_neq in Hu, Hc. rewrite Hu, Hc. simpl.
  unfold Fn.approveEmployerUpgrade_body. split.
  - intros Hnone. unfold_M. by rewrite Hnone.
  - intros cd Hcd. unfold_M. rewrite Hcd. simpl.
    destruct (Fn.authClaims s !! uid_) as [cl|]; simpl; [|done].
    destruct (Fn.users s !! uid_) as [ud|]; simpl; done.
Qed.

Lemma approveEmployerUpgrade_outcomes_witness :
  fst (Fn.approveEmployerUpgrade (Some FnSample.root) "nobody" "c1" 50 FnSample.applied)
  = Err internal
  ∧ Fn.c_status
      <$> Fn.companies
            (snd (Fn.approveEmployerUpgrade (Some FnSample.root) "nobody" "c1" 50
                    FnSample.applied)) !! "c1"
    = Some company_approved.
Proof.
  destruct (approveEmployerUpgrade_outcomes FnSample.root "nobody" "c1" 50
              FnSample.applied eq_refl) as [_ H]; [done|done|].
  destruct (Fn.companies FnSample.applied !! "c1") as [cd|] eqn:Hcd;
    [|by vm_compute in Hcd].
  destruct (H cd eq_refl) as (Hcs & _ & _ & Hm).
  split.
  - assert (Fn.authClaims FnSample.applied !! "nobody" = None) as Hn by (by vm_compute).
    rewrite Hn in Hm. by destruct Hm.
  - rewrite Hcs, lookup_insert_eq. reflexivity.
Defined.

(** X16.  [applyToJob] by a verified seeker that passes every check (the
    job exists, is approved and open, the seeker has not applied, the new
    id is free).  The application is then stored under the new id, as
    submitted and with the dedupe key of the job and the seeker, and the
    counter of the job goes up by one, in every case.  The call answers
    the new id, and appends one audit entry, only if the profile of the
    seeker and the company of the job both exist; otherwise it answers
    [internal] with the application and the counter written and no audit
    entry, and the same request is refused from then on. *)
Theorem applyToJob_outcomes
    (a : Fn.Auth) (jobId resumePath coverLetter nid : string) (now : Z)
    (s : Fn.Store) (jd : Fn.JobDoc) :
  Fn.email_verified a = true → Fn.has_role a "seeker" = true →
  jobId ≠ "" → resumePath ≠ "" →
  Fn.jobs s !! jobId = Some jd →
  Fn.j_status jd = job_approved → now <= Fn.lastDate (Fn.j_data jd) →
  Fn.has_dedupeKey (Fn.dedupeKey_of jobId (Fn.uid a)) s = false →
  Fn.applications s !! nid = None →
  let r := Fn.applyToJob (Some a) jobId resumePath coverLetter nid now s in
  Fn.applications (snd r)
  = <[nid := Fn.new_application a jobId resumePath coverLetter
               (Fn.dedupeKey_of jobId (Fn.uid a)) now]> (Fn.applications s)
  ∧ Fn.jobs (snd r) = <[jobId := Fn.increment_applicationCount jd]> (Fn.jobs s)
  ∧ Fn.users (snd r) = Fn.users s ∧ Fn.companies (snd r) = Fn.companies s
  ∧ Fn.has_dedupeKey (Fn.dedupeKey_of jobId (Fn.uid a)) (snd r) = true
  ∧ (Fn.uid a ≠ "" → Fn.companyId (Fn.j_data jd) ≠ "" →
     is_Some (Fn.users s !! Fn.uid a) →
     is_Some (Fn.companies s !! Fn.companyId (Fn.j_data jd)) →
     fst r = Ok nid
     ∧ Fn.auditLogs (snd r)
       = Fn.auditLogs s
         ++ [{| Fn.l_actorUid := Fn.uid a; Fn.l_action := "application_submitted";
                Fn.l_targetType := "application"; Fn.l_targetId := nid;
                Fn.l_metadata := [("jobId", jobId)]; Fn.l_timestamp := now |}])
  ∧ (Fn.users s !! Fn.uid a = None
     ∨ Fn.companies s !! Fn.companyId (Fn.j_data jd) = None →
     fst r = Err internal ∧ Fn.auditLogs (snd r) = Fn.auditLogs s).
Proof.
  intros Hv Hrole Hj Hp Hjd Hst Hdl Hdk Hnid. cbv zeta.
  assert ((Fn.lastDate (Fn.j_data jd) <? now) = false) as Hlt by (apply Z.ltb_ge; lia).
  assert (∀ s', Fn.applications s'
                = <[nid := Fn.new_application a jobId resumePath coverLetter
                             (Fn.dedupeKey_of jobId (Fn.uid a)) now]> (Fn.applications s) →
                Fn.has_dedupeKey (Fn.dedupeKey_of jobId (Fn.uid a)) s' = true) as Hkey.
  { intros s' Hs'. apply has_dedupeKey_true. eexists nid, _.
    rewrite Hs', lookup_insert_eq. by split. }
  unfold Fn.applyToJob. rewrite Hv, Hrole.
  apply String.eqb_neq in Hj, Hp. rewrite Hj, Hp. simpl.
  unfold Fn.applyToJob_body.
  assert (negb (JobStatus_eqb (Fn.j_status jd) job_approved) = false) as Hst'
    by (by rewrite Hst).
  run_M; (repeat split; try done); try (by apply Hkey); try congruence;
    try (match goal with H : is_Some _ |- _ => destruct H as [? ?]; congruence end);
    try (match goal with H : _ ∨ _ |- _ => destruct H; congruence end);
    try (match goal with
         | H : (_ =? _)%string = true |- _ => apply String.eqb_eq in H; congruence
         end).
Qed.

Lemma applyToJob_outcomes_witness :
  ∃ jd, Fn.jobs FnSample.job_open !! "j1" = Some jd
        ∧ fst (Fn.applyToJob (Some FnSample.sam) "j1" "resumes/sam/cv.pdf" "" "a1" 20
                 FnSample.job_open) = Ok "a1".
Proof.
  set (jd := Fn.approve_job "root" 10
               (Fn.new_job FnSample.emma (ClientSample.job_data 1000) 5)).
  assert (Fn.jobs FnSample.job_open !! "j1" = Some jd) as Hjd by (by vm_compute).
  exists jd. split; [exact Hjd|].
  assert (20 <= Fn.lastDate (Fn.j_data jd)) as Hdl by (by vm_compute).
  assert (Fn.has_dedupeKey (Fn.dedupeKey_of "j1" (Fn.uid FnSample.sam))
            FnSample.job_open = false) as Hdk by (by vm_compute).
  assert (Fn.applications FnSample.job_open !! "a1" = None) as Hnid by (by vm_compute).
  destruct (applyToJob_outcomes FnSample.sam "j1" "resumes/sam/cv.pdf" "" "a1" 20
              FnSample.job_open jd eq_refl eq_refl ltac:(done) ltac:(done)
              Hjd eq_refl Hdl Hdk Hnid) as (_ & _ & _ & _ & _ & Hok & _).
  assert (is_Some (Fn.users FnSample.job_open !! Fn.uid FnSample.sam)) as Hu
    by (eexists; vm_compute; reflexivity).
  assert (is_Some (Fn.companies FnSample.job_open !! Fn.companyId (Fn.j_data jd))) as Hc
    by (eexists; vm_compute; reflexivity).
  exact (proj1 (Hok ltac:(done) ltac:(done) Hu Hc)).
Defined.

(** ** The Cloud Functions: registering a company and posting a job *)

Lemma owns_company_true uid_ s :
  Fn.owns_company uid_ s = true
  ↔ ∃ k c, Fn.companies s !! k = Some c ∧ Fn.c_ownerUid c = uid_.
Proof.
  unfold Fn.owns_company. rewrite existsb_exists. split.
  - intros ([k c] & Hin & Heq). exists k, c.
    apply list_elem_of_In, elem_of_map_to_list in Hin.
    split; [done|]. by apply String.eqb_eq.
  - intros (k & c & Hk & Heq). exists (k, c). split.
    + by apply list_elem_of_In, elem_of_map_to_list.
    + by apply String.eqb_eq.
Qed.

Lemma requestEmployerUpgrade_cases ctx parsed nid now s :
  let r := Fn.requestEmployerUpgrade ctx parsed nid now s in
  (snd r = s ∧ ∃ e, fst r = Err e ∧ (e = unauthenticated ∨ e = internal))
  ∨ (∃ a data,
       ctx = Some a ∧ parsed = Some data ∧ Fn.email_verified a = true
       ∧ Fn.owns_company (Fn.uid a) s = false
       ∧ Fn.companies s !! nid = None
       ∧ fst r = Ok nid
       ∧ Fn.companies (snd r)
         = <[nid := {| Fn.c_data := data; Fn.c_ownerUid := Fn.uid a;
                       Fn.c_status := company_pending;
                       Fn.c_createdAt := now; Fn.c_updatedAt := now |}]>
             (Fn.companies s)
       ∧ Fn.auditLogs (snd r)
         = Fn.auditLogs s
           ++ [{| Fn.l_actorUid := Fn.uid a; Fn.l_action := "company_created";
                  Fn.l_targetType := "company"; Fn.l_targetId := nid;
                  Fn.l_metadata := []; Fn.l_timestamp := now |}]
       ∧ Fn.users (snd r) = Fn.users s ∧ Fn.jobs (snd r) = Fn.jobs s
       ∧ Fn.applications (snd r) = Fn.applications s
       ∧ Fn.authClaims (snd r) = Fn.authClaims s).
Proof.
  cbv zeta. unfold Fn.requestEmployerUpgrade.
  destruct ctx as [a|]; [|left; eauto 10].
  destruct (Fn.email_verified a) eqn:Hv; [|left; eauto 10].
  unfold Fn.requestEmployerUpgrade_body.
  destruct (Fn.owns_company (Fn.uid a) s) eqn:Hown;
    run_M; try (left; by eauto 10);
    right; eexists _, _; by repeat split.
Qed.

(** X17.  [requestEmployerUpgrade] either fails, with [unauthenticated]
    or [internal], and leaves the store unchanged, or it succeeds: then
    the caller is verified and owned no company, and the one company added
    is stored under the new id as pending with the caller as owner,
    together with one audit entry; nothing else changes.  A verified
    caller who owns a company is always refused, so a second request by
    the same user never adds a company. *)
Theorem requestEmployerUpgrade_outcomes
    (ctx : option Fn.Auth) (parsed : option Fn.CompanyData) (nid : string) (now : Z)
    (s : Fn.Store) :
  let r := Fn.requestEmployerUpgrade ctx parsed nid now s in
  (∀ e, fst r = Err e → snd r = s ∧ (e = unauthenticated ∨ e = internal))
  ∧ (∀ id, fst r = Ok id →
       id = nid
       ∧ ∃ a data,
           ctx = Some a ∧ parsed = Some data ∧ Fn.email_verified a = true
           ∧ (∀ k c, Fn.companies s !! k = Some c → Fn.c_ownerUid c ≠ Fn.uid a)
           ∧ Fn.companies s !! nid = None
           ∧ Fn.companies (snd r)
             = <[nid := {| Fn.c_data := data; Fn.c_ownerUid := Fn.uid a;
                           Fn.c_status := company_pending;
                           Fn.c_createdAt := now; Fn.c_updatedAt := now |}]>
                 (Fn.companies s)
           ∧ Fn.auditLogs (snd r)
             = Fn.auditLogs s
               ++ [{| Fn.l_actorUid := Fn.uid a; Fn.l_action := "company_created";
                      Fn.l_targetType := "company"; Fn.l_targetId := nid;
                      Fn.l_metadata := []; Fn.l_timestamp := now |}]
           ∧ Fn.users (snd r) = Fn.users s ∧ Fn.jobs (snd r) = Fn.jobs s
           ∧ Fn.applications (snd r) = Fn.applications s
           ∧ Fn.authClaims (snd r) = Fn.authClaims s)
  ∧ (∀ a k c, ctx = Some a → Fn.email_verified a = true →
              Fn.companies s !! k = Some c → Fn.c_ownerUid c = Fn.uid a →
              r = (Err internal, s)).
Proof.
  cbv zeta.
  destruct (requestEmployerUpgrade_cases ctx parsed nid now s)
    as [(Hs & e & He & Hcode)
       |(a & data & -> & -> & Hv & Hown & Hnid & Hok & Hc & Hl & Hu & Hj & Ha & Hcl)].
  - split; [|split].
    + intros e' He'. rewrite He in He'. by injection He' as <-.
    + intros id Hid. congruence.
    + intros a k c -> Hv Hk Hc.
      rewrite (surjective_pairing (Fn.requestEmployerUpgrade _ _ _ _ _)), Hs.
      f_equal. rewrite He. f_equal.
      destruct Hcode as [-> | ->]; [|done]. exfalso.
      unfold Fn.requestEmployerUpgrade in He. rewrite Hv in He.
      unfold Fn.try_catch_internal in He. by repeat case_match.
  - split; [|split].
    + intros e He. congruence.
    + intros id Hid. rewrite Hok in Hid. injection Hid as <-. split; [done|].
      exists a, data. repeat split; try done.
      intros k c Hk Hkc.
      assert (Fn.owns_company (Fn.uid a) s = true) as Ht
        by (apply owns_company_true; eauto).
      congruence.
    + intros a' k c [= <-] _ Hk Hkc.
      assert (Fn.owns_company (Fn.uid a) s = true) as Ht
        by (apply owns_company_true; eauto).
      congruence.
Qed.

Lemma requestEmployerUpgrade_outcomes_witness :
  Fn.requestEmployerUpgrade (Some FnSample.emma) (Some FnSample.college) "c2" 50
    FnSample.applied
  = (Err internal, FnSample.applied).
Proof.
  destruct (requestEmployerUpgrade_outcomes (Some FnSample.emma) (Some FnSample.college)
              "c2" 50 FnSample.applied) as (_ & _ & H).
  destruct (Fn.companies FnSample.applied !! "c1") as [c|] eqn:Hc;
    [|by vm_compute in Hc].
  apply (H FnSample.emma "c1" c eq_refl eq_refl Hc).
  vm_compute in Hc. injection Hc as <-. reflexivity.
Defined.

Lemma createJob_cases ctx parsed nid now s :
  let r := Fn.createJob ctx parsed nid now s in
  (snd r = s ∧ ∃ e, fst r = Err e ∧ (e = permission_denied ∨ e = internal))
  ∨ (∃ a data cd,
       ctx = Some a ∧ parsed = Some data
       ∧ Fn.email_verified a = true ∧ Fn.has_role a "employer" = true
       ∧ Fn.companies s !! Fn.companyId data = Some cd
       ∧ Fn.c_ownerUid cd = Fn.uid a ∧ Fn.c_status cd = company_approved
       ∧ Fn.jobs s !! nid = None
       ∧ fst r = Ok nid
       ∧ Fn.jobs (snd r) = <[nid := Fn.new_job a data now]> (Fn.jobs s)
       ∧ Fn.auditLogs (snd r)
         = Fn.auditLogs s
           ++ [{| Fn.l_actorUid := Fn.uid a; Fn.l_action := "job_created";
                  Fn.l_targetType := "job"; Fn.l_targetId := nid;
                  Fn.l_metadata := []; Fn.l_timestamp := now |}]
       ∧ Fn.users (snd r) = Fn.users s ∧ Fn.companies (snd r) = Fn.companies s
       ∧ Fn.applications (snd r) = Fn.applications s
       ∧ Fn.authClaims (snd r) = Fn.authClaims s).
Proof.
  cbv zeta. unfold Fn.createJob.
  destruct ctx as [a|]; [|left; eauto 10].
  destruct (Fn.email_verified a) eqn:Hv; simpl; [|left; eauto 10].
  destruct (Fn.has_role a "employer") eqn:Hemp; [|left; eauto 10].
  unfold Fn.createJob_body.
  run_M; try (left; by eauto 10);
    right; eexists _, _, _; (repeat split; try done).
  - by apply String.eqb_eq, negb_false_iff.
  - by destruct (Fn.c_status _).
Qed.

(** X18.  [createJob] either fails, with [permission-denied] or
    [internal], and leaves the store unchanged, or it succeeds: then the
    caller is a verified employer, the company named in the job exists, is
    owned by the caller and is approved, and the one job added is stored
    under the new id as pending, posted by the caller, not approved by
    anyone and with both counters 0, together with one audit entry;
    nothing else changes.  Conversely a verified employer posting for an
    approved company of their own, under a free id, succeeds. *)
Theorem createJob_outcomes
    (ctx : option Fn.Auth) (parsed : option Fn.JobData) (nid : string) (now : Z)
    (s : Fn.Store) :
  let r := Fn.createJob ctx parsed nid now s in
  (∀ e, fst r = Err e → snd r = s ∧ (e = permission_denied ∨ e = internal))
  ∧ (∀ id, fst r = Ok id →
       id = nid
       ∧ ∃ a data cd,
           ctx = Some a ∧ parsed = Some data
           ∧ Fn.email_verified a = true ∧ Fn.has_role a "employer" = true
           ∧ Fn.companies s !! Fn.companyId data = Some cd
           ∧ Fn.c_ownerUid cd = Fn.uid a ∧ Fn.c_status cd = company_approved
           ∧ Fn.jobs s !! nid = None
           ∧ Fn.jobs (snd r)
             = <[nid := {| Fn.j_data := data; Fn.j_posterUid := Fn.uid a;
                           Fn.j_status := job_pending;
                           Fn.j_approvedBy := None; Fn.j_approvedAt := None;
                           Fn.j_viewCount := 0; Fn.j_applicationCount := 0;
                           Fn.j_createdAt := now; Fn.j_updatedAt := now |}]>
                 (Fn.jobs s)
           ∧ Fn.auditLogs (snd r)
             = Fn.auditLogs s
               ++ [{| Fn.l_actorUid := Fn.uid a; Fn.l_action := "job_created";
                      Fn.l_targetType := "job"; Fn.l_targetId := nid;
                      Fn.l_metadata := []; Fn.l_timestamp := now |}]
           ∧ Fn.users (snd r) = Fn.users s ∧ Fn.companies (snd r) = Fn.companies s
           ∧ Fn.applications (snd r) = Fn.applications s
           ∧ Fn.authClaims (snd r) = Fn.authClaims s)
  ∧ (∀ a data cd,
       ctx = Some a → parsed = Some data →
       Fn.email_verified a = true → Fn.has_role a "employer" = true →
       Fn.companyId data ≠ "" →
       Fn.companies s !! Fn.companyId data = Some cd →
       Fn.c_ownerUid cd = Fn.uid a → Fn.c_status cd = company_approved →
       Fn.jobs s !! nid = None →
       fst r = Ok nid).
Proof.
  cbv zeta. split; [|split].
  - intros e He.
    destruct (createJob_cases ctx parsed nid now s)
      as [(Hs & e' & He' & Hcode)|(a & data & cd & _ & _ & _ & _ & _ & _ & _ & _ & Hok & _)];
      [|congruence].
    rewrite He in He'. injection He' as <-. by split.
  - intros id Hid.
    destruct (createJob_cases ctx parsed nid now s)
      as [(Hs & e' & He' & Hcode)|(a & data & cd & H)]; [congruence|].
    destruct H as (? & ? & ? & ? & ? & ? & ? & ? & Hok & ?).
    rewrite Hok in Hid. injection Hid as <-. split; [done|].
    exists a, data, cd. done.
  - intros a data cd -> -> Hv Hemp Hne Hcd Hown Hst Hnid.
    unfold Fn.createJob. rewrite Hv, Hemp. simpl.
    unfold Fn.createJob_body. unfold_M.
    apply String.eqb_neq in Hne. rewrite Hne, Hcd. simpl.
    rewrite Hown, String.eqb_refl, Hst. simpl. by rewrite Hnid.
Qed.

Lemma createJob_outcomes_witness :
  ∃ cd, Fn.companies FnSample.applied !! "c1" = Some cd
        ∧ fst (Fn.createJob (Some FnSample.emma) (Some (ClientSample.job_data 2000)) "j2" 50
                 FnSample.applied) = Ok "j2".
Proof.
  set (cd := Fn.approve_company 4
               {| Fn.c_data := FnSample.college; Fn.c_ownerUid := "emma";
                  Fn.c_status := company_pending;
                  Fn.c_createdAt := 3; Fn.c_updatedAt := 3 |}).
  assert (Fn.companies FnSample.applied !! "c1" = Some cd) as Hcd by (by vm_compute).
  exists cd. split; [exact Hcd|].
  destruct (createJob_outcomes (Some FnSample.emma) (Some (ClientSample.job_data 2000))
              "j2" 50 FnSample.applied) as (_ & _ & H).
  assert (Fn.jobs FnSample.applied !! "j2" = None) as Hnid by (by vm_compute).
  exact (H FnSample.emma (ClientSample.job_data 2000) cd eq_refl eq_refl eq_refl eq_refl
           ltac:(done) Hcd eq_refl eq_refl Hnid).
Defined.

(** ** The Cloud Functions: invariants of the reachable states *)





(** The two parts of [requestEmployerUpgrade] make up its body. *)
Lemma requestEmployerUpgrade_body_split a parsed nid now s :
  Fn.requestEmployerUpgrade_body a parsed nid now s
  = Fn.bind (Fn.requestEmployerUpgrade_check a parsed)
      (Fn.requestEmployerUpgrade_write a nid now) s.
Proof.
  unfold Fn.requestEmployerUpgrade_body, Fn.requestEmployerUpgrade_check,
    Fn.requestEmployerUpgrade_write.
  unfold Fn.bind, Fn.when_, Fn.read, Fn.throw, Fn.ret.
  repeat (case_match; simplify_eq; try done).
Qed.

Lemma requestEmployerUpgrade_write_ok a nid now data s :
  Fn.companies s !! nid = None →
  Fn.requestEmployerUpgrade_write a nid now data s
  = (Fn.Return nid,
     {| Fn.users := Fn.users s;
        Fn.companies :=
          <[nid := {| Fn.c_data := data; Fn.c_ownerUid := Fn.uid a;
                      Fn.c_status := company_pending;
                      Fn.c_createdAt := now; Fn.c_updatedAt := now |}]>
            (Fn.companies s);
        Fn.jobs := Fn.jobs s; Fn.applications := Fn.applications s;
        Fn.auditLogs :=
          Fn.auditLogs s
          ++ [{| Fn.l_actorUid := Fn.uid a; Fn.l_action := "company_created";
                 Fn.l_targetType := "company"; Fn.l_targetId := nid;
                 Fn.l_metadata := []; Fn.l_timestamp := now |}];
        Fn.authClaims := Fn.authClaims s |}).
Proof.
  intros Hnid.
  unfold Fn.requestEmployerUpgrade_write, Fn.bind, Fn.ret, Fn.add_company,
    Fn.createAuditLog, Fn.set_companies, Fn.set_auditLogs.
  by rewrite Hnid.
Qed.

(** X20.  [requestEmployerUpgrade] looks for a company of the caller and
    then adds one, in two steps that no transaction joins.  When a second
    request by the same user passes its check before the first has
    written, both requests succeed and the user owns two companies, in a
    state the back end can reach; had the second started after the first
    had ended, it would have been stopped by [already-exists] with the
    store unchanged.  So one company per owner is not an invariant of the
    functions. *)
Theorem requestEmployerUpgrade_overlap
    (a : Fn.Auth) (d1 d2 : Fn.CompanyData) (n1 n2 : string) (now : Z) (s : Fn.Store) :
  Fn.owns_company (Fn.uid a) s = false →
  n1 ≠ n2 → Fn.companies s !! n1 = None → Fn.companies s !! n2 = None →
  (∀ parsed nid s0,
     Fn.requestEmployerUpgrade_body a parsed nid now s0
     = Fn.bind (Fn.requestEmployerUpgrade_check a parsed)
         (Fn.requestEmployerUpgrade_write a nid now) s0)
  ∧ (let r := Fn.overlapped
                (Fn.requestEmployerUpgrade_check a (Some d1))
                (Fn.requestEmployerUpgrade_write a n1 now)
                (Fn.requestEmployerUpgrade_check a (Some d2))
                (Fn.requestEmployerUpgrade_write a n2 now) s in
     r.1.1 = Fn.Return n1 ∧ r.1.2 = Fn.Return n2
     ∧ (∃ c1 c2, Fn.companies r.2 !! n1 = Some c1 ∧ Fn.companies r.2 !! n2 = Some c2
                 ∧ Fn.c_ownerUid c1 = Fn.uid a ∧ Fn.c_ownerUid c2 = Fn.uid a)
     ∧ (∀ k, k ≠ n1 → k ≠ n2 → Fn.companies r.2 !! k = Fn.companies s !! k)
     ∧ ¬ one_company_per_owner r.2)
  ∧ (let s1 := snd (Fn.requestEmployerUpgrade_body a (Some d1) n1 now s) in
     Fn.requestEmployerUpgrade_body a (Some d2) n2 now s1
     = (Fn.Throw (Fn.HttpsError already_exists), s1))
  ∧ (Fn.reachable s → Fn.email_verified a = true →
     Fn.reachable
       (Fn.overlapped
          (Fn.requestEmployerUpgrade_check a (Some d1))
          (Fn.requestEmployerUpgrade_write a n1 now)
          (Fn.requestEmployerUpgrade_check a (Some d2))
          (Fn.requestEmployerUpgrade_write a n2 now) s).2).
Proof.
  intros Hown Hn Hn1 Hn2. split; [intros; apply requestEmployerUpgrade_body_split|].
  assert (∀ d, Fn.requestEmployerUpgrade_check a (Some d) s = (Fn.Return d, s)) as Hcheck.
  { intros d. unfold Fn.requestEmployerUpgrade_check, Fn.bind, Fn.when_, Fn.read,
      Fn.throw, Fn.ret. by rewrite Hown. }
  split.
  - cbv zeta. unfold Fn.overlapped. rewrite !Hcheck.
    rewrite (requestEmployerUpgrade_write_ok a n1 now d1 s) by done.
    rewrite requestEmployerUpgrade_write_ok; simpl; [|by rewrite lookup_insert_ne].
    split; [done|]. split; [done|]. split; [|split].
    + simpl. eexists _, _. rewrite lookup_insert_ne by done.
      rewrite !lookup_insert_eq. by repeat split.
    + simpl. intros k Hk1 Hk2. by rewrite !lookup_insert_ne.
    + intros Hone. apply Hn. eapply (Hone n1 n2); simpl.
      * rewrite lookup_insert_ne by done. apply lookup_insert_eq.
      * apply lookup_insert_eq.
      * done.
  - split; [|intros; by apply overlapped_requestEmployerUpgrade_reachable].
    cbv zeta.
    assert (Fn.requestEmployerUpgrade_body a (Some d1) n1 now s
            = Fn.requestEmployerUpgrade_write a n1 now d1 s) as ->.
    { rewrite requestEmployerUpgrade_body_split. unfold Fn.bind. by rewrite Hcheck. }
    rewrite (requestEmployerUpgrade_write_ok a n1 now d1 s) by done. simpl snd.
    rewrite requestEmployerUpgrade_body_split.
    assert (∀ st, Fn.owns_company (Fn.uid a) st = true →
                  Fn.requestEmployerUpgrade_check a (Some d2) st
                  = (Fn.Throw (Fn.HttpsError already_exists), st)) as Hthrow.
    { intros st Hst. unfold Fn.requestEmployerUpgrade_check, Fn.bind, Fn.when_,
        Fn.read, Fn.throw, Fn.ret. by rewrite Hst. }
    unfold Fn.bind. rewrite Hthrow; [done|].
    apply owns_company_true. eexists n1, _. simpl.
    rewrite lookup_insert_eq. by split.
Qed.

Lemma requestEmployerUpgrade_overlap_witness :
  let r := Fn.overlapped
             (Fn.requestEmployerUpgrade_check FnSample.sam (Some FnSample.college))
             (Fn.requestEmployerUpgrade_write FnSample.sam "c2" 50)
             (Fn.requestEmployerUpgrade_check FnSample.sam (Some FnSample.college))
             (Fn.requestEmployerUpgrade_write FnSample.sam "c3" 50)
             FnSample.applied in
  r.1.1 = Fn.Return "c2" ∧ r.1.2 = Fn.Return "c3" ∧ Fn.reachable r.2.
Proof.
  assert (Fn.owns_company (Fn.uid FnSample.sam) FnSample.applied = false) as Hown
    by (by vm_compute).
  assert (Fn.companies FnSample.applied !! "c2" = None) as H2 by (by vm_compute).
  assert (Fn.companies FnSample.applied !! "c3" = None) as H3 by (by vm_compute).
  destruct (requestEmployerUpgrade_overlap FnSample.sam FnSample.college FnSample.college
              "c2" "c3" 50 FnSample.applied Hown ltac:(done) H2 H3)
    as (_ & (Hr1 & Hr2 & _) & _ & Hreach).
  cbv zeta. split; [exact Hr1|]. split; [exact Hr2|].
  apply Hreach; [|reflexivity].
  apply reachable_run; [apply reachable_empty|]. vm_compute. tauto.
Defined.

Lemma applyToJob_args ctx jobId resumePath coverLetter nid now s :
  jobId = "" ∨ resumePath = "" →
  snd (Fn.applyToJob ctx jobId resumePath coverLetter nid now s) = s.
Proof.
  intros H. unfold Fn.applyToJob.
  destruct ctx as [a|]; [|done]. destruct (_ && _); [|done].
  destruct H as [-> | ->]; simpl; [done|]. by rewrite orb_true_r.
Qed.

Lemma applications_wf_step o now s :
  applications_wf s → applications_wf (Fn.exec o now s).
Proof.
  intros Hinv. destruct o; simpl.
  - destruct (signUp_effect uid_ displayName email emailVerified now s) as (_ & Ha & _).
    unfold applications_wf. rewrite Ha. apply Hinv.
  - destruct (requestEmployerUpgrade_effect ctx parsed nid now s) as (_ & Ha & _).
    unfold applications_wf. rewrite Ha. apply Hinv.
  - destruct (approveEmployerUpgrade_effect ctx uid_ companyId_ now s) as (_ & Ha & _).
    unfold applications_wf. rewrite Ha. apply Hinv.
  - destruct (createJob_effect ctx parsed nid now s) as (Ha & _).
    unfold applications_wf. rewrite Ha. apply Hinv.
  - destruct (approveJob_effect ctx jobId now s) as (Ha & _).
    unfold applications_wf. rewrite Ha. apply Hinv.
  - destruct (String.eqb_spec jobId "") as [Hj|Hj];
      [rewrite applyToJob_args by auto; apply Hinv|].
    destruct (String.eqb_spec resumePath "") as [Hp|Hp];
      [rewrite applyToJob_args by auto; apply Hinv|].
    destruct (applyToJob_effect ctx jobId resumePath coverLetter nid now s)
      as [[Hs _]|(a & jd0 & _ & _ & _ & _ & _ & _ & _ & Ha & _)];
      [rewrite Hs; apply Hinv|].
    intros k d. rewrite Ha. destruct (decide (nid = k)) as [->|Hne].
    + rewrite lookup_insert_eq. intros [= <-]. simpl. auto.
    + rewrite lookup_insert_ne by done. apply Hinv.
  - apply Hinv.
  - destruct (updateApplicationStatus_effect ctx applicationId status notes now s)
      as (_ & _ & _ & [[Hs _]|(d0 & Hd0 & Hv & Ha)]); [rewrite Hs; apply Hinv|].
    intros k d. rewrite Ha. destruct (decide (applicationId = k)) as [->|Hne].
    + rewrite lookup_insert_eq. intros [= <-]. simpl.
      destruct (Hinv _ _ Hd0) as (Hk & Hj & Hp & _).
      repeat split; try done. right. by apply valid_status_In.
    + rewrite lookup_insert_ne by done. apply Hinv.
  - destruct (deleteUser_effect uid_ s) as [Hs|(_ & Ha & _)];
      [rewrite Hs; apply Hinv|].
    intros k d. rewrite Ha. intros Hd.
    apply map_lookup_filter_Some in Hd as [Hd _]. by apply Hinv in Hd.
Qed.

Lemma applications_wf_finish c s :
  Fn.admitted c → applications_wf s → applications_wf (Fn.finish c s).
Proof.
  intros Hadm Hinv. destruct c; simpl.
  - destruct Hadm as (_ & _ & Hjob & Hres).
    destruct (applyToJob_write_effect a jobId resumePath coverLetter nid now jobData s)
      as (_ & _ & _ & [->|(_ & Ha & _)]); [done|].
    intros k d. rewrite Ha. destruct (decide (nid = k)) as [->|Hne].
    + rewrite lookup_insert_eq. intros [= <-]. simpl.
      repeat split; try done. by left.
    + rewrite lookup_insert_ne by done. apply Hinv.
  - destruct (requestEmployerUpgrade_write_effect a nid now validatedData s)
      as (_ & Ha & _). unfold applications_wf. rewrite Ha. apply Hinv.
Qed.

Lemma reachable_applications_wf s : Fn.reachable s → applications_wf s.
Proof.
  apply (reachable_invariant applications_wf).
  - intros k d H. simpl in H. by rewrite lookup_empty in H.
  - intros. by apply applications_wf_step.
  - intros. by apply applications_wf_finish.
Qed.

(** X21.  In every state the Cloud Functions can reach, each application
    document has a job id and a resume path that are not empty, the dedupe
    key of its job and applicant, and a status that is submitted or one of
    the four that [updateApplicationStatus] accepts. *)
Theorem reachable_applications (s : Fn.Store) :
  Fn.reachable s →
  ∀ k d,
    Fn.applications s !! k = Some d →
    Fn.a_dedupeKey d = Fn.dedupeKey_of (Fn.a_jobId d) (Fn.a_applicantUid d)
    ∧ Fn.a_jobId d ≠ "" ∧ Fn.a_resumePath d ≠ ""
    ∧ In (Fn.a_status d) ("submitted" :: Fn.validStatuses).
Proof. apply reachable_applications_wf. Qed.

Lemma reachable_applications_witness :
  ∃ d, Fn.applications FnSample.applied !! "a1" = Some d
       ∧ Fn.a_dedupeKey d = "j1_sam".
Proof.
  assert (Fn.reachable FnSample.applied) as Hr.
  { apply reachable_run; [apply reachable_empty|]. vm_compute. tauto. }
  destruct (Fn.applications FnSample.applied !! "a1") as [d|] eqn:Hd;
    [|by vm_compute in Hd].
  exists d. split; [done|].
  destruct (reachable_applications FnSample.applied Hr "a1" d Hd) as (-> & _).
  vm_compute in Hd. injection Hd as <-. reflexivity.
Defined.

Lemma roles_granted_step o now s :
  roles_granted s → roles_granted (Fn.exec o now s).
Proof.
  intros (Hadm & Hcl & Hemp).
  assert (∀ s', Fn.users s' = Fn.users s → Fn.authClaims s' = Fn.authClaims s →
                roles_granted s') as Hsame.
  { intros s' Hu Hc. unfold roles_granted. rewrite Hu, Hc. done. }
  destruct o; simpl.
  - unfold Fn.onAuthUserCreate, Fn.auth_createUser.
    assert (∀ m, (m = Fn.authClaims s
                  ∨ (Fn.authClaims s !! uid_ = None ∧ m = <[uid_ := None]> (Fn.authClaims s))) →
                 (∀ u r, m !! u = Some (Some r) → r = "employer")
                 ∧ (∀ u, u ≠ uid_ → m !! u = Fn.authClaims s !! u)
                 ∧ (∀ u c, Fn.authClaims s !! u = Some c → m !! u = Some c)) as Hm.
    { intros m [-> | [Hnone ->]]; [by eauto|]. repeat split.
      - intros u r. destruct (decide (uid_ = u)) as [->|Hne].
        + by rewrite lookup_insert_eq.
        + rewrite lookup_insert_ne by done. apply Hcl.
      - intros u Hne. by rewrite lookup_insert_ne.
      - intros u c Hu. destruct (decide (uid_ = u)) as [->|Hne]; [congruence|].
        by rewrite lookup_insert_ne. }
    destruct (Fn.authClaims s !! uid_) as [c|] eqn:Hc;
      destruct (String.eqb uid_ "") eqn:He; simpl.
    + by apply Hsame.
    + destruct (Hm (Fn.authClaims s)) as (M1 & M2 & M3); [by left|].
      repeat split; simpl.
      * intros u d. destruct (decide (uid_ = u)) as [->|Hne].
        -- rewrite lookup_insert_eq. by intros [= <-].
        -- rewrite lookup_insert_ne by done. apply Hadm.
      * done.
      * intros u d. destruct (decide (uid_ = u)) as [->|Hne].
        -- rewrite lookup_insert_eq. by intros [= <-].
        -- rewrite lookup_insert_ne by done. apply Hemp.
    + destruct (Hm (<[uid_ := None]> (Fn.authClaims s))) as (M1 & M2 & M3); [by right|].
      repeat split; simpl; [done|done|].
      intros u d Hu Hr. apply M3. by apply (Hemp u d).
    + destruct (Hm (<[uid_ := None]> (Fn.authClaims s))) as (M1 & M2 & M3); [by right|].
      repeat split; simpl.
      * intros u d. destruct (decide (uid_ = u)) as [->|Hne].
        -- rewrite lookup_insert_eq. by intros [= <-].
        -- rewrite lookup_insert_ne by done. apply Hadm.
      * done.
      * intros u d. destruct (decide (uid_ = u)) as [->|Hne].
        -- rewrite lookup_insert_eq. by intros [= <-].
        -- rewrite lookup_insert_ne by done. intros Hu Hr. apply M3.
           by apply (Hemp u d).
  - destruct (requestEmployerUpgrade_cases ctx parsed nid now s)
      as [(Hs & _)|(a & data & H)]; [by rewrite Hs|].
    destruct H as (_ & _ & _ & _ & _ & _ & _ & _ & Hu & _ & _ & Hc). by apply Hsame.
  - unfold Fn.approveEmployerUpgrade.
    destruct ctx as [a|]; [|done]. destruct (Fn.has_role a "admin"); [|done].
    destruct (_ || _); [done|]. unfold Fn.approveEmployerUpgrade_body.
    run_M.
    + split; [|split]; simpl.
      * intros x dx. destruct (decide (uid_ = x)) as [->|Hne].
        -- rewrite lookup_insert_eq. by intros [= <-].
        -- rewrite lookup_insert_ne by done. apply Hadm.
      * intros x r. destruct (decide (uid_ = x)) as [->|Hne].
        -- rewrite lookup_insert_eq. by intros [= <-].
        -- rewrite lookup_insert_ne by done. apply Hcl.
      * intros x dx. destruct (decide (uid_ = x)) as [->|Hne].
        -- by rewrite !lookup_insert_eq.
        -- rewrite !lookup_insert_ne by done. apply Hemp.
    + split; [|split]; simpl.
      * apply Hadm.
      * intros x r. destruct (decide (uid_ = x)) as [->|Hne].
        -- rewrite lookup_insert_eq. by intros [= <-].
        -- rewrite lookup_insert_ne by done. apply Hcl.
      * intros x dx Hx Hr. destruct (decide (uid_ = x)) as [->|Hne].
        -- by rewrite lookup_insert_eq.
        -- rewrite lookup_insert_ne by done. by eapply Hemp.
  - destruct (createJob_cases ctx parsed nid now s)
      as [(Hs & _)|(a & data & cd & H)]; [by rewrite Hs|].
    destruct H as (_ & _ & _ & _ & _ & _ & _ & _ & _ & _ & _ & Hu & _ & _ & Hc).
    by apply Hsame.
  - unfold Fn.approveJob.
    destruct ctx as [a|]; [|done]. destruct (Fn.has_role a "admin"); [|done].
    destruct (String.eqb jobId ""); [done|]. unfold Fn.approveJob_body.
    run_M; by apply Hsame.
  - destruct (applyToJob_effect ctx jobId resumePath coverLetter nid now s)
      as [[Hs _]|(a & jd0 & _ & _ & _ & _ & _ & _ & _ & _ & Hu & _ & Hc)];
      [by rewrite Hs|by apply Hsame].
  - by apply Hsame.
  - unfold Fn.updateApplicationStatus.
    destruct ctx as [a|]; [|done]. destruct (Fn.email_verified a); [|done].
    destruct (_ || _); [done|]. unfold Fn.updateApplicationStatus_body.
    run_M; by apply Hsame.
  - unfold Fn.deleteUser. destruct (String.eqb uid_ ""); [done|].
    destruct (Fn.authClaims s !! uid_) as [c|] eqn:Hc; simpl.
    + repeat split; simpl.
      * intros u d Hu. apply lookup_delete_Some in Hu as [_ Hu]. by eauto.
      * intros u r Hu. apply lookup_delete_Some in Hu as [_ Hu]. by eauto.
      * intros u d Hu Hr. apply lookup_delete_Some in Hu as [Hne Hu].
        apply lookup_delete_Some. split; [done|]. by eauto.
    + repeat split; simpl.
      * intros u d Hu. apply lookup_delete_Some in Hu as [_ Hu]. by eauto.
      * done.
      * intros u d Hu Hr. apply lookup_delete_Some in Hu as [Hne Hu]. by eauto.
Qed.

(** X22.  The Cloud Functions never grant the admin role: in every state
    they can reach, no profile has the role admin, every role claim of an
    account is employer, and a profile with the role employer belongs to
    an account that has the employer claim. *)
Theorem reachable_roles (s : Fn.Store) :
  Fn.reachable s →
  (∀ uid_ d, Fn.users s !! uid_ = Some d → Fn.u_role d ≠ admin)
  ∧ (∀ uid_ r, Fn.authClaims s !! uid_ = Some (Some r) → r = "employer")
  ∧ (∀ uid_ d, Fn.users s !! uid_ = Some d → Fn.u_role d = employer →
               Fn.authClaims s !! uid_ = Some (Some "employer")).
Proof.
  intros Hs. change (roles_granted s). revert s Hs.
  apply (reachable_invariant roles_granted).
  - repeat split; intros ? ? H; simpl in H; by rewrite lookup_empty in H.
  - intros. by apply roles_granted_step.
  - intros s c _ Hinv. unfold roles_granted.
    destruct c; simpl.
    + by destruct (applyToJob_write_effect a jobId resumePath coverLetter nid now
                     jobData s) as (_ & -> & -> & _).
    + by destruct (requestEmployerUpgrade_write_effect a nid now validatedData s)
        as (_ & _ & -> & -> & _).
Qed.

Lemma reachable_roles_witness :
  ∃ d, Fn.users FnSample.applied !! "emma" = Some d
       ∧ Fn.u_role d = employer
       ∧ Fn.authClaims FnSample.applied !! "emma" = Some (Some "employer").
Proof.
  assert (Fn.reachable FnSample.applied) as Hr.
  { apply reachable_run; [apply reachable_empty|]. vm_compute. tauto. }
  destruct (reachable_roles FnSample.applied Hr) as (_ & _ & H).
  destruct (Fn.users FnSample.applied !! "emma") as [d|] eqn:Hd;
    [|by vm_compute in Hd].
  assert (Fn.u_role d = employer) as Hrole.
  { vm_compute in Hd. injection Hd as <-. reflexivity. }
  exists d. split; [done|]. split; [exact Hrole|]. exact (H "emma" d Hd Hrole).
Defined.

(** ** The sweep and the deletion of a user *)

(** X23.  After [expireJobs] no job is approved with a deadline before
    the time of the sweep.  The sweep keeps the ids of the jobs; a job
    that was approved and overdue becomes expired and gets a new
    [updatedAt], with its data, poster, approval and counters kept; every
    other job, a pending or rejected one past its deadline included, stays
    as it was.  Users, companies, applications, claims and the audit log
    are untouched. *)
Theorem expireJobs_sweep (now : Z) (s : Fn.Store) :
  let s' := Fn.expireJobs now s in
  (∀ id jd', Fn.jobs s' !! id = Some jd' →
             Fn.j_status jd' = job_approved → now <= Fn.lastDate (Fn.j_data jd'))
  ∧ (∀ id, is_Some (Fn.jobs s' !! id) ↔ is_Some (Fn.jobs s !! id))
  ∧ (∀ id jd, Fn.jobs s !! id = Some jd →
       (Fn.j_status jd = job_approved ∧ Fn.lastDate (Fn.j_data jd) < now →
        ∃ jd', Fn.jobs s' !! id = Some jd'
               ∧ Fn.j_status jd' = job_expired ∧ Fn.j_updatedAt jd' = now
               ∧ Fn.j_data jd' = Fn.j_data jd ∧ Fn.j_posterUid jd' = Fn.j_posterUid jd
               ∧ Fn.j_approvedBy jd' = Fn.j_approvedBy jd
               ∧ Fn.j_approvedAt jd' = Fn.j_approvedAt jd
               ∧ Fn.j_viewCount jd' = Fn.j_viewCount jd
               ∧ Fn.j_applicationCount jd' = Fn.j_applicationCount jd
               ∧ Fn.j_createdAt jd' = Fn.j_createdAt jd)
       ∧ (Fn.j_status jd ≠ job_approved ∨ now <= Fn.lastDate (Fn.j_data jd) →
          Fn.jobs s' !! id = Some jd))
  ∧ Fn.users s' = Fn.users s ∧ Fn.companies s' = Fn.companies s
  ∧ Fn.applications s' = Fn.applications s
  ∧ Fn.authClaims s' = Fn.authClaims s ∧ Fn.auditLogs s' = Fn.auditLogs s.
Proof.
  cbv zeta. unfold Fn.expireJobs. simpl.
  assert (∀ jd, Fn.is_overdue now jd = true
                ↔ Fn.j_status jd = job_approved ∧ Fn.lastDate (Fn.j_data jd) < now) as Hod.
  { intros jd. unfold Fn.is_overdue. rewrite andb_true_iff, Z.ltb_lt.
    destruct (Fn.j_status jd); simpl; split; intros [? ?]; by split. }
  split; [|split; [|split; [|done]]].
  - intros id jd'. rewrite lookup_fmap.
    destruct (Fn.jobs s !! id) as [jd|]; simpl; [|done].
    destruct (Fn.is_overdue now jd) eqn:E; intros [= <-]; simpl; [done|].
    intros Hst. destruct (Z.le_gt_cases now (Fn.lastDate (Fn.j_data jd))); [done|].
    assert (Fn.is_overdue now jd = true) by (apply Hod; split; [done|lia]).
    congruence.
  - intros id. rewrite lookup_fmap. by rewrite fmap_is_Some.
  - intros id jd Hjd. rewrite lookup_fmap, Hjd. simpl. split.
    + intros Ho. apply Hod in Ho. rewrite Ho. eexists. split; [done|]. done.
    + intros Hn. destruct (Fn.is_overdue now jd) eqn:E; [|done].
      apply Hod in E as [? ?]. destruct Hn; [done|lia].
Qed.

Lemma expireJobs_sweep_witness :
  Fn.j_status <$> Fn.jobs (Fn.expireJobs 2000 FnSample.applied) !! "j1" = Some job_expired.
Proof.
  destruct (expireJobs_sweep 2000 FnSample.applied) as (_ & _ & H & _).
  destruct (Fn.jobs FnSample.applied !! "j1") as [jd|] eqn:Hjd;
    [|by vm_compute in Hjd].
  destruct (H "j1" jd Hjd) as [Hexp _].
  destruct Hexp as (jd' & -> & Hst & _).
  - vm_compute in Hjd. injection Hjd as <-. by vm_compute.
  - simpl. by rewrite Hst.
Defined.

(** X24.  The admin service [deleteUser], for a uid that is not empty,
    deletes the profile and exactly the applications the user submitted,
    the companies the user owns and the jobs the user posted, and leaves
    the audit log alone.  The applications of other users stay, also those
    for the deleted jobs.  If the uid has an Auth account, the account is
    removed and the call returns; if it has none, the call throws after
    the documents are gone.  For the empty uid it throws and changes
    nothing. *)
Theorem admin_deleteUser_outcomes (uid_ : string) (s : Fn.Store) :
  let r := Fn.deleteUser uid_ s in
  (uid_ = "" → r = (Fn.Throw (Fn.JsError "Failed to delete user"), s))
  ∧ (uid_ ≠ "" →
     (∀ k, Fn.users (snd r) !! k = if decide (k = uid_) then None else Fn.users s !! k)
     ∧ (∀ k d, Fn.applications (snd r) !! k = Some d
               ↔ Fn.applications s !! k = Some d ∧ Fn.a_applicantUid d ≠ uid_)
     ∧ (∀ k d, Fn.companies (snd r) !! k = Some d
               ↔ Fn.companies s !! k = Some d ∧ Fn.c_ownerUid d ≠ uid_)
     ∧ (∀ k d, Fn.jobs (snd r) !! k = Some d
               ↔ Fn.jobs s !! k = Some d ∧ Fn.j_posterUid d ≠ uid_)
     ∧ Fn.auditLogs (snd r) = Fn.auditLogs s
     ∧ (is_Some (Fn.authClaims s !! uid_) →
        fst r = Fn.Return tt
        ∧ ∀ k, Fn.authClaims (snd r) !! k
               = if decide (k = uid_) then None else Fn.authClaims s !! k)
     ∧ (Fn.authClaims s !! uid_ = None →
        fst r = Fn.Throw (Fn.JsError "Failed to delete user")
        ∧ Fn.authClaims (snd r) = Fn.authClaims s)).
Proof.
  cbv zeta. unfold Fn.deleteUser. split.
  - by intros ->.
  - intros Hne. apply String.eqb_neq in Hne. rewrite Hne.
    assert (∀ {V} (m : gmap string V) k,
              delete uid_ m !! k = if decide (k = uid_) then None else m !! k) as Hdel.
    { intros V m k. destruct (decide (k = uid_)) as [->|Hk].
      - apply lookup_delete_eq.
      - by apply lookup_delete_ne. }
    destruct (Fn.authClaims s !! uid_) as [c|] eqn:Hc; simpl.
    + split; [apply Hdel|]. split; [intros; apply map_lookup_filter_Some|].
      split; [intros; apply map_lookup_filter_Some|].
      split; [intros; apply map_lookup_filter_Some|]. split; [done|].
      split; [|done]. intros _. split; [done|]. apply Hdel.
    + split; [apply Hdel|]. split; [intros; apply map_lookup_filter_Some|].
      split; [intros; apply map_lookup_filter_Some|].
      split; [intros; apply map_lookup_filter_Some|]. split; [done|].
      split; [|done]. by intros [? ?].
Qed.

Lemma admin_deleteUser_outcomes_witness :
  fst (Fn.deleteUser "emma" FnSample.applied) = Fn.Return tt
  ∧ Fn.jobs (snd (Fn.deleteUser "emma" FnSample.applied)) !! "j1" = None
  ∧ is_Some (Fn.applications (snd (Fn.deleteUser "emma" FnSample.applied)) !! "a1").
Proof.
  destruct (admin_deleteUser_outcomes "emma" FnSample.applied) as [_ H].
  destruct H as (_ & Ha & _ & Hj & _ & Hacc & _); [done|].
  split; [|split].
  - apply Hacc. eexists. vm_compute. reflexivity.
  - destruct (Fn.jobs _ !! "j1") as [jd|] eqn:Hjd; [|done].
    apply Hj in Hjd as [Hjd Hp]. exfalso. apply Hp.
    vm_compute in Hjd. injection Hjd as <-. reflexivity.
  - destruct (Fn.applications FnSample.applied !! "a1") as [d|] eqn:Hd;
      [|by vm_compute in Hd].
    exists d. apply Ha. split; [done|].
    vm_compute in Hd. injection Hd as <-. done.
Defined.

(** ** The Cloud Functions: the error codes a caller can see *)

Lemma try_catch_internal_code {A} (body : Fn.M A) s e :
  fst (Fn.try_catch_internal body s) = Err e → e = internal.
Proof.
  unfold Fn.try_catch_internal. destruct (body s) as [[a|x] s1]; simpl; [done|].
  by intros [= <-].
Qed.

(** X25.  A callable function reports a code of its own only from the
    checks it makes before its [try] block: [unauthenticated] or
    [permission-denied] for the caller, [invalid-argument] for a missing
    argument.  Once those checks have passed, every failure reaches the
    caller as [internal]: the [not-found], [already-exists] and
    [permission-denied] errors thrown inside the block (a missing job, a
    duplicate application, a company or a job of someone else) are never
    seen as such. *)
Theorem callable_error_codes (now : Z) (s : Fn.Store) (e : ErrorCode) :
  (∀ ctx parsed nid,
     fst (Fn.requestEmployerUpgrade ctx parsed nid now s) = Err e →
     e = internal
     ∨ (e = unauthenticated
        ∧ ∀ a, ctx = Some a → Fn.email_verified a = false))
  ∧ (∀ ctx uid_ companyId_,
       fst (Fn.approveEmployerUpgrade ctx uid_ companyId_ now s) = Err e →
       e = internal
       ∨ (e = permission_denied ∧ ∀ a, ctx = Some a → Fn.has_role a "admin" = false)
       ∨ (e = invalid_argument ∧ (uid_ = "" ∨ companyId_ = "")))
  ∧ (∀ ctx parsed nid,
       fst (Fn.createJob ctx parsed nid now s) = Err e →
       e = internal
       ∨ (e = permission_denied
          ∧ ∀ a, ctx = Some a →
                 Fn.email_verified a = false ∨ Fn.has_role a "employer" = false))
  ∧ (∀ ctx jobId,
       fst (Fn.approveJob ctx jobId now s) = Err e →
       e = internal
       ∨ (e = permission_denied ∧ ∀ a, ctx = Some a → Fn.has_role a "admin" = false)
       ∨ (e = invalid_argument ∧ jobId = ""))
  ∧ (∀ ctx jobId resumePath coverLetter nid,
       fst (Fn.applyToJob ctx jobId resumePath coverLetter nid now s) = Err e →
       e = internal
       ∨ (e = permission_denied
          ∧ ∀ a, ctx = Some a →
                 Fn.email_verified a = false ∨ Fn.has_role a "seeker" = false)
       ∨ (e = invalid_argument ∧ (jobId = "" ∨ resumePath = "")))
  ∧ (∀ ctx applicationId,
       fst (Fn.signUrlForResume ctx applicationId now s) = Err e →
       e = internal
       ∨ (e = unauthenticated ∧ ∀ a, ctx = Some a → Fn.email_verified a = false)
       ∨ (e = invalid_argument ∧ applicationId = ""))
  ∧ (∀ ctx applicationId status notes,
       fst (Fn.updateApplicationStatus ctx applicationId status notes now s) = Err e →
       e = internal
       ∨ (e = unauthenticated ∧ ∀ a, ctx = Some a → Fn.email_verified a = false)
       ∨ (e = invalid_argument
          ∧ (applicationId = "" ∨ status = "" ∨ ¬ In status Fn.validStatuses))).
Proof.
  repeat split.
  - intros ctx parsed nid. unfold Fn.requestEmployerUpgrade.
    destruct ctx as [a|]; [|intros [= <-]; right; by split].
    destruct (Fn.email_verified a) eqn:Hv.
    + intros H. left. by eapply try_catch_internal_code.
    + intros [= <-]. right. split; [done|]. by intros ? [= <-].
  - intros ctx uid_ companyId_. unfold Fn.approveEmployerUpgrade.
    destruct ctx as [a|]; [|intros [= <-]; right; left; by split].
    destruct (Fn.has_role a "admin") eqn:Hr.
    + destruct (_ || _) eqn:Harg.
      * intros [= <-]. right. right. split; [done|].
        apply orb_true_iff in Harg as [H|H]; apply String.eqb_eq in H; auto.
      * intros H. left. by eapply try_catch_internal_code.
    + intros [= <-]. right. left. split; [done|]. by intros ? [= <-].
  - intros ctx parsed nid. unfold Fn.createJob.
    destruct ctx as [a|]; [|intros [= <-]; right; by split].
    destruct (_ && _) eqn:Hg.
    + intros H. left. by eapply try_catch_internal_code.
    + intros [= <-]. right. split; [done|]. intros ? [= <-].
      by apply andb_false_iff in Hg.
  - intros ctx jobId. unfold Fn.approveJob.
    destruct ctx as [a|]; [|intros [= <-]; right; left; by split].
    destruct (Fn.has_role a "admin") eqn:Hr.
    + destruct (String.eqb_spec jobId "") as [->|Hne].
      * intros [= <-]. right. right. by split.
      * intros H. left. by eapply try_catch_internal_code.
    + intros [= <-]. right. left. split; [done|]. by intros ? [= <-].
  - intros ctx jobId resumePath coverLetter nid. unfold Fn.applyToJob.
    destruct ctx as [a|]; [|intros [= <-]; right; left; by split].
    destruct (_ && _) eqn:Hg.
    + destruct (_ || _) eqn:Harg.
      * intros [= <-]. right. right. split; [done|].
        apply orb_true_iff in Harg as [H|H]; apply String.eqb_eq in H; auto.
      * intros H. left. by eapply try_catch_internal_code.
    + intros [= <-]. right. left. split; [done|]. intros ? [= <-].
      by apply andb_false_iff in Hg.
  - intros ctx applicationId. unfold Fn.signUrlForResume.
    destruct ctx as [a|]; [|intros [= <-]; right; left; by split].
    destruct (Fn.email_verified a) eqn:Hv.
    + destruct (String.eqb_spec applicationId "") as [->|Hne].
      * intros [= <-]. right. right. by split.
      * intros H. left. by eapply try_catch_internal_code.
    + intros [= <-]. right. left. split; [done|]. by intros ? [= <-].
  - intros ctx applicationId status notes. unfold Fn.updateApplicationStatus.
    destruct ctx as [a|]; [|intros [= <-]; right; left; by split].
    destruct (Fn.email_verified a) eqn:Hv.
    + destruct (_ || _) eqn:Harg.
      * intros [= <-]. right. right. split; [done|].
        apply orb_true_iff in Harg as [Harg|H].
        -- apply orb_true_iff in Harg as [H|H]; apply String.eqb_eq in H; auto.
        -- right. right. intros Hin. apply valid_status_In in Hin.
           rewrite Hin in H. done.
      * intros H. left. by eapply try_catch_internal_code.
    + intros [= <-]. right. left. split; [done|]. by intros ? [= <-].
Qed.

Lemma callable_error_codes_witness :
  fst (Fn.createJob (Some FnSample.sam) (Some (ClientSample.job_data 2000)) "j2" 50
         FnSample.applied) = Err permission_denied
  ∧ Fn.has_role FnSample.sam "employer" = false.
Proof.
  split; [reflexivity|].
  destruct (callable_error_codes 50 FnSample.applied permission_denied)
    as (_ & _ & H & _).
  destruct (H (Some FnSample.sam) (Some (ClientSample.job_data 2000)) "j2")
    as [Hi|[_ Hg]]; [reflexivity|discriminate|].
  by destruct (Hg FnSample.sam eq_refl).
Defined.

(** ** The browser side: pages, the applied check and uploads *)

Lemma after_nth {D} (l : list (string * D)) i kv :
  NoDup (map fst l) → nth_error l i = Some kv →
  Client.after (fst kv) l = skipn (S i) l.
Proof.
  revert i. induction l as [|x l IH]; intros i Hnd Hi; [by destruct i|].
  simpl in Hnd. apply NoDup_cons in Hnd as [Hx Hnd].
  destruct i as [|i]; simpl in *.
  - injection Hi as ->. by rewrite String.eqb_refl.
  - destruct (String.eqb_spec (fst x) (fst kv)) as [E|_]; [|by apply IH].
    exfalso. apply Hx. rewrite E. apply list_elem_of_In, in_map.
    by eapply nth_error_In.
Qed.

(** X26.  [getPaginated] with a page size of at least 1, over documents
    with distinct ids.  Called without a cursor, or with a document of the
    result as cursor, it returns the next [pageSize] documents in query
    order; [hasMore] is true exactly when documents remain after the page,
    and then [lastDoc] is the last document of the page, so that passing
    it back continues right after the page: following [lastDoc] walks
    through the result without skipping or repeating a document. *)
Theorem getPaginated_pages {D} (matching : list (string * D)) (n : Z) (o : nat)
    (cursor : option (string * D)) :
  1 <= n → NoDup (map fst matching) →
  (o = 0%nat ∧ cursor = None)
  ∨ (∃ i kv, o = S i ∧ nth_error matching i = Some kv ∧ cursor = Some kv) →
  ∃ p, Client.getPaginated matching (Some n) cursor = Some p
       ∧ Client.p_items p = firstn (Z.to_nat n) (skipn o matching)
       ∧ (Client.p_hasMore p = true ↔ Z.of_nat o + n < Z.of_nat (length matching))
       ∧ Client.p_lastDoc p
         = (if Client.p_hasMore p
            then nth_error matching (o + Z.to_nat n - 1) else None)
       ∧ (Client.p_hasMore p = true → is_Some (Client.p_lastDoc p)).
Proof.
  intros Hn Hnd Hcur.
  assert (Client.startAfter cursor matching = skipn o matching) as Hrest.
  { destruct Hcur as [[-> ->]|(i & kv & -> & Hi & ->)]; [done|].
    simpl. by apply after_nth. }
  unfold Client.getPaginated. simpl default.
  destruct (Z.leb_spec (n + 1) 0) as [?|_]; [lia|].
  rewrite Hrest. set (rest := skipn o matching).
  assert (length rest = (length matching - o)%nat) as Hlen
    by (unfold rest; apply length_skipn).
  set (docs := firstn (Z.to_nat (n + 1)) rest).
  assert (length docs = Nat.min (Z.to_nat (n + 1)) (length rest)) as Hdocs
    by (unfold docs; apply length_firstn).
  assert ((n <? Z.of_nat (length docs)) = true
          ↔ Z.of_nat o + n < Z.of_nat (length matching)) as Hmore.
  { rewrite Z.ltb_lt. lia. }
  eexists. split; [reflexivity|]. simpl. split; [|split; [done|split]].
  - rewrite slice_0_firstn by lia. unfold docs.
    rewrite firstn_firstn. f_equal. lia.
  - destruct (n <? Z.of_nat (length docs)) eqn:E; [|done].
    unfold Client.at_index. destruct (Z.ltb_spec (n - 1) 0) as [?|_]; [lia|].
    unfold docs. rewrite nth_error_firstn.
    destruct (Nat.ltb_spec (Z.to_nat (n - 1)) (Z.to_nat (n + 1))) as [_|?]; [|lia].
    unfold rest. rewrite nth_error_skipn. f_equal. lia.
  - intros E. rewrite E. apply Hmore in E.
    unfold Client.at_index. destruct (Z.ltb_spec (n - 1) 0) as [?|_]; [lia|].
    unfold docs. rewrite nth_error_firstn.
    destruct (Nat.ltb_spec (Z.to_nat (n - 1)) (Z.to_nat (n + 1))) as [_|?]; [|lia].
    unfold rest. rewrite nth_error_skipn.
    apply not_eq_None_Some, nth_error_Some. lia.
Qed.

Lemma getPaginated_pages_witness :
  let docs := [("a", 1); ("b", 2); ("c", 3); ("d", 4); ("e", 5)] in
  ∃ p, Client.getPaginated docs (Some 2) (Some ("b", 2)) = Some p
       ∧ Client.p_items p = [("c", 3); ("d", 4)]
       ∧ Client.p_lastDoc p = Some ("d", 4).
Proof.
  cbv zeta.
  destruct (getPaginated_pages [("a", 1); ("b", 2); ("c", 3); ("d", 4); ("e", 5)]
              2 2 (Some ("b", 2))) as (p & Hp & Hitems & Hmore & Hlast & _).
  - lia.
  - apply (bool_decide_unpack _). by vm_compute.
  - right. exists 1%nat, ("b", 2). by repeat split.
  - exists p. split; [exact Hp|]. split; [exact Hitems|].
    rewrite Hlast. assert (Client.p_hasMore p = true) as -> by (apply Hmore; simpl; lia).
    reflexivity.
Defined.

Lemma includes_underscore_cons c x :
  includes (String c x) "_" = false → c ≠ "_"%char ∧ includes x "_" = false.
Proof.
  change (includes (String c x) "_")
    with (if String.prefix "_" (String c x) then true else includes x "_").
  change (String.prefix "_" (String c x))
    with (if ascii_dec "_" c then String.prefix "" x else false).
  destruct (ascii_dec "_" c) as [<-|Hne].
  - by destruct x.
  - intros H. split; [congruence|done].
Qed.

Lemma dedupeKey_of_inj j1 u1 j2 u2 :
  includes j1 "_" = false → includes j2 "_" = false →
  Fn.dedupeKey_of j1 u1 = Fn.dedupeKey_of j2 u2 → j1 = j2 ∧ u1 = u2.
Proof.
  unfold Fn.dedupeKey_of. revert j2.
  assert (∀ c j x, String c j +:+ x = String c (j +:+ x)) as Hcons by reflexivity.
  assert (∀ x, "" +:+ x = x) as Hnil by reflexivity.
  induction j1 as [|c1 j1 IH]; intros [|c2 j2] H1 H2 Heq;
    rewrite ?Hcons, ?Hnil in Heq.
  - by injection Heq as ->.
  - injection Heq as <- _. by apply includes_underscore_cons in H2 as [? _].
  - injection Heq as -> _. by apply includes_underscore_cons in H1 as [? _].
  - injection Heq as -> Heq.
    apply includes_underscore_cons in H1 as [_ H1].
    apply includes_underscore_cons in H2 as [_ H2].
    destruct (IH j2 H1 H2 Heq) as [-> ->]. done.
Qed.

(** X27.  The dedupe key names the job and the applicant faithfully as
    long as job ids contain no underscore: two keys built from such job
    ids are equal only if the jobs and the applicants are.  With an
    underscore in a job id two different pairs can share a key. *)
Theorem dedupeKey_of_injective :
  (∀ j1 u1 j2 u2,
     includes j1 "_" = false → includes j2 "_" = false →
     Fn.dedupeKey_of j1 u1 = Fn.dedupeKey_of j2 u2 → j1 = j2 ∧ u1 = u2)
  ∧ Fn.dedupeKey_of "a_b" "c" = Fn.dedupeKey_of "a" "b_c".
Proof. split; [apply dedupeKey_of_inj|reflexivity]. Qed.

Lemma dedupeKey_of_injective_witness :
  includes "j1" "_" = false
  ∧ Fn.dedupeKey_of "j1" "sam" = "j1_sam"
  ∧ ("j1" = "j1" ∧ "sam" = "sam").
Proof.
  split; [reflexivity|]. split; [reflexivity|].
  apply (proj1 dedupeKey_of_injective "j1" "sam" "j1" "sam"); reflexivity.
Defined.

Lemma first_match_existsb {A} (f : A → bool) l :
  (0 <? Z.of_nat (length (firstn 1 (List.filter f l)))) = existsb f l.
Proof.
  induction l as [|x l IH]; simpl; [done|]. by destruct (f x).
Qed.

Lemma hasUserAppliedToJob_has_dedupeKey j u s :
  Client.hasUserAppliedToJob j u s = Fn.has_dedupeKey (Fn.dedupeKey_of j u) s.
Proof. apply first_match_existsb. Qed.

(** X28.  The browser's [hasUserAppliedToJob] and the duplicate check of
    [applyToJob] agree: they look for the same dedupe key.  After a
    successful [applyToJob] the check answers true for the job and the
    caller; while it answers true, [applyToJob] by that caller for that
    job fails and changes nothing.  In every reachable state it answers
    true for the job and the applicant of each stored application; and if
    no job id contains an underscore, it answers true only if such an
    application is stored. *)
Theorem hasUserAppliedToJob_agrees :
  (∀ j u s, Client.hasUserAppliedToJob j u s = Fn.has_dedupeKey (Fn.dedupeKey_of j u) s)
  ∧ (∀ a jobId resumePath coverLetter nid now s id,
       fst (Fn.applyToJob (Some a) jobId resumePath coverLetter nid now s) = Ok id →
       Client.hasUserAppliedToJob jobId (Fn.uid a)
         (snd (Fn.applyToJob (Some a) jobId resumePath coverLetter nid now s)) = true)
  ∧ (∀ a jobId resumePath coverLetter nid now s,
       Client.hasUserAppliedToJob jobId (Fn.uid a) s = true →
       ∃ e, Fn.applyToJob (Some a) jobId resumePath coverLetter nid now s = (Err e, s))
  ∧ (∀ s, Fn.reachable s →
       (∀ k d, Fn.applications s !! k = Some d →
               Client.hasUserAppliedToJob (Fn.a_jobId d) (Fn.a_applicantUid d) s = true)
       ∧ (∀ j u,
            includes j "_" = false →
            (∀ k d, Fn.applications s !! k = Some d →
                    includes (Fn.a_jobId d) "_" = false) →
            Client.hasUserAppliedToJob j u s = true →
            ∃ k d, Fn.applications s !! k = Some d
                   ∧ Fn.a_jobId d = j ∧ Fn.a_applicantUid d = u)).
Proof.
  split; [apply hasUserAppliedToJob_has_dedupeKey|]. split; [|split].
  - intros a jobId resumePath coverLetter nid now s id Hok.
    rewrite hasUserAppliedToJob_has_dedupeKey.
    destruct (applyToJob_effect (Some a) jobId resumePath coverLetter nid now s)
      as [[_ [e He]]|(a' & jd & [= <-] & _ & _ & _ & _ & _ & _ & Ha & _)];
      [congruence|].
    apply has_dedupeKey_true. eexists nid, _. rewrite Ha, lookup_insert_eq. by split.
  - intros a jobId resumePath coverLetter nid now s Hyes.
    rewrite hasUserAppliedToJob_has_dedupeKey in Hyes.
    destruct (applyToJob_effect (Some a) jobId resumePath coverLetter nid now s)
      as [[Hs [e He]]|(a' & jd & [= <-] & _ & _ & _ & Hno & _)]; [|congruence].
    exists e. rewrite (surjective_pairing (Fn.applyToJob _ _ _ _ _ _ _)).
    by rewrite Hs, He.
  - intros s Hs. pose proof (reachable_applications_wf s Hs) as Hwf. split.
    + intros k d Hd. rewrite hasUserAppliedToJob_has_dedupeKey.
      apply has_dedupeKey_true. exists k, d. split; [done|].
      by destruct (Hwf k d Hd) as (-> & _).
    + intros j u Hj Hall Hyes. rewrite hasUserAppliedToJob_has_dedupeKey in Hyes.
      apply has_dedupeKey_true in Hyes as (k & d & Hd & Hkey).
      exists k, d. split; [done|].
      destruct (Hwf k d Hd) as (Hform & _). rewrite Hform in Hkey.
      by apply dedupeKey_of_inj in Hkey; [|by eapply Hall|].
Qed.

Lemma hasUserAppliedToJob_agrees_witness :
  Client.hasUserAppliedToJob "j1" "sam" FnSample.applied = true
  ∧ ∃ e, Fn.applyToJob (Some FnSample.sam) "j1" "resumes/sam/cv2.pdf" "" "a2" 30
           FnSample.applied = (Err e, FnSample.applied).
Proof.
  assert (Client.hasUserAppliedToJob "j1" "sam" FnSample.applied = true) as Hyes
    by (by vm_compute).
  split; [exact Hyes|].
  destruct hasUserAppliedToJob_agrees as (_ & _ & H & _).
  exact (H FnSample.sam "j1" "resumes/sam/cv2.pdf" "" "a2" 30 FnSample.applied Hyes).
Defined.

(** X29.  What the upload helpers accept.  [validateFile] checks the size
    first, so a file that is both too large and of the wrong type is
    reported as too large; a size limit of 0 is no limit.  A resume or a
    proof document is accepted exactly when it is at most 5 MB and a PDF,
    a logo exactly when it is at most 1 MB and a JPEG, PNG or WebP image;
    an accepted file goes to the folder of the user or the company, under
    the generated name. *)
Theorem upload_accepts (file : Upload.File) (owner filename : string) :
  (∀ m ts, m ≠ 0 → m < Upload.file_size file →
           Upload.validateFile file
             {| Upload.maxSize := Some m; Upload.allowedTypes := ts |}
           = Some (Upload.TooLarge m))
  ∧ (∀ ts, Upload.validateFile file
             {| Upload.maxSize := Some 0; Upload.allowedTypes := ts |}
           = Upload.validateFile file
               {| Upload.maxSize := None; Upload.allowedTypes := ts |})
  ∧ (Upload.uploadResume file owner filename
     = inr (Upload.RESUMES owner +:+ "/" +:+ filename)
     ↔ Upload.file_size file <= 5242880 ∧ Upload.file_type file = "application/pdf")
  ∧ (Upload.uploadProofDocument file owner filename
     = inr (Upload.PROOFS owner +:+ "/" +:+ filename)
     ↔ Upload.file_size file <= 5242880 ∧ Upload.file_type file = "application/pdf")
  ∧ (Upload.uploadLogo file owner filename
     = inr (Upload.LOGOS owner +:+ "/" +:+ filename)
     ↔ Upload.file_size file <= 1048576
       ∧ In (Upload.file_type file)
           ["image/jpeg"; "image/jpg"; "image/png"; "image/webp"])
  ∧ (∀ e, Upload.uploadResume file owner filename = inl e →
          (e = Upload.TooLarge 5242880 ∧ 5242880 < Upload.file_size file)
          ∨ (e = Upload.TypeNotAllowed (Upload.file_type file)
             ∧ Upload.file_size file <= 5242880
             ∧ Upload.file_type file ≠ "application/pdf")).
Proof.
  assert (∀ ts, existsb (String.eqb (Upload.file_type file)) ts = true
                ↔ In (Upload.file_type file) ts) as Hin.
  { intros ts. rewrite existsb_exists. split.
    - intros (x & Hx & E). apply String.eqb_eq in E. by subst.
    - intros H. exists (Upload.file_type file). split; [done|apply String.eqb_refl]. }
  assert (∀ path lim ts,
            lim ≠ 0 →
            Upload.uploadFile file path
              {| Upload.maxSize := Some lim; Upload.allowedTypes := Some ts |} filename
            = inr (path +:+ "/" +:+ filename)
            ↔ Upload.file_size file <= lim ∧ In (Upload.file_type file) ts) as Hup.
  { intros path lim ts Hlim. unfold Upload.uploadFile, Upload.validateFile. simpl.
    destruct (Z.eqb_spec lim 0) as [?|_]; [done|]. simpl.
    destruct (Z.ltb_spec lim (Upload.file_size file)) as [Hbig|Hok].
    - split; [done|]. intros [? _]. lia.
    - destruct (existsb _ ts) eqn:E; simpl.
      + split; [|done]. intros _. split; [done|]. by apply Hin.
      + split; [done|]. intros [_ H]. apply Hin in H. congruence. }
  split; [|split; [|split; [|split; [|split]]]].
  - intros m ts Hm Hbig. unfold Upload.validateFile. simpl.
    destruct (Z.eqb_spec m 0) as [?|_]; [done|]. simpl.
    by destruct (Z.ltb_spec m (Upload.file_size file)) as [_|?]; [|lia].
  - intros ts. reflexivity.
  - unfold Upload.uploadResume. rewrite Hup by done.
    unfold Upload.RESUME_LIMIT, Upload.PDF. simpl. intuition.
  - unfold Upload.uploadProofDocument. rewrite Hup by done.
    unfold Upload.PROOF_LIMIT, Upload.PDF. simpl. intuition.
  - unfold Upload.uploadLogo. rewrite Hup by done.
    unfold Upload.LOGO_LIMIT, Upload.IMAGES. simpl. intuition.
  - intros e. unfold Upload.uploadResume, Upload.uploadFile, Upload.validateFile.
    simpl. destruct (Z.ltb_spec Upload.RESUME_LIMIT (Upload.file_size file)) as [Hbig|Hok].
    + intros [= <-]. left. by split.
    + destruct (String.eqb_spec (Upload.file_type file) "application/pdf") as [E|Hne];
        simpl; [done|].
      intros [= <-]. right. by repeat split.
Qed.

Lemma upload_accepts_witness :
  let big := {| Upload.file_name := "cv.docx"; Upload.file_size := 6000000;
                Upload.file_type := "application/msword" |} in
  Upload.validateFile big
    {| Upload.maxSize := Some Upload.RESUME_LIMIT;
       Upload.allowedTypes := Some Upload.PDF |}
  = Some (Upload.TooLarge Upload.RESUME_LIMIT).
Proof.
  cbv zeta.
  apply (proj1 (upload_accepts
                  {| Upload.file_name := "cv.docx"; Upload.file_size := 6000000;
                     Upload.file_type := "application/msword" |} "sam" "1_x.docx")).
  - done.
  - unfold Upload.RESUME_LIMIT. simpl. lia.
Defined.

(** ** The admin service: profiles and role claims *)

(** X30.  The admin service keeps the profile and the role claim apart.
    [createUserProfile] for a uid that is not empty stores the profile
    under the uid, replacing an earlier one, and [getUserProfile] reads it
    back with the uid as its id; it touches no account.  [setUserRole]
    sets the role claim of an existing account and nothing else, so the
    role in the profile is not updated with it; for a uid without an
    account it throws and changes nothing. *)
Theorem admin_profile_and_role
    (uid_ displayName email : string) (role_ newRole : UserRole)
    (emailVerified : bool) (now : Z) (s : Fn.Store) :
  uid_ ≠ "" →
  let r := Fn.createUserProfile uid_ displayName email role_ emailVerified now s in
  let profile := {| Fn.u_displayName := displayName; Fn.u_email := email;
                    Fn.u_role := role_; Fn.u_emailVerified := emailVerified;
                    Fn.u_createdAt := now; Fn.u_updatedAt := now |} in
  fst r = Fn.Return tt
  ∧ Fn.getUserProfile uid_ (snd r) = Fn.Return (Some (uid_, profile))
  ∧ (∀ k, k ≠ uid_ → k ≠ "" → Fn.getUserProfile k (snd r) = Fn.getUserProfile k s)
  ∧ Fn.authClaims (snd r) = Fn.authClaims s
  ∧ (let r2 := Fn.setUserRole uid_ newRole (snd r) in
     Fn.users (snd r2) = Fn.users (snd r)
     ∧ Fn.getUserProfile uid_ (snd r2) = Fn.Return (Some (uid_, profile))
     ∧ (is_Some (Fn.authClaims s !! uid_) →
        fst r2 = Fn.Return tt
        ∧ Fn.authClaims (snd r2) !! uid_
          = Some (Some (match newRole with
                        | seeker => "seeker" | employer => "employer" | admin => "admin"
                        end))
        ∧ ∀ k, k ≠ uid_ → Fn.authClaims (snd r2) !! k = Fn.authClaims s !! k)
     ∧ (Fn.authClaims s !! uid_ = None →
        r2 = (Fn.Throw (Fn.JsError "Failed to set user role"), snd r))).
Proof.
  intros Hne. cbv zeta. apply String.eqb_neq in Hne.
  unfold Fn.createUserProfile, Fn.getUserProfile, Fn.setUserRole,
    Fn.setCustomUserClaims.
  rewrite Hne. simpl. rewrite lookup_insert_eq.
  split; [done|]. split; [done|]. split; [|split; [done|]].
  - intros k Hk Hk0. apply String.eqb_neq in Hk0. rewrite Hk0.
    by rewrite lookup_insert_ne.
  - destruct (Fn.authClaims s !! uid_) as [c|] eqn:Hc; simpl;
      rewrite lookup_insert_eq.
    + split; [done|]. split; [done|]. split; [|done]. intros _.
      split; [done|]. rewrite lookup_insert_eq. split; [done|].
      intros k Hk. by rewrite lookup_insert_ne.
    + split; [done|]. split; [done|]. split; [|done]. by intros [? ?].
Qed.

Lemma admin_profile_and_role_witness :
  Fn.getUserProfile "ada"
    (snd (Fn.setUserRole "ada" admin
            (snd (Fn.createUserProfile "ada" "Ada" "ada@mail.example" seeker true 7
                    Fn.empty))))
  = Fn.Return
      (Some ("ada",
             {| Fn.u_displayName := "Ada"; Fn.u_email := "ada@mail.example";
                Fn.u_role := seeker; Fn.u_emailVerified := true;
                Fn.u_createdAt := 7; Fn.u_updatedAt := 7 |})).
Proof.
  destruct (admin_profile_and_role "ada" "Ada" "ada@mail.example" seeker admin true 7
              Fn.empty) as (_ & _ & _ & _ & _ & H & _); [done|].
  exact H.
Defined.
